(** * transcription_pipeline.py: time formatting, subtitle serialisation
      and the per-file run loop, embedded and verified

    The development follows the source file top to bottom:

    - [PyErr]: Python exceptions as a result monad;
    - [PyFloat]: the arithmetic the source applies to [seconds], given as an
      interface with two instances: [xreal] (exact rational arithmetic,
      extended with the two infinities and NaN) and [b64] (IEEE binary64 as
      specified by the standard library's [SpecFloat]);
    - [format_time], [generate_subtitle_file], [extract_audio],
      [transcribe], [run]: the methods of [TranscriptionPipeline]. *)

From Stdlib Require Import ZArith QArith Qround Qabs Lia Lqa Ascii String.
From Stdlib Require Import SpecFloat.
From stdpp Require Import base option list strings pretty gmap.

Set Default Proof Using "Type".
Local Open Scope Z_scope.

(** ** Exceptions and results *)

Module PyErr.

(** The exception classes that the modelled code can meet. The payload of
    an exception is the text that [str(e)] prints in a log message. *)
Inductive exn : Type :=
| OverflowError (msg : string)
| ValueError (msg : string)
| ZeroDivisionError (msg : string)
| OSError (msg : string)
| ExternalError (msg : string).

Definition exn_str (e : exn) : string :=
  match e with
  | OverflowError m | ValueError m | ZeroDivisionError m
  | OSError m | ExternalError m => m
  end.

(** A computation either returns a value or raises. *)
Inductive result (A : Type) : Type :=
| Ok (a : A)
| Raise (e : exn).
Global Arguments Ok {A} a.
Global Arguments Raise {A} e.

Global Instance result_ret : MRet result := λ A a, Ok a.
Global Instance result_bind : MBind result := λ A B f m,
  match m with
  | Ok a => f a
  | Raise e => Raise e
  end.
Global Instance result_fmap : FMap result := λ A B f m,
  match m with
  | Ok a => Ok (f a)
  | Raise e => Raise e
  end.

Definition is_ok {A} (m : result A) : bool :=
  match m with Ok _ => true | Raise _ => false end.

End PyErr.
Import PyErr.

(** ** The arithmetic of [seconds] *)

(** The operations [format_time] applies to its argument. In each binary
    operation of the source the left operand is a [float] and the right
    operand an [int] (a literal, or the value of [math.floor]), which
    CPython converts to a [float] before it operates. [truediv] is [/],
    [float_rem] is [%], [math_floor] is [math.floor] and [py_round] is the
    one-argument builtin [round]; the last two return a Python [int] and
    raise on an infinity or a NaN. *)
Class PyFloat (F : Type) : Type := {
  truediv : F → Z → result F;
  float_rem : F → Z → result F;
  float_sub : F → Z → result F;
  float_mul : F → Z → result F;
  math_floor : F → result Z;
  py_round : F → result Z
}.

(** *** Exact instance: extended rationals *)

(** A finite value is a rational and the arithmetic on finite values is
    exact: this is the reading under which the properties of [format_time]
    are stated for every real [s]. *)
Inductive xreal : Type :=
| Fin (q : Q)
| Inf (neg : bool)
| NaN.

(** Round half to even, the rule of [float.__round__]. *)
Definition Qround_half_even (q : Q) : Z :=
  let f := Qfloor q in
  match ((q - inject_Z f) ?= (1 # 2))%Q with
  | Lt => f
  | Gt => f + 1
  | Eq => if Z.even f then f else f + 1
  end.

Module XReal.

Definition truediv (x : xreal) (n : Z) : result xreal :=
  if n =? 0 then Raise (ZeroDivisionError "float division by zero")
  else match x with
       | Fin a => Ok (Fin (a / inject_Z n))
       | Inf s => Ok (Inf (xorb s (n <? 0)))
       | NaN => Ok NaN
       end.

(** [a % n]: the remainder takes the sign of the divisor. *)
Definition float_rem (x : xreal) (n : Z) : result xreal :=
  if n =? 0 then Raise (ZeroDivisionError "float modulo by zero")
  else match x with
       | Fin a => Ok (Fin (a - inject_Z n * inject_Z (Qfloor (a / inject_Z n))))
       | Inf _ | NaN => Ok NaN
       end.

Definition float_sub (x : xreal) (n : Z) : result xreal :=
  match x with
  | Fin a => Ok (Fin (a - inject_Z n))
  | Inf s => Ok (Inf s)
  | NaN => Ok NaN
  end.

Definition float_mul (x : xreal) (n : Z) : result xreal :=
  match x with
  | Fin a => Ok (Fin (a * inject_Z n))
  | Inf s => Ok (if n =? 0 then NaN else Inf (xorb s (n <? 0)))
  | NaN => Ok NaN
  end.

Definition to_int (f : Q → Z) (x : xreal) : result Z :=
  match x with
  | Fin q => Ok (f q)
  | Inf _ => Raise (OverflowError "cannot convert float infinity to integer")
  | NaN => Raise (ValueError "cannot convert float NaN to integer")
  end.

End XReal.

Global Instance xreal_float : PyFloat xreal := {|
  truediv := XReal.truediv;
  float_rem := XReal.float_rem;
  float_sub := XReal.float_sub;
  float_mul := XReal.float_mul;
  math_floor := XReal.to_int Qfloor;
  py_round := XReal.to_int Qround_half_even
|}.

(** *** Binary64 instance *)

(** IEEE 754 double precision, the [float] of CPython, on the standard
    library's executable specification [SpecFloat]. *)
Module B64.

Definition prec : Z := 53.
Definition emax : Z := 1024.

Definition is_nan (x : spec_float) : bool :=
  match x with S754_nan => true | _ => false end.
Definition is_zero (x : spec_float) : bool :=
  match x with S754_zero _ => true | _ => false end.
Definition sign (x : spec_float) : bool :=
  match x with
  | S754_zero s | S754_infinity s | S754_finite s _ _ => s
  | S754_nan => false
  end.

(** [PyLong_AsDouble]: the nearest double, or [OverflowError]. *)
Definition of_int (n : Z) : result spec_float :=
  match binary_normalize prec emax n 0 false with
  | S754_infinity _ => Raise (OverflowError "int too large to convert to float")
  | x => Ok x
  end.

(** The value [m * 2^e] of a finite double, as a rational. *)
Definition Q_of_finite (s : bool) (m : positive) (e : Z) : Q :=
  let v := match e with
           | Z0 => inject_Z (Zpos m)
           | Zpos p => inject_Z (Zpos m * Z.pow_pos 2 p)
           | Zneg p => Zpos m # Pos.pow 2 p
           end in
  if s then Qopp v else v.

(** [PyLong_FromDouble] after the rounding function [f]. *)
Definition to_int (f : Q → Z) (x : spec_float) : result Z :=
  match x with
  | S754_zero _ => Ok 0
  | S754_finite s m e => Ok (f (Q_of_finite s m e))
  | S754_infinity _ => Raise (OverflowError "cannot convert float infinity to integer")
  | S754_nan => Raise (ValueError "cannot convert float NaN to integer")
  end.

(** C [fmod]: exact, with the sign of the dividend. *)
Definition fmod (x y : spec_float) : spec_float :=
  match x, y with
  | S754_nan, _ | _, S754_nan => S754_nan
  | S754_infinity _, _ | _, S754_zero _ => S754_nan
  | S754_zero _, _ | _, S754_infinity _ => x
  | S754_finite sx mx ex, S754_finite _ my ey =>
      let e := Z.min ex ey in
      let r := (Zpos mx * 2 ^ (ex - e)) mod (Zpos my * 2 ^ (ey - e)) in
      binary_normalize prec emax (if sx then - r else r) e sx
  end.

Definition truediv (x : spec_float) (n : Z) : result spec_float :=
  y ← of_int n;
  if is_zero y then Raise (ZeroDivisionError "float division by zero")
  else Ok (SFdiv prec emax x y).

(** [float_rem] of floatobject.c: [fmod], then the sign of the divisor. *)
Definition float_rem (x : spec_float) (n : Z) : result spec_float :=
  y ← of_int n;
  if is_zero y then Raise (ZeroDivisionError "float modulo by zero")
  else
    let md := fmod x y in
    if is_zero md then Ok (S754_zero (sign y))
    else if negb (is_nan md) && negb (Bool.eqb (sign y) (sign md))
         then Ok (SFadd prec emax md y)
         else Ok md.

Definition float_sub (x : spec_float) (n : Z) : result spec_float :=
  y ← of_int n; Ok (SFsub prec emax x y).

Definition float_mul (x : spec_float) (n : Z) : result spec_float :=
  y ← of_int n; Ok (SFmul prec emax x y).

(** The double of a whole number below [2^53]. *)
Definition whole (n : Z) : spec_float := binary_normalize prec emax n 0 false.

(** The double nearest to the decimal literal [n / 10^k]. *)
Definition literal (n : Z) (k : positive) : spec_float :=
  SFdiv prec emax (binary_normalize prec emax n 0 false)
                  (binary_normalize prec emax (Z.pow_pos 10 k) 0 false).

End B64.

Global Instance b64_float : PyFloat spec_float := {|
  truediv := B64.truediv;
  float_rem := B64.float_rem;
  float_sub := B64.float_sub;
  float_mul := B64.float_mul;
  math_floor := B64.to_int Qfloor;
  py_round := B64.to_int Qround_half_even
|}.

(** ** String formatting *)

(** [s.rjust(width, "0")] for a digit string. *)
Definition zero_pad (width : nat) (s : string) : string :=
  String.concat "" (replicate (width - String.length s) "0") +:+ s.

(** The format specification [0<width>d] applied to an [int]: decimal
    digits, padded with zeros after the sign up to [width] characters. *)
Definition format_d (width : nat) (z : Z) : string :=
  if z <? 0 then "-" +:+ zero_pad (width - 1) (pretty (Z.abs_N z))
  else zero_pad width (pretty (Z.to_N z)).

(** The f-string of [format_time]'s last line. *)
Definition timestamp (hours minutes seconds milliseconds : Z) : string :=
  format_d 2 hours +:+ ":" +:+ format_d 2 minutes +:+ ":" +:+
  format_d 2 seconds +:+ "," +:+ format_d 3 milliseconds.

(** ** [TranscriptionPipeline.format_time] *)

Section FormatTime.
Context {F : Type} `{PyFloat F}.

Definition format_time (seconds : F) : result string :=
  q ← truediv seconds 3600;
  hours ← math_floor q;
  seconds ← float_rem seconds 3600;
  q ← truediv seconds 60;
  minutes ← math_floor q;
  seconds ← float_rem seconds 60;
  whole ← math_floor seconds;
  frac ← float_sub seconds whole;
  scaled ← float_mul frac 1000;
  milliseconds ← py_round scaled;
  seconds ← math_floor seconds;
  Ok (timestamp hours minutes seconds milliseconds).

End FormatTime.

(** ** String methods *)

(** [str.lower] on the characters A to Z; every other character is kept.
    File names are taken to be written in ASCII. *)
Definition ascii_lower (c : ascii) : ascii :=
  let n := N_of_ascii c in
  if ((65 <=? n) && (n <=? 90))%N then ascii_of_N (n + 32) else c.

Fixpoint lower (s : string) : string :=
  match s with
  | EmptyString => EmptyString
  | String c rest => String (ascii_lower c) (lower rest)
  end.

(** [s.endswith(suffix)], and [s.endswith(tuple)]. *)
Definition endswith (s suffix : string) : bool :=
  bool_decide (list_ascii_of_string suffix `suffix_of` list_ascii_of_string s).

Definition endswith_any (s : string) (suffixes : list string) : bool :=
  existsb (endswith s) suffixes.

(** ** The pipeline's state *)

Definition nl : string := String "010"%char EmptyString.

Inductive level : Type := INFO | WARNING | ERROR.

(** A segment as [transcribe] builds it: the three keys of the dict. *)
Record segment (F : Type) : Type := Segment {
  seg_start : F;
  seg_end : F;
  seg_text : string
}.
Global Arguments Segment {F} _ _ _.
Global Arguments seg_start {F} _.
Global Arguments seg_end {F} _.
Global Arguments seg_text {F} _.

(** A segment as the speech model returns it; [transcribe] reads three of
    its keys and drops the others, among them the model's own [id]. *)
Record raw_segment (F : Type) : Type := RawSegment {
  raw_id : Z;
  raw_start : F;
  raw_end : F;
  raw_text : string
}.
Global Arguments RawSegment {F} _ _ _ _.
Global Arguments raw_id {F} _.
Global Arguments raw_start {F} _.
Global Arguments raw_end {F} _.
Global Arguments raw_text {F} _.

(** What the program observes and changes: the text files it writes, by
    path, the records it logs, and the state [E] of everything outside it
    (the media files, the media tool, the loaded model). *)
Record world (E : Type) : Type := World {
  files : gmap string string;
  log : list (level * string);
  ext : E
}.
Global Arguments World {E} _ _ _.
Global Arguments files {E} _.
Global Arguments log {E} _.
Global Arguments ext {E} _.

(** Stateful computations that may raise. *)
Module Run.
Section Monad.
Context {E : Type}.

Definition M (A : Type) : Type := world E → result A * world E.

Definition ret {A} (a : A) : M A := λ w, (Ok a, w).
Definition bind {A B} (m : M A) (k : A → M B) : M B := λ w,
  match m w with
  | (Ok a, w') => k a w'
  | (Raise e, w') => (Raise e, w')
  end.
Definition raise {A} (e : exn) : M A := λ w, (Raise e, w).
Definition lift {A} (r : result A) : M A := λ w, (r, w).

(** [try: body except Exception as e: handler e]. *)
Definition try_except {A} (body : M A) (handler : exn → M A) : M A := λ w,
  match body w with
  | (Ok a, w') => (Ok a, w')
  | (Raise e, w') => handler e w'
  end.

(** [self.logger.<level>(msg)]: one more record in the log. *)
Definition logged (l : level) (msg : string) (w : world E) : world E :=
  World (files w) (log w ++ [(l, msg)]) (ext w).

Definition logger (l : level) (msg : string) : M unit := λ w,
  (Ok (), logged l msg w).

(** The file object of [open(path, "w")] is created or truncated. *)
Definition file_truncate (path : string) : M unit := λ w,
  (Ok (), World (<[path := ""]> (files w)) (log w) (ext w)).

(** [f.write(chunk)] on the file opened at [path]. *)
Definition file_write (path chunk : string) : M unit := λ w,
  (Ok (), World (alter (λ c, c +:+ chunk) path (files w)) (log w) (ext w)).

End Monad.

Global Instance M_ret {E} : MRet (@M E) := @ret E.
Global Instance M_bind {E} : MBind (@M E) := λ A B k m, bind m k.
End Run.
Import Run.


(** ** The platform *)

(** The library calls the methods make, as the platform answers them:
    [os.path.join], [os.path.basename], [os.path.splitext], [os.listdir],
    whether [open(path, "w")] fails, the run of the media tool on a source
    and a destination, and the speech model's [transcribe], whose result
    may lack the key ["segments"]. The last two may change the state
    outside the program. *)
Class Platform (F E : Type) : Type := {
  path_join : string → string → string;
  path_basename : string → string;
  path_splitext : string → string * string;
  os_listdir : string → E → result (list string);
  os_open_w : string → E → option exn;
  ffmpeg_run : string → string → E → option exn * E;
  model_transcribe : string → E → result (option (list (raw_segment F))) * E
}.

(** The attributes [__init__] sets on [self]. *)
Record pipeline : Type := Pipeline {
  input_dir : string;
  output_dir : string
}.

(** ** The methods of [TranscriptionPipeline] *)

Section Pipeline.
Context {F : Type} `{PyFloat F} {E : Type} `{Platform F E}.
Variable self : pipeline.

Local Abbreviation M := (@M E).

(** [open(path, "w", encoding="utf-8")]. *)
Definition open_w (path : string) : M unit := λ w,
  match os_open_w path (ext w) with
  | Some e => (Raise e, w)
  | None => file_truncate path w
  end.

(** [ffmpeg.run(ffmpeg.output(ffmpeg.input(src), dst, ...))]. *)
Definition ffmpeg (src dst : string) : M unit := λ w,
  let '(r, e') := ffmpeg_run src dst (ext w) in
  (from_option Raise (Ok ()) r, World (files w) (log w) e').

(** [self.model.transcribe(audio_file, verbose=False)]. *)
Definition model (audio_file : string)
    : M (option (list (raw_segment F))) := λ w,
  let '(r, e') := model_transcribe audio_file (ext w) in
  (r, World (files w) (log w) e').

(** [os.listdir(path)]. *)
Definition listdir (path : string) : M (list string) := λ w,
  (os_listdir path (ext w), w).

Definition extract_audio (input_video : string) : M string :=
  let base_name := (path_splitext (path_basename input_video)).1 in
  let extracted_audio := path_join (output_dir self) (base_name +:+ ".wav") in
  try_except
    (ffmpeg input_video extracted_audio;;
     logger INFO ("Extracted audio: " +:+ extracted_audio);;
     mret extracted_audio)
    (λ e,
     logger ERROR ("Failed to extract audio from " +:+ input_video
                   +:+ ": " +:+ exn_str e);;
     raise e).

(** The dict built for one segment of the model's result. *)
Definition transcript_of (seg : raw_segment F) : segment F :=
  Segment (raw_start seg) (raw_end seg) (raw_text seg).

Definition transcribe (audio_file : string) : M (list (segment F)) :=
  logger INFO ("Transcribing: " +:+ path_basename audio_file);;
  try_except
    (result ← model audio_file;
     let segments := default [] result in
     let transcripts := transcript_of <$> segments in
     logger INFO ("Transcription complete: " +:+ path_basename audio_file);;
     mret transcripts)
    (λ e,
     logger ERROR ("Transcription failed for " +:+ audio_file
                   +:+ ": " +:+ exn_str e);;
     raise e).

(** The f-string given to [f.write]. *)
Definition srt_block (index : Z) (start end_ text : string) : string :=
  pretty index +:+ nl +:+ start +:+ " --> " +:+ end_ +:+ nl +:+
  text +:+ nl +:+ nl.

(** The body of the [with] block: the loop over
    [enumerate(segments, start=1)], from the position [index] on. *)
Fixpoint write_blocks (subtitle_path : string) (index : Z)
    (segments : list (segment F)) : M unit :=
  match segments with
  | [] => mret ()
  | segment :: rest =>
      start ← lift (format_time (seg_start segment));
      end_ ← lift (format_time (seg_end segment));
      file_write subtitle_path
        (srt_block index start end_ (seg_text segment));;
      write_blocks subtitle_path (index + 1) rest
  end.

Definition generate_subtitle_file (segments : list (segment F))
    (output_file_name : string) : M string :=
  let subtitle_path := path_join (output_dir self) (output_file_name +:+ ".srt") in
  try_except
    (open_w subtitle_path;;
     write_blocks subtitle_path 1 segments;;
     logger INFO ("Subtitle file generated: " +:+ subtitle_path);;
     mret subtitle_path)
    (λ e,
     logger ERROR ("Failed to write subtitle file for " +:+ output_file_name
                   +:+ ": " +:+ exn_str e);;
     raise e).

(** The tuple of suffixes in [run]. *)
Definition video_suffixes : list string := [".mp4"; ".mov"; ".mkv"; ".avi"].

(** The list comprehension of [run], on the names [os.listdir] gave. *)
Definition scan_videos (names : list string) : list string :=
  path_join (input_dir self) <$>
    List.filter (λ f, endswith_any (lower f) video_suffixes) names.

(** The three statements under [try] in the loop of [run]. *)
Definition stages (video base_name : string) : M unit :=
  audio_path ← extract_audio video;
  segments ← transcribe audio_path;
  generate_subtitle_file segments base_name;;
  mret ().

(** The [for video in videos] loop of [run]. *)
Fixpoint run_loop (videos : list string) : M unit :=
  match videos with
  | [] => mret ()
  | video :: rest =>
      let base_name := (path_splitext (path_basename video)).1 in
      logger INFO ("Processing video: " +:+ base_name);;
      try_except
        (stages video base_name)
        (λ e,
         logger ERROR ("Error processing " +:+ video +:+ ": " +:+ exn_str e));;
      run_loop rest
  end.

Definition run : M unit :=
  logger INFO ("Scanning input directory: " +:+ input_dir self);;
  names ← listdir (input_dir self);
  let videos := scan_videos names in
  match videos with
  | [] => logger WARNING ("No video files found in " +:+ input_dir self)
  | _ =>
      run_loop videos;;
      logger INFO ("Processing input directory complete. Outputs saved in: "
                   +:+ output_dir self)
  end.

End Pipeline.

(** ** A scripted platform *)

(** A small platform on which the methods can be run: paths joined with a
    slash, base names taken after the last slash, extensions split at the
    last dot; a directory of two videos; a media tool that fails on the
    first of them; a model that hears one segment; files that open. The
    state outside the program counts the calls of the media tool. *)
Module Demo.

Fixpoint contains (c : ascii) (s : string) : bool :=
  match s with
  | EmptyString => false
  | String x rest => bool_decide (x = c) || contains c rest
  end.

Fixpoint basename (p : string) : string :=
  match p with
  | EmptyString => EmptyString
  | String c rest =>
      if contains "/" rest then basename rest
      else if bool_decide (c = "/"%char) then rest else String c rest
  end.

Fixpoint splitext (p : string) : string * string :=
  match p with
  | EmptyString => (EmptyString, EmptyString)
  | String c rest =>
      if contains "." rest then
        let '(root, e) := splitext rest in (String c root, e)
      else if bool_decide (c = "."%char) then (EmptyString, String c rest)
      else (String c rest, EmptyString)
  end.

Definition heard : list (raw_segment xreal) :=
  [RawSegment 7 (Fin 0) (Fin 1) "Hi"; RawSegment 3 (Fin 1) (Fin (5 # 2)) "there"].

Definition platform : Platform xreal nat := {|
  path_join := λ a b, a +:+ "/" +:+ b;
  path_basename := basename;
  path_splitext := splitext;
  os_listdir := λ _ _, Ok ["a.mp4"; "notes.txt"; "b.MOV"];
  os_open_w := λ _ _, None;
  ffmpeg_run := λ src _ calls,
    (if bool_decide (src = "in/a.mp4")
     then Some (ExternalError "ffmpeg error (see stderr output for detail)")
     else None, S calls);
  model_transcribe := λ _ calls, (Ok (Some heard), calls)
|}.

Definition bodies : list string :=
  ["00:00:00,000 --> 00:00:01,000" +:+ nl +:+ "Hi" +:+ nl +:+ nl;
   "00:00:01,000 --> 00:00:02,500" +:+ nl +:+ "there" +:+ nl +:+ nl].

Definition self : pipeline := Pipeline "in" "out".

Definition start : world nat := World ∅ [] 0%nat.

End Demo.

(** * Vocabulary of the specification *)

Section Vocabulary.
Local Open Scope Q_scope.

(** Floor division with remainder, as a relation: [a = n * quot + rem]
    with an integer quotient and [0 <= rem < n]. *)
Definition floor_divmod (a : Q) (n quot : Z) (rem : Q) : Prop :=
  a == inject_Z n * inject_Z quot + rem ∧ 0 <= rem < inject_Z n.

(** [z] is an integer nearest to [x]. *)
Definition nearest_integer (z : Z) (x : Q) : Prop :=
  Qabs (inject_Z z - x) <= 1 # 2.

(** The decomposition of [s] seconds into the four fields, in the words
    of the specification: floor division with remainder by 3600, then by
    60, the floor of what remains, and the nearest integer to the
    fractional part times 1000. *)
Definition decomposes (s : Q) (hours minutes seconds milliseconds : Z)
    : Prop :=
  ∃ r1 r2 frac : Q,
    floor_divmod s 3600 hours r1 ∧
    floor_divmod r1 60 minutes r2 ∧
    floor_divmod r2 1 seconds frac ∧
    nearest_integer milliseconds (frac * 1000).

End Vocabulary.

(** The timestamp pattern [HH:MM:SS,mmm]: two digits, a colon, two digits,
    a colon, two digits, a comma and three digits. *)
Definition is_digit (c : ascii) : bool :=
  let n := N_of_ascii c in ((48 <=? n) && (n <=? 57))%N.

Definition matches_clock_pattern (s : string) : bool :=
  match list_ascii_of_string s with
  | [h1; h2; c1; m1; m2; c2; s1; s2; c3; f1; f2; f3] =>
      forallb is_digit [h1; h2; m1; m2; s1; s2; f1; f2; f3]
      && bool_decide (c1 = ":"%char) && bool_decide (c2 = ":"%char)
      && bool_decide (c3 = ","%char)
  | _ => false
  end.

(** The two decimal digits of a number below one hundred. *)
Definition digit_char (d : Z) : ascii := ascii_of_N (48 + Z.to_N d).

Definition two_digits (z : Z) : string :=
  String (digit_char (z / 10)) (String (digit_char (z mod 10)) EmptyString).

(** A double that is finite and below [2^K] in magnitude: a zero, or a
    mantissa of [d] binary digits with an exponent [e] such that
    [d + e <= K]. *)
Definition b64_below (K : Z) (x : spec_float) : Prop :=
  match x with
  | S754_zero _ => True
  | S754_finite _ m e => Zdigits2 (Zpos m) + e ≤ K
  | _ => False
  end.

(** A double that is finite and not negative. *)
Definition b64_nonneg (x : spec_float) : Prop :=
  match x with
  | S754_zero _ => True
  | S754_finite s _ _ => s = false
  | _ => False
  end.

(** The double with sign [s], mantissa [m] and exponent [e]; a zero when
    the mantissa is. *)
Definition float_of (s : bool) (m e : Z) : spec_float :=
  match m with
  | Z0 => S754_zero s
  | Zpos p => S754_finite s p e
  | Zneg _ => S754_nan
  end.


(** The magnitude of a finite double, times [2^S]. *)
Definition b64_scaled (S : Z) (x : spec_float) : Z :=
  match x with
  | S754_finite _ m e => Z.pos m * 2 ^ (e + S)
  | _ => 0
  end.

(** A double whose exponent, if it has one, is at least [lo]. *)
Definition b64_exponent_from (lo : Z) (x : spec_float) : Prop :=
  match x with
  | S754_finite _ _ e => lo ≤ e
  | _ => True
  end.

(** Canonical finite non-negative doubles. *)
Definition b64_regular (x : spec_float) : Prop :=
  valid_binary 53 1024 x = true ∧ b64_nonneg x.

(** The rational value of a finite double; zero for the others. *)
Definition b64_value (x : spec_float) : Q :=
  match x with
  | S754_finite s m e => B64.Q_of_finite s m e
  | _ => 0%Q
  end.

(** A shift record that locates the rational [N / D]: its mantissa is the
    floor of the quotient, and its round and sticky bits tell whether the
    rest is zero, below one half, one half, or above one half. *)
Definition located (N D : Z) (mrs : shr_record) : Prop :=
  (shr_m mrs * D ≤ N < (shr_m mrs + 1) * D)%Z ∧
  match shr_r mrs, shr_s mrs with
  | false, false => N = (shr_m mrs * D)%Z
  | false, true => (shr_m mrs * D < N ∧ 2 * (N - shr_m mrs * D) < D)%Z
  | true, false => (2 * (N - shr_m mrs * D) = D)%Z
  | true, true => (D < 2 * (N - shr_m mrs * D))%Z
  end.


(** A subtitle document: the blocks one after the other, the block at
    position [k] (from 0) carrying the index line [k + 1]. *)
Definition join_all (chunks : list string) : string :=
  foldr String.append EmptyString chunks.

Definition index_lines (n : nat) : list string :=
  (λ k : Z, pretty k +:+ nl) <$> seqZ 1 (Z.of_nat n).

Definition document (bodies : list string) : string :=
  join_all (zip_with String.append (index_lines (length bodies)) bodies).

(** What follows the index line in the block of a segment: the two
    timestamps, the text and the blank line. *)
Definition segment_body {F : Type} `{PyFloat F} (seg : segment F)
    : result string :=
  start ← format_time (seg_start seg);
  end_ ← format_time (seg_end seg);
  Ok (start +:+ " --> " +:+ end_ +:+ nl +:+ seg_text seg +:+ nl +:+ nl).

(** A computation that keeps every record already in the log. *)
Definition grows {E A : Type} (m : Run.M (E:=E) A) : Prop :=
  ∀ w : world E, log w `prefix_of` log (m w).2.

(** The names [run] derives from the path of a video: its base name
    without extension, and the paths of the audio and subtitle files. *)
Section Names.
Context {F E : Type} `{Platform F E}.
Variable self : pipeline.

Definition base_name_of (video : string) : string :=
  (path_splitext (path_basename video)).1.

Definition wav_of (video : string) : string :=
  path_join (output_dir self) (base_name_of video +:+ ".wav").

Definition srt_of (video : string) : string :=
  path_join (output_dir self) (base_name_of video +:+ ".srt").

End Names.

(** The world after a call that changed the state outside the program. *)
Definition with_ext {E : Type} (e : E) (w : world E) : world E :=
  World (files w) (log w) e.

(** The name [f] ends in [ext], letter case apart. *)
Definition ends_with_ignoring_case (f ext : string) : Prop :=
  ∃ stem tail : string, f = stem +:+ tail ∧ lower tail = lower ext.

(** ** A second scripted platform *)

(** A platform on which each stage can be seen to fail: the directory
    [in] lists five videos and a text file, [docs] lists no video,
    [clips] lists two videos and any other directory does not exist; the
    media tool always succeeds and counts its calls; the model fails on
    the audio of [a], answers without the key ["segments"] on the audio of
    [d], and otherwise hears one segment that ends at the number of calls
    of the media tool so far; the subtitle file of [b] cannot be opened. *)
Module Faulty.

Definition platform : Platform xreal nat := {|
  path_join := λ a b, a +:+ "/" +:+ b;
  path_basename := Demo.basename;
  path_splitext := Demo.splitext;
  os_listdir := λ dir _,
    if bool_decide (dir = "in")
    then Ok ["a.mp4"; "b.mkv"; "c.avi"; "notes.txt"; "c.mov"; "d.mp4"]
    else if bool_decide (dir = "docs") then Ok ["notes.txt"; "clip.mp3"]
    else if bool_decide (dir = "clips") then Ok ["c.avi"; "e.MP4"]
    else Raise (OSError "[Errno 2] No such file or directory");
  os_open_w := λ path _,
    if bool_decide (path = "out/b.srt")
    then Some (OSError "[Errno 13] Permission denied")
    else None;
  ffmpeg_run := λ _ _ calls, (None, S calls);
  model_transcribe := λ audio calls,
    (if bool_decide (audio = "out/a.wav")
     then Raise (ExternalError "model failure")
     else if bool_decide (audio = "out/d.wav") then Ok None
     else Ok (Some [RawSegment 0 (Fin 0) (Fin (inject_Z (Z.of_nat calls))) "c"]),
     calls)
|}.

Definition self : pipeline := Pipeline "in" "out".

End Faulty.


(** A platform on which a time does not format: one video, and a model
    that hears three segments, the second of which never ends (its end is
    an infinity); times are binary64 numbers. *)
Module Endless.

Definition heard : list (raw_segment spec_float) :=
  [RawSegment 0 (B64.whole 0) (B64.whole 1) "Hi";
   RawSegment 1 (B64.whole 1) (S754_infinity false) "lost";
   RawSegment 2 (B64.whole 2) (B64.whole 3) "never"].

Definition platform : Platform spec_float nat := {|
  path_join := λ a b, a +:+ "/" +:+ b;
  path_basename := Demo.basename;
  path_splitext := Demo.splitext;
  os_listdir := λ _ _, Ok ["e.mp4"];
  os_open_w := λ _ _, None;
  ffmpeg_run := λ _ _ calls, (None, S calls);
  model_transcribe := λ _ calls, (Ok (Some heard), calls)
|}.

End Endless.

(** A computation that changes no text file outside the paths in [P] and
    removes none. *)
Definition touches_only {E A : Type} (P : string → Prop)
    (m : Run.M (E:=E) A) : Prop :=
  ∀ w : world E,
    (∀ p : string, ¬ P p → files (m w).2 !! p = files w !! p) ∧
    (∀ p : string, is_Some (files w !! p) → is_Some (files (m w).2 !! p)).


(** * Properties *)

(** ** Rational arithmetic behind [format_time] *)

Section ExactArithmetic.
Local Open Scope Q_scope.

Lemma inject_Z_pos (n : Z) : (0 < n)%Z → 0 < inject_Z n.
Proof. intros Hn. change 0 with (inject_Z 0). by rewrite <- Zlt_Qlt. Qed.

(** Floor division leaves a remainder in [[0, n)]. *)
Lemma floor_rem_range (a : Q) (n : Z) :
  (0 < n)%Z →
  0 <= a - inject_Z n * inject_Z (Qfloor (a / inject_Z n)) < inject_Z n.
Proof.
  intros Hn. pose proof (inject_Z_pos n Hn) as Hq.
  pose proof (Qfloor_le (a / inject_Z n)) as Hlo.
  pose proof (Qlt_floor (a / inject_Z n)) as Hhi.
  rewrite inject_Z_plus in Hhi. change (inject_Z 1) with 1 in Hhi.
  assert (Ha : a == inject_Z n * (a / inject_Z n)).
  { field. intros Hz. rewrite Hz in Hq. exact (Qlt_irrefl 0 Hq). }
  set (d := a / inject_Z n) in *.
  set (f := inject_Z (Qfloor d)) in *.
  split; rewrite Ha at 1; nra.
Qed.

Lemma floor_frac_range (a : Q) : 0 <= a - inject_Z (Qfloor a) < 1.
Proof.
  pose proof (Qfloor_le a). pose proof (Qlt_floor a) as Hhi.
  rewrite inject_Z_plus in Hhi. change (inject_Z 1) with 1 in Hhi.
  split; lra.
Qed.

(** An integer between two rational bounds. *)
Lemma floor_between (a : Q) (lo hi : Z) :
  inject_Z lo <= a → a < inject_Z hi → (lo ≤ Qfloor a < hi)%Z.
Proof.
  intros Hlo Hhi. split.
  - rewrite <- (Qfloor_Z lo). by apply Qfloor_resp_le.
  - rewrite Zlt_Qlt. eapply Qle_lt_trans; [apply Qfloor_le | done].
Qed.

(** [round] returns an integer within one half of its argument. *)
Lemma Qround_half_even_near (q : Q) :
  Qabs (inject_Z (Qround_half_even q) - q) <= 1 # 2.
Proof.
  unfold Qround_half_even. pose proof (floor_frac_range q) as [Hlo Hhi].
  set (f := Qfloor q) in *. apply Qabs_Qle_condition.
  destruct (Qcompare_spec (q - inject_Z f) (1 # 2)) as [He|Hl|Hg].
  - destruct (Z.even f); rewrite ?inject_Z_plus;
      change (inject_Z 1) with 1; split; lra.
  - split; lra.
  - rewrite inject_Z_plus. change (inject_Z 1) with 1. split; lra.
Qed.

(** On a tie, [round] returns the even neighbour. *)
Lemma Qround_half_even_tie (q : Q) :
  q - inject_Z (Qfloor q) == 1 # 2 → Z.even (Qround_half_even q) = true.
Proof.
  intros He. unfold Qround_half_even.
  apply Qeq_alt in He. rewrite He.
  destruct (Z.even (Qfloor q)) eqn:Hev; [done|].
  rewrite Z.even_add, Hev. done.
Qed.

Lemma Qround_half_even_comp (p q : Q) :
  p == q → Qround_half_even p = Qround_half_even q.
Proof.
  intros Heq. unfold Qround_half_even.
  rewrite (Qfloor_comp _ _ Heq).
  assert (Hc : (p - inject_Z (Qfloor q) ?= 1 # 2)
             = (q - inject_Z (Qfloor q) ?= 1 # 2)) by (by rewrite Heq).
  by rewrite Hc.
Qed.

Lemma Qround_half_even_between (q : Q) (lo hi : Z) :
  inject_Z lo <= q → q <= inject_Z hi →
  (lo ≤ Qround_half_even q ≤ hi)%Z.
Proof.
  intros Hlo Hhi.
  pose proof (Qround_half_even_near q) as Hn.
  apply Qabs_Qle_condition in Hn as [Hn1 Hn2].
  set (r := Qround_half_even q) in *.
  assert (H1 : inject_Z lo < inject_Z (r + 1)).
  { rewrite inject_Z_plus. change (inject_Z 1) with 1. lra. }
  assert (H2 : inject_Z r < inject_Z (hi + 1)).
  { rewrite inject_Z_plus. change (inject_Z 1) with 1. lra. }
  rewrite <- Zlt_Qlt in H1, H2. lia.
Qed.

(** [round] is monotone. *)
Lemma Qround_half_even_mono (p q : Q) :
  p <= q → (Qround_half_even p ≤ Qround_half_even q)%Z.
Proof.
  intros Hpq.
  destruct (Qle_lt_or_eq _ _ Hpq) as [Hlt|Heq];
    [|by rewrite (Qround_half_even_comp _ _ Heq)].
  pose proof (Qround_half_even_near p) as Hp.
  pose proof (Qround_half_even_near q) as Hq.
  apply Qabs_Qle_condition in Hp as [Hp1 Hp2].
  apply Qabs_Qle_condition in Hq as [Hq1 Hq2].
  set (a := Qround_half_even p) in *. set (b := Qround_half_even q) in *.
  assert (Hab : inject_Z a < inject_Z (b + 1)).
  { rewrite inject_Z_plus. change (inject_Z 1) with 1. lra. }
  rewrite <- Zlt_Qlt in Hab. lia.
Qed.

(** From one half below 1000 on, [round] gives 1000 or more. *)
Lemma Qround_half_even_carry (p : Q) :
  inject_Z 1999 * (1 # 2) <= p → (1000 ≤ Qround_half_even p)%Z.
Proof.
  intros Hp. change 1000%Z with (Qround_half_even (inject_Z 1999 * (1 # 2))).
  by apply Qround_half_even_mono.
Qed.

End ExactArithmetic.

(** ** [format_time] on finite reals *)

Section FormatTimeExact.
Local Open Scope Q_scope.

(** Quotient and remainder are determined by the dividend. *)
Lemma floor_divmod_unique a n q1 q2 r1 r2 :
  (0 < n)%Z → floor_divmod a n q1 r1 → floor_divmod a n q2 r2 →
  q1 = q2 ∧ r1 == r2.
Proof.
  intros Hn [He1 [Hl1 Hh1]] [He2 [Hl2 Hh2]].
  pose proof (inject_Z_pos n Hn) as Hq.
  assert (Hq12 : q1 = q2).
  { destruct (Z.lt_trichotomy q1 q2) as [Hlt|[Heq|Hgt]]; [exfalso|done|exfalso].
    - assert (Hc : inject_Z q1 + 1 <= inject_Z q2).
      { change 1 with (inject_Z 1). rewrite <- inject_Z_plus, <- Zle_Qle. lia. }
      nra.
    - assert (Hc : inject_Z q2 + 1 <= inject_Z q1).
      { change 1 with (inject_Z 1). rewrite <- inject_Z_plus, <- Zle_Qle. lia. }
      nra. }
  split; [done|]. subst q2. lra.
Qed.

Lemma floor_divmod_floor (a : Q) (n : Z) :
  (0 < n)%Z →
  floor_divmod a n (Qfloor (a / inject_Z n))
               (a - inject_Z n * inject_Z (Qfloor (a / inject_Z n))).
Proof.
  intros Hn. split; [ring | by apply floor_rem_range].
Qed.

(** What the eleven lines of [format_time] compute on a finite real. *)
Lemma format_time_Fin (s : Q) :
  let hours := Qfloor (s / 3600) in
  let r1 := s - 3600 * inject_Z hours in
  let minutes := Qfloor (r1 / 60) in
  let r2 := r1 - 60 * inject_Z minutes in
  let seconds := Qfloor r2 in
  let milliseconds := Qround_half_even ((r2 - inject_Z seconds) * 1000) in
  format_time (Fin s) = Ok (timestamp hours minutes seconds milliseconds).
Proof. reflexivity. Qed.

Lemma format_time_decomposes (s : Q) :
  ∃ h m sec ms : Z,
    format_time (Fin s) = Ok (timestamp h m sec ms) ∧ decomposes s h m sec ms.
Proof.
  eexists _, _, _, _. split; [apply format_time_Fin|].
  set (r1 := s - 3600 * inject_Z (Qfloor (s / 3600))).
  set (r2 := r1 - 60 * inject_Z (Qfloor (r1 / 60))).
  exists r1, r2, (r2 - inject_Z (Qfloor r2)). split_and!.
  - apply (floor_divmod_floor s 3600). lia.
  - apply (floor_divmod_floor r1 60). lia.
  - split; [ring | apply floor_frac_range].
  - apply Qround_half_even_near.
Qed.

(** The ranges of the fields of a decomposition. *)
Lemma decomposes_ranges (s : Q) (h m sec ms : Z) :
  decomposes s h m sec ms →
  (0 ≤ m ≤ 59)%Z ∧ (0 ≤ sec ≤ 59)%Z ∧ (0 ≤ ms ≤ 1000)%Z ∧
  (0 <= s → (0 ≤ h)%Z).
Proof.
  intros (r1 & r2 & frac & [E1 [L1 H1]] & [E2 [L2 H2]] & [E3 [L3 H3]] & Hms).
  change (inject_Z 3600) with 3600 in *. change (inject_Z 60) with 60 in *.
  change (inject_Z 1) with 1 in *.
  assert (Hm : (-1 < m < 60)%Z).
  { rewrite (Zlt_Qlt (-1) m), (Zlt_Qlt m 60).
    change (inject_Z (-1)) with (-1). change (inject_Z 60) with 60.
    split; lra. }
  assert (Hsec : (-1 < sec < 60)%Z).
  { rewrite (Zlt_Qlt (-1) sec), (Zlt_Qlt sec 60).
    change (inject_Z (-1)) with (-1). change (inject_Z 60) with 60.
    split; lra. }
  assert (Hmsr : (0 ≤ ms ≤ 1000)%Z).
  { apply Qabs_Qle_condition in Hms as [Hm1 Hm2].
    assert (G1 : inject_Z (-1) < inject_Z ms) by (change (inject_Z (-1)) with (-1); lra).
    assert (G2 : inject_Z ms < inject_Z 1001) by (change (inject_Z 1001) with 1001; lra).
    rewrite <- Zlt_Qlt in G1, G2. lia. }
  split_and!; try lia.
  intros Hs.
  assert (G : inject_Z (-1) < inject_Z h) by (change (inject_Z (-1)) with (-1); lra).
  rewrite <- Zlt_Qlt in G. lia.
Qed.

(** Read back as seconds, the fields are within half a millisecond of
    the input. *)
Lemma decomposes_round_trip (s : Q) (h m sec ms : Z) :
  decomposes s h m sec ms →
  Qabs (inject_Z h * 3600 + inject_Z m * 60 + inject_Z sec
        + inject_Z ms / 1000 - s) <= 1 # 2000.
Proof.
  intros (r1 & r2 & frac & [E1 _] & [E2 _] & [E3 _] & Hms).
  change (inject_Z 3600) with 3600 in *. change (inject_Z 60) with 60 in *.
  change (inject_Z 1) with 1 in *.
  apply Qabs_Qle_condition in Hms as [Hm1 Hm2].
  apply Qabs_Qle_condition.
  assert (Hd : inject_Z ms / 1000 == inject_Z ms * (1 # 1000)) by (field).
  rewrite Hd. split; lra.
Qed.

(** The floor of a quotient by a positive integer is the quotient of the
    floor. *)
Lemma Qfloor_div_Z (a : Q) (n : Z) :
  (0 < n)%Z → Qfloor (a / inject_Z n) = (Qfloor a / n)%Z.
Proof.
  intros Hn. pose proof (inject_Z_pos n Hn) as Hq.
  pose proof (floor_frac_range a) as [Hlo Hhi].
  set (f := Qfloor a) in *.
  pose proof (Z.div_mod f n ltac:(lia)) as Hdm.
  pose proof (Z.mod_pos_bound f n Hn) as Hr.
  assert (H1 : inject_Z (n * (f / n)) <= inject_Z f) by (rewrite <- Zle_Qle; lia).
  assert (H2 : inject_Z (f + 1) <= inject_Z (n * (f / n + 1)))
    by (rewrite <- Zle_Qle; lia).
  rewrite inject_Z_mult in H1. rewrite inject_Z_mult, inject_Z_plus in H2.
  rewrite inject_Z_plus in H2. change (inject_Z 1) with 1 in H2.
  enough (f / n ≤ Qfloor (a / inject_Z n) < f / n + 1)%Z by lia.
  apply floor_between.
  - apply Qle_shift_div_l; [done|].
    set (x := inject_Z (f / n)) in *. set (y := inject_Z n) in *. lra.
  - apply Qlt_shift_div_r; [done|]. rewrite inject_Z_plus.
    change (inject_Z 1) with 1.
    set (x := inject_Z (f / n)) in *. set (y := inject_Z n) in *. lra.
Qed.

(** Subtracting an integer shifts the floor. *)
Lemma Qfloor_shift (a b : Q) (k : Z) :
  b == a - inject_Z k → Qfloor b = (Qfloor a - k)%Z.
Proof.
  intros Hb. pose proof (floor_frac_range a) as [Hlo Hhi].
  set (f := Qfloor a) in *.
  enough (f - k ≤ Qfloor b < f - k + 1)%Z by lia.
  apply floor_between; rewrite ?inject_Z_plus; unfold Z.sub;
    rewrite inject_Z_plus, inject_Z_opp; change (inject_Z 1) with 1; lra.
Qed.

(** The four fields, from the floor of [s] by integer division and from
    the fractional part of [s]. *)
Lemma format_time_Fin_floor (s : Q) :
  let f := Qfloor s in
  format_time (Fin s)
  = Ok (timestamp (f / 3600) (f mod 3600 / 60) (f mod 60)
          (Qround_half_even ((s - inject_Z f) * 1000))).
Proof.
  intros f. rewrite format_time_Fin. cbv zeta.
  change (Qfloor (s / 3600)) with (Qfloor (s / inject_Z 3600)).
  rewrite (Qfloor_div_Z s 3600) by lia. fold f.
  set (h := (f / 3600)%Z).
  set (r1 := s - 3600 * inject_Z h).
  assert (Hr1 : Qfloor r1 = (f mod 3600)%Z).
  { rewrite (Qfloor_shift s r1 (3600 * h)).
    - fold f. unfold h. rewrite Z.mod_eq by lia. done.
    - unfold r1. rewrite inject_Z_mult. reflexivity. }
  change (Qfloor (r1 / 60)) with (Qfloor (r1 / inject_Z 60)).
  rewrite (Qfloor_div_Z r1 60) by lia. rewrite Hr1.
  set (m := (f mod 3600 / 60)%Z).
  set (r2 := r1 - 60 * inject_Z m).
  assert (H60 : ((f mod 3600) mod 60 = f mod 60)%Z).
  { apply Z.mod_mod_divide. by exists 60%Z. }
  assert (Hr2 : Qfloor r2 = (f mod 60)%Z).
  { rewrite (Qfloor_shift r1 r2 (60 * m)).
    - rewrite Hr1. unfold m. rewrite <- Z.mod_eq by lia. done.
    - unfold r2. rewrite inject_Z_mult. reflexivity. }
  rewrite Hr2.
  rewrite (Qround_half_even_comp ((r2 - inject_Z (f mod 60)) * 1000)
             ((s - inject_Z f) * 1000)); [done|].
  assert (Hf : f = (3600 * h + 60 * m + f mod 60)%Z).
  { unfold m, h.
    pose proof (Z.div_mod f 3600 ltac:(lia)).
    pose proof (Z.div_mod (f mod 3600) 60 ltac:(lia)). lia. }
  rewrite Hf at 2. unfold r2, r1.
  rewrite !inject_Z_plus, !inject_Z_mult.
  change (inject_Z 3600) with 3600. change (inject_Z 60) with 60. ring.
Qed.


End FormatTimeExact.

(** ** Zero-padded fields *)

Section Fields.
Local Open Scope Z_scope.

(** A property of every integer in [[0, n)], checked case by case. *)
Lemma below_by_cases (P : Z → Prop) `{∀ z, Decision (P z)} (n : Z) :
  bool_decide (Forall P (seqZ 0 n)) = true → ∀ z, 0 ≤ z < n → P z.
Proof.
  intros Hall z Hz. apply bool_decide_eq_true_1 in Hall.
  rewrite Forall_forall in Hall. apply Hall, elem_of_seqZ. lia.
Qed.

Lemma digit_char_is_digit (d : Z) : 0 ≤ d < 10 → is_digit (digit_char d) = true.
Proof.
  revert d. apply (below_by_cases (λ d, is_digit (digit_char d) = true)).
  by vm_compute.
Qed.

Lemma format_d_two_digits (z : Z) : 0 ≤ z < 100 → format_d 2 z = two_digits z.
Proof.
  revert z. apply (below_by_cases (λ z, format_d 2 z = two_digits z)).
  by vm_compute.
Qed.

Lemma format_d_three_digits (z : Z) :
  0 ≤ z < 1000 →
  format_d 3 z = String (digit_char (z / 100))
                   (String (digit_char (z / 10 mod 10))
                      (String (digit_char (z mod 10)) EmptyString)).
Proof.
  revert z.
  apply (below_by_cases (λ z, format_d 3 z = String (digit_char (z / 100))
                   (String (digit_char (z / 10 mod 10))
                      (String (digit_char (z mod 10)) EmptyString)))).
  by vm_compute.
Qed.

(** Below the carry, a timestamp has the shape [HH:MM:SS,mmm]. *)
Lemma timestamp_matches_pattern (h m sec ms : Z) :
  0 ≤ h < 100 → 0 ≤ m < 100 → 0 ≤ sec < 100 → 0 ≤ ms < 1000 →
  matches_clock_pattern (timestamp h m sec ms) = true.
Proof.
  intros Hh Hm Hs Hms. unfold timestamp.
  rewrite !format_d_two_digits, format_d_three_digits by done.
  cbv -[digit_char is_digit Z.div Z.modulo].
  rewrite !digit_char_is_digit; [done|..];
    first [ by apply Z.mod_pos_bound
          | split; [apply Z.div_pos; lia | apply Z.div_lt_upper_bound; lia] ].
Qed.

(** With a whole second of milliseconds the timestamp has thirteen
    characters and leaves the pattern. *)
Lemma timestamp_carry_breaks_pattern (h m sec : Z) :
  0 ≤ h < 100 → 0 ≤ m < 100 → 0 ≤ sec < 100 →
  matches_clock_pattern (timestamp h m sec 1000) = false.
Proof.
  intros Hh Hm Hs. unfold timestamp.
  rewrite !format_d_two_digits by done. reflexivity.
Qed.

End Fields.

(** ** Binary64: rounding keeps small numbers finite *)

Section Binary64.
Local Open Scope Z_scope.

Lemma digits2_pos_size (p : positive) : digits2_pos p = Pos.size p.
Proof. induction p as [p IH|p IH|]; cbn; by rewrite ?IH. Qed.

Lemma Zdigits2_nonneg (m : Z) : 0 ≤ Zdigits2 m.
Proof. destruct m; cbn; lia. Qed.

Lemma Zdigits2_le_iff (m n : Z) :
  0 ≤ m → 0 ≤ n → Zdigits2 m ≤ n ↔ m < 2 ^ n.
Proof.
  intros Hm Hn. destruct m as [|p|p]; [|clear Hm|lia].
  - cbn. split; [intros _; by apply Z.pow_pos_nonneg | done].
  - cbn [Zdigits2]. rewrite digits2_pos_size.
    pose proof (Pos.size_gt p) as Hgt. pose proof (Pos.size_le p) as Hle.
    apply Pos2Z.pos_lt_pos in Hgt. apply Pos2Z.pos_le_pos in Hle.
    rewrite Pos2Z.inj_pow in Hgt, Hle. change (Z.pos p~0) with (2 * Z.pos p) in Hle.
    set (s := Z.pos (Pos.size p)) in *. assert (0 < s) by (unfold s; lia).
    split; intros Hc.
    + eapply Z.lt_le_trans; [exact Hgt|]. by apply Z.pow_le_mono_r.
    + destruct (Z.le_gt_cases s n) as [|Hlt]; [done|exfalso].
      assert (2 ^ (n + 1) ≤ 2 ^ s) by (apply Z.pow_le_mono_r; lia).
      assert (2 ^ (n + 1) = 2 * 2 ^ n) by (rewrite Z.pow_add_r; lia). lia.
Qed.

Lemma Zdigits2_succ (m : Z) : 0 ≤ m → Zdigits2 (m + 1) ≤ Zdigits2 m + 1.
Proof.
  intros Hm. pose proof (Zdigits2_nonneg m).
  apply Zdigits2_le_iff; [lia..|].
  assert (m < 2 ^ Zdigits2 m) by (by apply Zdigits2_le_iff).
  assert (2 ^ (Zdigits2 m + 1) = 2 * 2 ^ Zdigits2 m) by (rewrite Z.pow_add_r; lia).
  lia.
Qed.

Lemma Zdigits2_mono (a b : Z) : 0 ≤ a ≤ b → Zdigits2 a ≤ Zdigits2 b.
Proof.
  intros Hab. pose proof (Zdigits2_nonneg b).
  apply Zdigits2_le_iff; [lia..|].
  assert (b < 2 ^ Zdigits2 b) by (apply Zdigits2_le_iff; lia). lia.
Qed.

Lemma Zdigits2_div_pow2 (m n : Z) :
  0 ≤ m → 0 ≤ n → Zdigits2 (m / 2 ^ n) ≤ Z.max 0 (Zdigits2 m - n).
Proof.
  intros Hm Hn. pose proof (Zdigits2_nonneg m).
  assert (0 < 2 ^ n) by (by apply Z.pow_pos_nonneg).
  assert (0 ≤ m / 2 ^ n) by (by apply Z.div_pos).
  apply Zdigits2_le_iff; [lia..|].
  assert (Hlt : m < 2 ^ Zdigits2 m) by (by apply Zdigits2_le_iff).
  destruct (Z.le_gt_cases n (Zdigits2 m)).
  - rewrite Z.max_r by lia. apply Z.div_lt_upper_bound; [done|].
    rewrite <- Z.pow_add_r by lia. by replace (n + (Zdigits2 m - n)) with (Zdigits2 m) by lia.
  - rewrite Z.max_l by lia. rewrite Z.div_small; [done|].
    split; [done|]. eapply Z.lt_le_trans; [exact Hlt|]. apply Z.pow_le_mono_r; lia.
Qed.

Lemma Zdigits2_mul_pow2 (m n : Z) :
  0 < m → 0 ≤ n → Zdigits2 (m * 2 ^ n) = Zdigits2 m + n.
Proof.
  intros Hm Hn.
  assert (0 < 2 ^ n) by (by apply Z.pow_pos_nonneg).
  pose proof (Zdigits2_nonneg m).
  apply Z.le_antisymm.
  - apply Zdigits2_le_iff; [nia|lia|].
    assert (m < 2 ^ Zdigits2 m) by (apply Zdigits2_le_iff; lia).
    rewrite Z.pow_add_r by lia. nia.
  - destruct (Z.le_gt_cases (Zdigits2 m + n) (Zdigits2 (m * 2 ^ n))) as [|Hlt]; [done|exfalso].
    pose proof (Zdigits2_nonneg (m * 2 ^ n)).
    assert (Hd : Zdigits2 (m * 2 ^ n) ≤ Zdigits2 m + n - 1) by lia.
    apply Zdigits2_le_iff in Hd; [|nia|].
    2:{ destruct m; cbn in *; lia. }
    assert (Hm1 : ¬ (Zdigits2 m ≤ Zdigits2 m - 1)) by lia.
    apply Hm1. apply Zdigits2_le_iff; [lia| destruct m; cbn in *; lia |].
    replace (Zdigits2 m + n - 1) with ((Zdigits2 m - 1) + n) in Hd by lia.
    rewrite Z.pow_add_r in Hd; [nia| destruct m; cbn in *; lia | lia].
Qed.

(** shifting *)
Lemma shr_1_m (mrs : shr_record) :
  0 ≤ shr_m mrs → shr_m (shr_1 mrs) = shr_m mrs / 2.
Proof.
  destruct mrs as [m r s]. cbn [shr_m]. intros Hm.
  destruct m as [|[p|p|]|p]; cbn [shr_1 shr_m]; try lia;
    first [ apply Z.div_unique with 1; lia | apply Z.div_unique with 0; lia ].
Qed.

Lemma iter_pos_nat {A} (f : A → A) (p : positive) (x : A) :
  SpecFloat.iter_pos f p x = Nat.iter (Pos.to_nat p) f x.
Proof.
  revert x. induction p as [p IH|p IH|]; intros x; cbn [SpecFloat.iter_pos].
  - rewrite !IH, Pos2Nat.inj_xI.
    replace (S (2 * Pos.to_nat p))%nat
      with (Pos.to_nat p + (Pos.to_nat p + 1))%nat by lia.
    by rewrite !Nat.iter_add.
  - rewrite !IH, Pos2Nat.inj_xO.
    replace (2 * Pos.to_nat p)%nat with (Pos.to_nat p + Pos.to_nat p)%nat by lia.
    by rewrite Nat.iter_add.
  - done.
Qed.

Lemma shr_iter_m (n : nat) (mrs : shr_record) :
  0 ≤ shr_m mrs →
  shr_m (Nat.iter n shr_1 mrs) = shr_m mrs / 2 ^ Z.of_nat n.
Proof.
  intros Hm. induction n as [|n IH].
  - cbn. by rewrite Z.div_1_r.
  - rewrite Nat.iter_succ, shr_1_m.
    + rewrite IH, Nat2Z.inj_succ, Z.pow_succ_r by lia.
      rewrite Z.div_div by (try apply Z.pow_pos_nonneg; lia).
      f_equal. lia.
    + rewrite IH. apply Z.div_pos; [done|]. apply Z.pow_pos_nonneg; lia.
Qed.

(** [shr]: the mantissa is divided, the exponent raised. *)
Lemma shr_spec (mrs : shr_record) (e n : Z) :
  0 ≤ shr_m mrs →
  shr_m (shr mrs e n).1 = shr_m mrs / 2 ^ Z.max 0 n ∧
  (shr mrs e n).2 = e + Z.max 0 n.
Proof.
  intros Hm. destruct n as [|p|p]; cbn [shr fst snd].
  - cbn. rewrite Z.div_1_r. split; [done|lia].
  - rewrite iter_pos_nat, shr_iter_m by done.
    rewrite positive_nat_Z. rewrite Z.max_r by lia. done.
  - cbn. rewrite Z.div_1_r. split; [done|lia].
Qed.

Lemma shr_record_of_loc_m (m : Z) (l : location) :
  shr_m (shr_record_of_loc m l) = m.
Proof. by destruct l as [|[]]. Qed.

Lemma round_nearest_even_range (m : Z) (l : location) :
  m ≤ round_nearest_even m l ≤ m + 1.
Proof. destruct l as [|[]]; cbn; try destruct (Z.even m); lia. Qed.

Lemma fexp_b64 (e : Z) : fexp 53 1024 e = Z.max (e - 53) (-1074).
Proof. reflexivity. Qed.

Lemma binary_round_aux_below (sx : bool) (mx ex : Z) (lx : location) (K : Z) :
  0 ≤ mx → Zdigits2 mx + ex ≤ K → ex ≤ 971 → -1074 ≤ K ≤ 1023 →
  b64_below (K + 1) (binary_round_aux 53 1024 sx mx ex lx) ∧
  B64.sign (binary_round_aux 53 1024 sx mx ex lx) = sx.
Proof.
  intros Hmx HT Hex HK. unfold binary_round_aux, shr_fexp.
  set (n1 := fexp 53 1024 (Zdigits2 mx + ex) - ex).
  assert (Hn1 : n1 = Z.max (Zdigits2 mx + ex - 53) (-1074) - ex) by done.
  clearbody n1.
  pose proof (shr_spec (shr_record_of_loc mx lx) ex n1) as S1.
  rewrite shr_record_of_loc_m in S1. specialize (S1 Hmx).
  destruct (shr (shr_record_of_loc mx lx) ex n1) as [mrs' e'].
  cbn [fst snd] in S1. destruct S1 as [Sm1 Se1].
  set (m1 := round_nearest_even (shr_m mrs') (loc_of_shr_record mrs')).
  pose proof (round_nearest_even_range (shr_m mrs') (loc_of_shr_record mrs')) as Hr.
  fold m1 in Hr.
  assert (H2n1 : 0 < 2 ^ Z.max 0 n1) by (apply Z.pow_pos_nonneg; lia).
  assert (Hm' : 0 ≤ shr_m mrs') by (rewrite Sm1; by apply Z.div_pos).
  assert (Hd' : Zdigits2 (shr_m mrs') ≤ Z.max 0 (Zdigits2 mx - Z.max 0 n1))
    by (rewrite Sm1; apply Zdigits2_div_pow2; lia).
  assert (Hd1 : Zdigits2 m1 ≤ Zdigits2 (shr_m mrs') + 1).
  { etrans; [apply (Zdigits2_mono m1 (shr_m mrs' + 1)); lia|].
    by apply Zdigits2_succ. }
  assert (Hm1 : 0 ≤ m1) by lia.
  pose proof (Zdigits2_nonneg mx) as Hdx.
  pose proof (Zdigits2_nonneg m1) as Hdm1.
  set (n2 := fexp 53 1024 (Zdigits2 m1 + e') - e').
  assert (Hn2 : n2 = Z.max (Zdigits2 m1 + e' - 53) (-1074) - e') by done.
  clearbody n2.
  pose proof (shr_spec (shr_record_of_loc m1 loc_Exact) e' n2) as S2.
  rewrite shr_record_of_loc_m in S2. specialize (S2 Hm1).
  destruct (shr (shr_record_of_loc m1 loc_Exact) e' n2) as [mrs'' e''].
  cbn [fst snd] in S2. destruct S2 as [Sm2 Se2].
  assert (H2n2 : 0 < 2 ^ Z.max 0 n2) by (apply Z.pow_pos_nonneg; lia).
  assert (Hm'' : 0 ≤ shr_m mrs'') by (rewrite Sm2; by apply Z.div_pos).
  assert (Hd'' : Zdigits2 (shr_m mrs'') ≤ Z.max 0 (Zdigits2 m1 - Z.max 0 n2))
    by (rewrite Sm2; apply Zdigits2_div_pow2; lia).
  assert (Hex' : ex ≤ K).
  { destruct mx as [|p|p]; [cbn in HT; lia| |lia].
    assert (0 < Zdigits2 (Z.pos p)) by (cbn; lia). lia. }
  destruct (shr_m mrs'') as [|m|m] eqn:Em; [by cbn| |lia].
  replace (e'' <=? 1024 - 53) with true by (symmetry; apply Z.leb_le; lia).
  split; [|done]. cbn [b64_below]. lia.
Qed.

Lemma iter_xO_pow2 (m d : positive) :
  Z.pos (Pos.iter xO m d) = Z.pos m * 2 ^ Z.pos d.
Proof.
  induction d as [|d IH] using Pos.peano_ind.
  - cbn [Pos.iter]. lia.
  - rewrite Pos.iter_succ, Pos2Z.inj_xO, IH, Pos2Z.inj_succ.
    rewrite Z.pow_succ_r by lia. lia.
Qed.

Lemma shl_align_spec (mx : positive) (ex ex' : Z) :
  let '(mz, ez) := shl_align mx ex ex' in
  ez = Z.min ex ex' ∧ Z.pos mz = Z.pos mx * 2 ^ (ex - ez) ∧
  Zdigits2 (Z.pos mz) + ez = Zdigits2 (Z.pos mx) + ex.
Proof.
  unfold shl_align. destruct (ex' - ex) as [|d|d] eqn:Ed.
  - replace (ex - ex) with 0 by lia. split_and!; lia.
  - replace (ex - ex) with 0 by lia. split_and!; lia.
  - assert (Hd : ex - ex' = Z.pos d) by lia. rewrite Hd.
    split_and!; [lia|apply iter_xO_pow2|].
    rewrite iter_xO_pow2, Zdigits2_mul_pow2 by lia. lia.
Qed.

Lemma binary_round_below (sx : bool) (mx : positive) (ex K : Z) :
  Zdigits2 (Z.pos mx) + ex ≤ K → -1074 ≤ K ≤ 1023 →
  b64_below (K + 1) (binary_round 53 1024 sx mx ex) ∧
  B64.sign (binary_round 53 1024 sx mx ex) = sx.
Proof.
  intros HT HK. unfold binary_round.
  pose proof (shl_align_spec mx ex (fexp 53 1024 (Z.pos (digits2_pos mx) + ex)))
    as Hs.
  destruct (shl_align mx ex _) as [mz ez]. destruct Hs as (Hez & _ & Hdz).
  rewrite fexp_b64 in Hez. cbn [Zdigits2] in *.
  apply binary_round_aux_below; cbn [Zdigits2]; lia.
Qed.

Lemma binary_normalize_below (m e : Z) (szero : bool) (K : Z) :
  Zdigits2 m + e ≤ K → -1074 ≤ K ≤ 1023 →
  b64_below (K + 1) (binary_normalize 53 1024 m e szero).
Proof.
  intros HT HK. destruct m as [|p|p]; [done|..]; cbn [binary_normalize];
    by apply binary_round_below.
Qed.

Lemma binary_normalize_sign (m e : Z) (szero : bool) (K : Z) :
  0 ≤ m → Zdigits2 m + e ≤ K → -1074 ≤ K ≤ 1023 →
  B64.sign (binary_normalize 53 1024 m e szero) = false ∨
  B64.is_zero (binary_normalize 53 1024 m e szero) = true.
Proof.
  intros Hm HT HK. destruct m as [|p|p]; [by right| |lia].
  left. cbn [binary_normalize]. by apply (binary_round_below false p e K).
Qed.

Lemma Zdigits2_abs (z : Z) : Zdigits2 (Z.abs z) = Zdigits2 z.
Proof. by destruct z. Qed.

Lemma Zdigits2_pos (p : positive) : 0 < Zdigits2 (Z.pos p).
Proof. cbn. lia. Qed.

Lemma Zdigits2_lower (b : Z) : 0 < b → 2 ^ (Zdigits2 b - 1) ≤ b.
Proof.
  intros Hb. destruct b as [|p|p]; [lia| |lia].
  pose proof (Zdigits2_pos p).
  destruct (Z.le_gt_cases (2 ^ (Zdigits2 (Z.pos p) - 1)) (Z.pos p)) as [|Hlt];
    [done|exfalso].
  apply Zdigits2_le_iff in Hlt; lia.
Qed.

Lemma Zdigits2_div (a b : Z) :
  0 ≤ a → 0 < b → Zdigits2 (a / b) ≤ Z.max 0 (Zdigits2 a - Zdigits2 b + 1).
Proof.
  intros Ha Hb. pose proof (Zdigits2_lower b Hb) as Hlo.
  assert (0 < Zdigits2 b) by (destruct b; cbn; lia).
  assert (0 < 2 ^ (Zdigits2 b - 1)) by (apply Z.pow_pos_nonneg; lia).
  etrans; [apply (Zdigits2_mono _ (a / 2 ^ (Zdigits2 b - 1)))|].
  - split; [apply Z.div_pos; lia|]. by apply Z.div_le_compat_l.
  - etrans; [apply Zdigits2_div_pow2; lia|]. lia.
Qed.

Lemma Zdigits2_mul (a b : Z) :
  0 ≤ a → 0 ≤ b → Zdigits2 (a * b) ≤ Zdigits2 a + Zdigits2 b.
Proof.
  intros Ha Hb. pose proof (Zdigits2_nonneg a). pose proof (Zdigits2_nonneg b).
  apply Zdigits2_le_iff; [nia|lia|].
  assert (a < 2 ^ Zdigits2 a) by (by apply Zdigits2_le_iff).
  assert (b < 2 ^ Zdigits2 b) by (by apply Zdigits2_le_iff).
  rewrite Z.pow_add_r by lia. nia.
Qed.

Lemma Zdigits2_sub (a b : Z) (n : Z) :
  Zdigits2 a ≤ n → Zdigits2 b ≤ n → Zdigits2 (a - b) ≤ n + 1.
Proof.
  intros Ha Hb. rewrite <- Zdigits2_abs. rewrite <- Zdigits2_abs in Ha, Hb.
  pose proof (Zdigits2_nonneg (Z.abs a)). assert (0 ≤ n) by lia.
  apply Zdigits2_le_iff in Ha; [|lia..]. apply Zdigits2_le_iff in Hb; [|lia..].
  apply Zdigits2_le_iff; [lia..|].
  rewrite Z.pow_add_r by lia. change (2 ^ 1) with 2. lia.
Qed.

(** Division *)
Lemma SFdiv_below (x : spec_float) (sy : bool) (my : positive) (ey : Z)
    (Kx K : Z) :
  b64_below Kx x →
  Kx - (Zdigits2 (Z.pos my) + ey) + 1 ≤ K → -1074 ≤ K ≤ 1023 →
  b64_below (K + 1) (SFdiv 53 1024 x (S754_finite sy my ey)).
Proof.
  intros Hx HK1 HK. destruct x as [s|s| |sx mx ex]; try done.
  cbn [b64_below] in Hx. cbn [SFdiv]. unfold SFdiv_core_binary.
  set (d1 := Zdigits2 (Z.pos mx)) in *. set (d2 := Zdigits2 (Z.pos my)) in *.
  set (e1 := Z.min (fexp 53 1024 (d1 + ex - (d2 + ey))) (ex - ey)).
  assert (He1 : e1 = Z.min (Z.max (d1 + ex - (d2 + ey) - 53) (-1074)) (ex - ey))
    by done.
  clearbody e1.
  set (m1 := match ex - ey - e1 with
             | 0 => Z.pos mx | Z.pos _ => Z.pos mx ≪ (ex - ey - e1) | Z.neg _ => 0
             end).
  assert (Hm1 : m1 = Z.pos mx * 2 ^ (ex - ey - e1)).
  { unfold m1. destruct (ex - ey - e1) as [|p|p] eqn:Es; [lia| |lia].
    apply Z.shiftl_mul_pow2. lia. }
  clearbody m1.
  assert (H2 : 0 < 2 ^ (ex - ey - e1)) by (apply Z.pow_pos_nonneg; lia).
  pose proof (Z_div_mod m1 (Z.pos my) eq_refl) as Hdm.
  assert (Hq : (Z.div_eucl m1 (Z.pos my)).1 = m1 / Z.pos my) by done.
  destruct (Z.div_eucl m1 (Z.pos my)) as [q r]. cbn [fst] in Hq.
  assert (Hdq : Zdigits2 q ≤ Z.max 0 (Zdigits2 m1 - d2 + 1))
    by (rewrite Hq; apply Zdigits2_div; [nia|lia]).
  assert (Hdm1 : Zdigits2 m1 = d1 + (ex - ey - e1))
    by (rewrite Hm1; apply Zdigits2_mul_pow2; lia).
  assert (0 ≤ q) by (rewrite Hq; apply Z.div_pos; [nia|lia]).
  assert (0 < d1) by apply Zdigits2_pos. assert (0 < d2) by apply Zdigits2_pos.
  apply (binary_round_aux_below _ q e1 _ K); lia.
Qed.

Lemma fmod_below (x : spec_float) (my : positive) (ey : Z) (K : Z) :
  b64_nonneg x →
  Zdigits2 (Z.pos my) + ey ≤ K → -1074 ≤ K ≤ 1023 →
  b64_below (K + 1) (B64.fmod x (S754_finite false my ey)) ∧
  b64_nonneg (B64.fmod x (S754_finite false my ey)).
Proof.
  intros Hx HK1 HK. destruct x as [s|s| |sx mx ex]; try done.
  cbn [b64_nonneg] in Hx. subst sx. cbn [B64.fmod].
  set (e := Z.min ex ey).
  assert (H1 : 0 < 2 ^ (ex - e)) by (apply Z.pow_pos_nonneg; lia).
  assert (H2 : 0 < 2 ^ (ey - e)) by (apply Z.pow_pos_nonneg; lia).
  set (Y := Z.pos my * 2 ^ (ey - e)). assert (HY : 0 < Y) by (unfold Y; nia).
  pose proof (Z.mod_pos_bound (Z.pos mx * 2 ^ (ex - e)) Y HY) as Hr.
  set (r := (Z.pos mx * 2 ^ (ex - e)) `mod` Y) in *.
  assert (Hdr : Zdigits2 r + e ≤ K).
  { etrans; [apply Z.add_le_mono_r, (Zdigits2_mono r Y); lia|].
    unfold Y. rewrite Zdigits2_mul_pow2 by lia. lia. }
  split.
  - by apply binary_normalize_below.
  - destruct r as [|p|p]; [done| |lia]. cbn [binary_normalize].
    destruct (binary_round_below false p e K Hdr HK) as [Hb Hs].
    unfold B64.prec, B64.emax.
    destruct (binary_round 53 1024 false p e); cbn in *; done.
Qed.

Lemma float_rem_below (x : spec_float) (n : Z) (my : positive) (ey : Z)
    (K : Z) :
  b64_nonneg x →
  B64.of_int n = Ok (S754_finite false my ey) →
  Zdigits2 (Z.pos my) + ey ≤ K → -1074 ≤ K ≤ 1023 →
  ∃ r : spec_float,
    B64.float_rem x n = Ok r ∧ b64_below (K + 1) r ∧ b64_nonneg r.
Proof.
  intros Hx Hn HK1 HK. unfold B64.float_rem. rewrite Hn. cbn.
  destruct (fmod_below x my ey K Hx HK1 HK) as [Hb Hs].
  destruct (B64.fmod x (S754_finite false my ey)) as [s|s| |s m e]; try done.
  - by eexists.
  - cbn [b64_nonneg] in Hs. subst s. by eexists.
Qed.

(** Conversion to [int]. *)
Lemma to_int_floor_below (x : spec_float) (K : Z) :
  b64_nonneg x → b64_below K x → 0 ≤ K →
  ∃ z : Z, B64.to_int Qfloor x = Ok z ∧ 0 ≤ z < 2 ^ K.
Proof.
  intros Hx Hb HK. assert (0 < 2 ^ K) by (by apply Z.pow_pos_nonneg).
  destruct x as [s|s| |s m e]; try done.
  - exists 0. split; [done|lia].
  - cbn [b64_nonneg] in Hx. subst s. cbn [b64_below] in Hb. eexists. split; [done|].
    assert (Hm : Z.pos m < 2 ^ Zdigits2 (Z.pos m))
      by (apply Zdigits2_le_iff; [lia|cbn; lia|lia]).
    pose proof (Zdigits2_pos m) as Hd.
    destruct e as [|p|p]; cbn [B64.Q_of_finite].
    + rewrite Qfloor_Z. split; [lia|].
      eapply Z.lt_le_trans; [exact Hm|]. apply Z.pow_le_mono_r; lia.
    + rewrite Qfloor_Z, Z.pow_pos_fold.
      assert (0 < 2 ^ Z.pos p) by (by apply Z.pow_pos_nonneg).
      split; [nia|].
      assert (2 ^ Zdigits2 (Z.pos m) * 2 ^ Z.pos p ≤ 2 ^ K).
      { rewrite <- Z.pow_add_r by lia. apply Z.pow_le_mono_r; lia. }
      nia.
    + unfold Qfloor. rewrite Pos2Z.inj_pow.
      assert (0 < 2 ^ Z.pos p) by (by apply Z.pow_pos_nonneg).
      split; [apply Z.div_pos; lia|].
      apply Z.div_lt_upper_bound; [done|].
      eapply Z.lt_le_trans; [exact Hm|].
      rewrite <- Z.pow_add_r by lia. apply Z.pow_le_mono_r; lia.
Qed.

Lemma to_int_finite (f : Q → Z) (x : spec_float) (K : Z) :
  b64_below K x → ∃ z : Z, B64.to_int f x = Ok z.
Proof. destruct x; try done; by eexists. Qed.

Lemma of_int_below (n K : Z) :
  0 ≤ n < 2 ^ K → 0 ≤ K ≤ 1023 →
  ∃ y : spec_float, B64.of_int n = Ok y ∧ b64_below (K + 1) y.
Proof.
  intros Hn HK. unfold B64.of_int.
  assert (Hb : b64_below (K + 1) (binary_normalize B64.prec B64.emax n 0 false)).
  { apply binary_normalize_below; [|lia].
    rewrite Z.add_0_r. apply Zdigits2_le_iff; lia. }
  destruct (binary_normalize B64.prec B64.emax n 0 false); try done;
    by eexists.
Qed.

Lemma cond_Zopp_digits (s : bool) (m : Z) :
  Zdigits2 (cond_Zopp s m) = Zdigits2 m.
Proof. destruct s, m; done. Qed.

Lemma SFsub_below (x y : spec_float) (K : Z) :
  b64_below K x → b64_below K y → -1074 ≤ K ≤ 1022 →
  b64_below (K + 2) (SFsub 53 1024 x y).
Proof.
  intros Hx Hy HK.
  destruct x as [sx|sx| |sx mx ex], y as [sy|sy| |sy my ey]; try done;
    cbn [b64_below SFsub] in *; try lia.
  - by destruct sx, sy.
  - set (ez := Z.min ex ey).
    pose proof (shl_align_spec mx ex ez) as Ha.
    pose proof (shl_align_spec my ey ez) as Hb.
    destruct (shl_align mx ex ez) as [ma ea], (shl_align my ey ez) as [mb eb].
    cbn [fst]. destruct Ha as (Hea & _ & Hda), Hb as (Heb & _ & Hdb).
    replace (K + 2) with ((K + 1) + 1) by lia.
    apply binary_normalize_below; [|lia].
    assert (Zdigits2 (cond_Zopp sx (Z.pos ma) - cond_Zopp sy (Z.pos mb))
            ≤ (K - ez) + 1); [|lia].
    apply Zdigits2_sub; rewrite cond_Zopp_digits; lia.
Qed.

Lemma SFmul_below (x y : spec_float) (Kx Ky : Z) :
  b64_below Kx x → b64_below Ky y → Kx ≤ 486 → Ky ≤ 486 → -1074 ≤ Kx + Ky →
  b64_below (Kx + Ky + 1) (SFmul 53 1024 x y).
Proof.
  intros Hx Hy HKx HKy HK.
  destruct x as [sx|sx| |sx mx ex], y as [sy|sy| |sy my ey]; try done.
  cbn [b64_below SFmul] in *.
  pose proof (Zdigits2_pos mx). pose proof (Zdigits2_pos my).
  apply binary_round_aux_below; [lia| |lia..].
  rewrite Pos2Z.inj_mul.
  pose proof (Zdigits2_mul (Z.pos mx) (Z.pos my)). lia.
Qed.

Lemma valid_binary_below (x : spec_float) :
  valid_binary 53 1024 x = true → b64_nonneg x → b64_below 1024 x.
Proof.
  destruct x as [s|s| |s m e]; try done. cbn [valid_binary b64_below].
  unfold bounded, canonical_mantissa. rewrite fexp_b64.
  intros Hv _. apply andb_prop in Hv as [Hc He].
  apply Z.eqb_eq in Hc. apply Z.leb_le in He. cbn [Zdigits2]. lia.
Qed.

Lemma format_time_b64_total (x : spec_float) :
  valid_binary 53 1024 x = true → b64_nonneg x →
  ∃ out : string, format_time x = Ok out.
Proof.
  intros Hv Hx. pose proof (valid_binary_below x Hv Hx) as Hb.
  unfold format_time. cbn [truediv float_rem float_sub float_mul math_floor
    py_round b64_float].
  unfold B64.truediv, B64.float_sub, B64.float_mul, B64.prec, B64.emax.
  (* hours *)
  assert (Hq1 : b64_below 1014 (SFdiv 53 1024 x (S754_finite false 7916483719987200 (-41)))).
  { by apply (SFdiv_below x false _ _ 1024 1013). }
  change (B64.of_int 3600) with (Ok (S754_finite false 7916483719987200 (-41))).
  cbn [mbind result_bind B64.is_zero].
  destruct (to_int_finite Qfloor _ _ Hq1) as [hours ->]. cbn [mbind result_bind].
  (* first remainder *)
  destruct (float_rem_below x 3600 7916483719987200 (-41) 12 Hx eq_refl)
    as (r1 & -> & Hb1 & Hn1); [done|lia|].
  cbn [mbind result_bind].
  (* minutes *)
  assert (Hq2 : b64_below 10 (SFdiv 53 1024 r1 (S754_finite false 8444249301319680 (-47)))).
  { by apply (SFdiv_below r1 false _ _ 13 9). }
  change (B64.of_int 60) with (Ok (S754_finite false 8444249301319680 (-47))).
  cbn [mbind result_bind B64.is_zero].
  destruct (to_int_finite Qfloor _ _ Hq2) as [minutes ->]. cbn [mbind result_bind].
  (* second remainder *)
  destruct (float_rem_below r1 60 8444249301319680 (-47) 6 Hn1 eq_refl)
    as (r2 & -> & Hb2 & Hn2); [done|lia|].
  cbn [mbind result_bind].
  (* whole seconds *)
  destruct (to_int_floor_below r2 7 Hn2 Hb2) as (whole & Hw & Hwr); [lia|].
  rewrite Hw. cbn [mbind result_bind].
  (* fraction *)
  destruct (of_int_below whole 7 Hwr) as (yw & Hyw & Hbw); [lia|].
  rewrite Hyw. cbn [mbind result_bind].
  assert (Hfr : b64_below 10 (SFsub 53 1024 r2 yw)).
  { apply (SFsub_below r2 yw 8); [|done|lia]. destruct r2; try done.
    cbn [b64_below] in *. lia. }
  (* milliseconds *)
  change (B64.of_int 1000) with (Ok (S754_finite false 8796093022208000 (-43))).
  cbn [mbind result_bind].
  assert (Hsc : b64_below 21 (SFmul 53 1024 (SFsub 53 1024 r2 yw)
                 (S754_finite false 8796093022208000 (-43)))).
  { by apply (SFmul_below _ _ 10 10). }
  destruct (to_int_finite Qround_half_even _ _ Hsc) as [ms Hms].
  rewrite Hms. cbn [mbind result_bind].
  by eexists.
Qed.

(** *** What rounding does to the value *)

Lemma loc_of_shr_record_of_loc (m : Z) (l : location) :
  loc_of_shr_record (shr_record_of_loc m l) = l.
Proof. by destruct l as [|[]]. Qed.

Lemma shr_nop (mrs : shr_record) (e n : Z) : n ≤ 0 → shr mrs e n = (mrs, e).
Proof. by destruct n. Qed.

Lemma binary_round_aux_spec (sx : bool) (mx ex : Z) (lx : location) (K : Z) :
  0 ≤ mx → Zdigits2 mx + ex ≤ K → ex ≤ 971 → -1074 ≤ K ≤ 1023 →
  let E := Z.max ex (fexp 53 1024 (Zdigits2 mx + ex)) in
  ∃ m e : Z,
    binary_round_aux 53 1024 sx mx ex lx = float_of sx m e ∧
    0 ≤ m ∧ Zdigits2 m + e ≤ K + 1 ∧ E ≤ e ≤ 971 ∧
    m * 2 ^ (e - ex) ≤ mx + 2 ^ (E - ex) ∧
    (lx = loc_Exact → E = ex → m = mx ∧ e = ex) ∧
    mx / 2 ^ (e - ex) ≤ m ∧ e ≤ E + 1.
Proof.
  intros Hmx HT Hex HK E. unfold binary_round_aux, shr_fexp.
  set (n1 := fexp 53 1024 (Zdigits2 mx + ex) - ex).
  assert (Hn1 : n1 = Z.max (Zdigits2 mx + ex - 53) (-1074) - ex) by done.
  assert (HE : E = ex + Z.max 0 n1) by (unfold E, n1; lia).
  assert (Hex1 : lx = loc_Exact → E = ex →
                 shr (shr_record_of_loc mx lx) ex n1
                 = (shr_record_of_loc mx loc_Exact, ex)).
  { intros -> HEe. apply shr_nop. lia. }
  clearbody n1.
  pose proof (shr_spec (shr_record_of_loc mx lx) ex n1) as S1.
  rewrite shr_record_of_loc_m in S1. specialize (S1 Hmx).
  destruct (shr (shr_record_of_loc mx lx) ex n1) as [mrs' e'] eqn:Es1.
  cbn [fst snd] in S1. destruct S1 as [Sm1 Se1].
  set (m1 := round_nearest_even (shr_m mrs') (loc_of_shr_record mrs')).
  pose proof (round_nearest_even_range (shr_m mrs') (loc_of_shr_record mrs')) as Hr.
  fold m1 in Hr.
  assert (Hex2 : lx = loc_Exact → E = ex → m1 = mx ∧ e' = ex).
  { intros Hl HEe. specialize (Hex1 Hl HEe). injection Hex1 as Hmrs He.
    split; [|done]. unfold m1.
    by rewrite Hmrs. }
  assert (H2n1 : 0 < 2 ^ Z.max 0 n1) by (apply Z.pow_pos_nonneg; lia).
  assert (Hm' : 0 ≤ shr_m mrs') by (rewrite Sm1; by apply Z.div_pos).
  assert (Hd' : Zdigits2 (shr_m mrs') ≤ Z.max 0 (Zdigits2 mx - Z.max 0 n1))
    by (rewrite Sm1; apply Zdigits2_div_pow2; lia).
  assert (Hd1 : Zdigits2 m1 ≤ Zdigits2 (shr_m mrs') + 1).
  { etrans; [apply (Zdigits2_mono m1 (shr_m mrs' + 1)); lia|].
    by apply Zdigits2_succ. }
  assert (Hm1 : 0 ≤ m1) by lia.
  pose proof (Zdigits2_nonneg mx) as Hdx.
  pose proof (Zdigits2_nonneg m1) as Hdm1.
  set (n2 := fexp 53 1024 (Zdigits2 m1 + e') - e').
  assert (Hn2 : n2 = Z.max (Zdigits2 m1 + e' - 53) (-1074) - e') by done.
  assert (Hex3 : lx = loc_Exact → E = ex →
                 shr (shr_record_of_loc m1 loc_Exact) e' n2
                 = (shr_record_of_loc m1 loc_Exact, e')).
  { intros Hl HEe. destruct (Hex2 Hl HEe) as [-> ->]. apply shr_nop. lia. }
  clearbody n2.
  pose proof (shr_spec (shr_record_of_loc m1 loc_Exact) e' n2) as S2.
  rewrite shr_record_of_loc_m in S2. specialize (S2 Hm1).
  destruct (shr (shr_record_of_loc m1 loc_Exact) e' n2) as [mrs'' e''] eqn:Es2.
  cbn [fst snd] in S2. destruct S2 as [Sm2 Se2].
  assert (H2n2 : 0 < 2 ^ Z.max 0 n2) by (apply Z.pow_pos_nonneg; lia).
  assert (Hm'' : 0 ≤ shr_m mrs'') by (rewrite Sm2; by apply Z.div_pos).
  assert (Hd'' : Zdigits2 (shr_m mrs'') ≤ Z.max 0 (Zdigits2 m1 - Z.max 0 n2))
    by (rewrite Sm2; apply Zdigits2_div_pow2; lia).
  assert (Hex' : ex ≤ K).
  { destruct mx as [|p|p]; [cbn in HT; lia| |lia].
    assert (0 < Zdigits2 (Z.pos p)) by (cbn; lia). lia. }
  exists (shr_m mrs''), e''. split_and!.
  - destruct (shr_m mrs'') as [|m|m] eqn:Em; [done| |lia]. cbn [float_of].
    by replace (e'' <=? 1024 - 53) with true by (symmetry; apply Z.leb_le; lia).
  - done.
  - lia.
  - lia.
  - lia.
  - replace (e'' - ex) with (Z.max 0 n2 + Z.max 0 n1) by lia.
    replace (E - ex) with (Z.max 0 n1) by lia.
    rewrite Z.pow_add_r by lia.
    pose proof (Z.mul_div_le mx (2 ^ Z.max 0 n1) H2n1).
    pose proof (Z.mul_div_le m1 (2 ^ Z.max 0 n2) H2n2).
    rewrite <- Sm1 in *. rewrite <- Sm2 in *. nia.
  - intros Hl HEe. destruct (Hex2 Hl HEe) as [Hm1e He'e].
    specialize (Hex3 Hl HEe). injection Hex3 as Hmrs He.
    rewrite Hmrs. cbn [shr_record_of_loc shr_m]. lia.
  - replace (e'' - ex) with (Z.max 0 n1 + Z.max 0 n2) by lia.
    rewrite Z.pow_add_r, <- Z.div_div, <- Sm1, Sm2 by lia.
    apply Z.div_le_mono; lia.
  - lia.
Qed.

(** *** Rounding to nearest *)

Lemma shr_1_located (N D : Z) (mrs : shr_record) :
  0 < D → 0 ≤ shr_m mrs → located N D mrs → located N (2 * D) (shr_1 mrs).
Proof.
  destruct mrs as [m r s]. unfold located. cbn [shr_m shr_r shr_s].
  intros HD Hm [Hb Hl].
  destruct m as [|[p|p|]|p]; [| | | |lia]; destruct r, s;
    cbn [shr_1 shr_m shr_r shr_s orb]; lia.
Qed.

Lemma shr_iter_located (N D : Z) (n : nat) (mrs : shr_record) :
  0 < D → 0 ≤ shr_m mrs → located N D mrs →
  located N (2 ^ Z.of_nat n * D) (Nat.iter n shr_1 mrs).
Proof.
  intros HD Hm Hl. induction n as [|n IH].
  - cbn [Nat.iter]. by rewrite Z.pow_0_r, Z.mul_1_l.
  - rewrite Nat.iter_succ, Nat2Z.inj_succ, Z.pow_succ_r, <- Z.mul_assoc by lia.
    apply shr_1_located; [|by rewrite shr_iter_m; [apply Z.div_pos; [|apply Z.pow_pos_nonneg]; lia|]|done].
    apply Z.mul_pos_pos; [apply Z.pow_pos_nonneg; lia|done].
Qed.

Lemma shr_located (N D : Z) (mrs : shr_record) (e n : Z) :
  0 < D → 0 ≤ shr_m mrs → located N D mrs →
  located N (2 ^ Z.max 0 n * D) (shr mrs e n).1.
Proof.
  intros HD Hm Hl. destruct n as [|p|p]; cbn [shr fst].
  - by rewrite Z.max_l, Z.pow_0_r, Z.mul_1_l by lia.
  - rewrite iter_pos_nat, Z.max_r by lia.
    rewrite <- (positive_nat_Z p) at 1.
    exact (shr_iter_located N D (Pos.to_nat p) mrs HD Hm Hl).
  - by rewrite Z.max_l, Z.pow_0_r, Z.mul_1_l by lia.
Qed.

Lemma round_nearest_even_located (N D : Z) (mrs : shr_record) :
  0 < D → located N D mrs →
  2 * round_nearest_even (shr_m mrs) (loc_of_shr_record mrs) * D ≤ 2 * N + D ∧
  2 * N ≤ 2 * round_nearest_even (shr_m mrs) (loc_of_shr_record mrs) * D + D.
Proof.
  destruct mrs as [m r s]. unfold located. cbn [shr_m shr_r shr_s].
  intros HD [Hb Hl]. destruct r, s; cbn [loc_of_shr_record round_nearest_even];
    try destruct (Z.even m); lia.
Qed.

Lemma new_location_located (q r my : Z) :
  0 < my → 0 ≤ r < my →
  located (my * q + r) my (shr_record_of_loc q (new_location my r)).
Proof.
  intros Hmy Hr. unfold new_location, new_location_even, new_location_odd.
  destruct (Z.even my) eqn:Hev.
  - destruct (Z.eqb_spec r 0) as [->|Hne].
    + unfold located. cbn. lia.
    + destruct (Z.compare_spec (2 * r) my); unfold located; cbn; lia.
  - assert (Hodd : my ≠ 2 * r).
    { intros ->. by rewrite Z.even_mul in Hev. }
    destruct (Z.eqb_spec r 0) as [->|Hne].
    + unfold located. cbn. lia.
    + destruct (Z.compare_spec (2 * r + 1) my); unfold located; cbn; lia.
Qed.

Lemma exact_located (m : Z) : located m 1 (shr_record_of_loc m loc_Exact).
Proof. unfold located. cbn. lia. Qed.


(** Rounding to nearest: the result is within half a unit of the last
    place, at the exponent [E] of the first shift, of the number [N / D]
    located by [mx] and [lx]. *)
Lemma binary_round_aux_nearest (sx : bool) (mx ex : Z) (lx : location)
    (K N D : Z) :
  0 ≤ mx → 0 < D → located N D (shr_record_of_loc mx lx) →
  Zdigits2 mx + ex ≤ K → ex ≤ 971 → -1074 ≤ K ≤ 1023 →
  let E := Z.max ex (fexp 53 1024 (Zdigits2 mx + ex)) in
  ∃ m e : Z,
    binary_round_aux 53 1024 sx mx ex lx = float_of sx m e ∧
    0 ≤ m ∧ E ≤ e ≤ E + 1 ∧ e ≤ 971 ∧
    2 * (m * 2 ^ (e - ex)) * D ≤ 2 * N + 2 ^ (E - ex) * D ∧
    2 * N ≤ 2 * (m * 2 ^ (e - ex)) * D + 2 ^ (E - ex) * D.
Proof.
  intros Hmx HD Hloc HT Hex HK E. unfold binary_round_aux, shr_fexp.
  set (n1 := fexp 53 1024 (Zdigits2 mx + ex) - ex).
  assert (Hn1 : n1 = Z.max (Zdigits2 mx + ex - 53) (-1074) - ex) by done.
  assert (HE : E = ex + Z.max 0 n1) by (unfold E, n1; lia).
  clearbody n1.
  pose proof (shr_spec (shr_record_of_loc mx lx) ex n1) as S1.
  pose proof (shr_located N D (shr_record_of_loc mx lx) ex n1 HD) as L1.
  rewrite shr_record_of_loc_m in S1, L1. specialize (S1 Hmx).
  specialize (L1 Hmx Hloc).
  destruct (shr (shr_record_of_loc mx lx) ex n1) as [mrs' e'] eqn:Es1.
  cbn [fst snd] in S1, L1. destruct S1 as [Sm1 Se1].
  assert (H2n1 : 0 < 2 ^ Z.max 0 n1) by (apply Z.pow_pos_nonneg; lia).
  assert (HD1 : 0 < 2 ^ Z.max 0 n1 * D) by (by apply Z.mul_pos_pos).
  pose proof (round_nearest_even_located N _ mrs' HD1 L1) as [Hup Hlo].
  pose proof (round_nearest_even_range (shr_m mrs') (loc_of_shr_record mrs')) as Hr.
  set (m1 := round_nearest_even (shr_m mrs') (loc_of_shr_record mrs')) in *.
  assert (Hm' : 0 ≤ shr_m mrs') by (rewrite Sm1; by apply Z.div_pos).
  assert (Hd' : Zdigits2 (shr_m mrs') ≤ Z.max 0 (Zdigits2 mx - Z.max 0 n1))
    by (rewrite Sm1; apply Zdigits2_div_pow2; lia).
  pose proof (Zdigits2_nonneg mx) as Hdx.
  assert (Hd53 : Zdigits2 (shr_m mrs') ≤ 53) by lia.
  apply Zdigits2_le_iff in Hd53; [|done|lia].
  assert (Hm1 : 0 ≤ m1) by lia.
  assert (Hm1le : m1 ≤ 2 ^ 53) by lia.
  pose proof (Zdigits2_nonneg m1) as Hdm1.
  set (n2 := fexp 53 1024 (Zdigits2 m1 + e') - e').
  assert (Hn2 : n2 = Z.max (Zdigits2 m1 + e' - 53) (-1074) - e') by done.
  clearbody n2.
  assert (He' : e' = E) by lia.
  assert (Hex' : ex ≤ K).
  { destruct mx as [|p|p]; [cbn in HT; lia| |lia].
    assert (0 < Zdigits2 (Z.pos p)) by (cbn; lia). lia. }
  replace (E - ex) with (Z.max 0 n1) by lia.
  destruct (decide (Zdigits2 m1 ≤ 53)) as [Hsmall|Hbig].
  - rewrite shr_nop by lia. cbn [shr_record_of_loc shr_m].
    exists m1, e'. split_and!.
    + destruct m1 as [|m|m] eqn:Em; [done| |lia]. cbn [float_of].
      by replace (e' <=? 1024 - 53) with true by (symmetry; apply Z.leb_le; lia).
    + done.
    + lia.
    + lia.
    + lia.
    + replace (e' - ex) with (Z.max 0 n1) by lia. lia.
    + replace (e' - ex) with (Z.max 0 n1) by lia. lia.
  - assert (Hm1eq : m1 = 2 ^ 53).
    { assert (¬ m1 < 2 ^ 53); [|lia].
      intros Hlt. apply Hbig. by apply Zdigits2_le_iff. }
    assert (Hd54 : Zdigits2 m1 = 54) by (by rewrite Hm1eq).
    assert (Hn2' : n2 = 1) by lia.
    assert (Hdig : Zdigits2 (shr_m mrs') = 53).
    { assert (¬ Zdigits2 (shr_m mrs') ≤ 52); [|apply Zdigits2_le_iff in Hd53; lia].
      intros Hc. apply Zdigits2_le_iff in Hc; [|done|lia].
      change (2 ^ 52) with 4503599627370496 in Hc.
      change (2 ^ 53) with 9007199254740992 in Hm1eq. lia. }
    clear Hn2. subst n2. rewrite Hm1eq.
    change (shr (shr_record_of_loc (2 ^ 53) loc_Exact) e' 1)
      with (Build_shr_record (2 ^ 52) false false, e' + 1).
    cbn [shr_m].
    exists (2 ^ 52), (e' + 1). split_and!.
    + cbn [float_of].
      by replace (e' + 1 <=? 1024 - 53) with true by (symmetry; apply Z.leb_le; lia).
    + done.
    + lia.
    + lia.
    + lia.
    + replace (e' + 1 - ex) with (1 + Z.max 0 n1) by lia.
      rewrite Z.pow_add_r by lia.
      replace (2 ^ 52 * (2 ^ 1 * 2 ^ Z.max 0 n1)) with (m1 * 2 ^ Z.max 0 n1)
        by (rewrite Hm1eq; lia). lia.
    + replace (e' + 1 - ex) with (1 + Z.max 0 n1) by lia.
      rewrite Z.pow_add_r by lia.
      replace (2 ^ 52 * (2 ^ 1 * 2 ^ Z.max 0 n1)) with (m1 * 2 ^ Z.max 0 n1)
        by (rewrite Hm1eq; lia). lia.
Qed.

Lemma b64_scaled_nonneg (S : Z) (x : spec_float) : 0 ≤ b64_scaled S x.
Proof.
  destruct x as [| | |s m e]; cbn [b64_scaled]; [lia..|].
  apply Z.mul_nonneg_nonneg; [done|]. by apply Z.pow_nonneg.
Qed.


Section Scaled.
Variable S : Z.
Hypothesis HS : 2200 ≤ S.
Local Unset Default Proof Using.

Lemma float_of_scaled (m e : Z) :
  0 ≤ m → b64_scaled S (float_of false m e) = m * 2 ^ (e + S).
Proof. intros Hm. destruct m; [done..|lia]. Qed.

Lemma float_of_nonneg (m e : Z) : 0 ≤ m → b64_nonneg (float_of false m e).
Proof. intros Hm. destruct m; [done..|lia]. Qed.

Lemma valid_binary_fexp (s : bool) (m : positive) (e : Z) :
  valid_binary 53 1024 (S754_finite s m e) = true ↔
  e = Z.max (Zdigits2 (Z.pos m) + e - 53) (-1074) ∧ e ≤ 971.
Proof.
  cbn [valid_binary]. unfold bounded, canonical_mantissa.
  rewrite andb_true_iff, Z.eqb_eq, Z.leb_le, fexp_b64. cbn [Zdigits2]. lia.
Qed.

(** A mantissa that fits is normalized without rounding. *)
Lemma binary_normalize_exact (n e : Z) :
  0 ≤ n → Zdigits2 n ≤ 53 → -1074 ≤ e → Zdigits2 n + e ≤ 1023 →
  b64_regular (binary_normalize 53 1024 n e false) ∧
  b64_scaled S (binary_normalize 53 1024 n e false) = n * 2 ^ (e + S).
Proof.
  intros Hn Hd He HT. destruct n as [|p|p]; [done| |lia].
  cbn [binary_normalize]. unfold binary_round.
  set (f := fexp 53 1024 (Z.pos (digits2_pos p) + e)).
  assert (Hf : f = Z.max (Zdigits2 (Z.pos p) + e - 53) (-1074)) by done.
  clearbody f.
  pose proof (shl_align_spec p e f) as Hs.
  destruct (shl_align p e f) as [mz ez]. destruct Hs as (Hez & Hmz & Hdz).
  assert (Hezf : ez = f) by lia.
  destruct (binary_round_aux_spec false (Z.pos mz) ez loc_Exact 1023)
    as (m & e' & Hr & Hm & Hdm & HE & Hle & Hex & _); [lia..|].
  rewrite fexp_b64 in HE, Hex.
  destruct Hex as [-> ->]; [done|lia|]. rewrite Hr. cbn [float_of].
  split; [split; [|done]|].
  - apply valid_binary_fexp. lia.
  - cbn [b64_scaled]. rewrite Hmz, <- Z.mul_assoc, <- Z.pow_add_r by lia.
    do 2 f_equal. lia.
Qed.

Lemma b64_regular_scaled_pos (x : spec_float) :
  b64_regular x → 0 ≤ b64_scaled S x.
Proof.
  destruct x as [s|s| |s m e]; try done. intros [Hv _].
  apply valid_binary_fexp in Hv. cbn [b64_scaled].
  assert (0 < 2 ^ (e + S)) by (apply Z.pow_pos_nonneg; lia). lia.
Qed.

(** [fmod] is exact. *)
Lemma fmod_scaled (x : spec_float) (my : positive) (ey : Z) :
  b64_regular x → b64_regular (S754_finite false my ey) →
  Zdigits2 (Z.pos my) + ey ≤ 1023 →
  b64_regular (B64.fmod x (S754_finite false my ey)) ∧
  b64_scaled S (B64.fmod x (S754_finite false my ey))
  = b64_scaled S x `mod` b64_scaled S (S754_finite false my ey).
Proof.
  intros [Hvx Hnx] [Hvy _] HTy. apply valid_binary_fexp in Hvy.
  destruct x as [s|s| |sx mx ex]; try done.
  cbn [b64_nonneg] in Hnx. subst sx. apply valid_binary_fexp in Hvx.
  cbn [B64.fmod]. set (e := Z.min ex ey).
  pose proof (Zdigits2_pos mx). pose proof (Zdigits2_pos my).
  assert (H1 : 0 < 2 ^ (ex - e)) by (apply Z.pow_pos_nonneg; lia).
  assert (H2 : 0 < 2 ^ (ey - e)) by (apply Z.pow_pos_nonneg; lia).
  assert (H3 : 0 < 2 ^ (e + S)) by (apply Z.pow_pos_nonneg; lia).
  set (X := Z.pos mx * 2 ^ (ex - e)). set (Y := Z.pos my * 2 ^ (ey - e)).
  assert (HY : 0 < Y) by (unfold Y; nia).
  assert (HX : 0 < X) by (unfold X; nia).
  pose proof (Z.mod_pos_bound X Y HY) as Hr.
  pose proof (Z.mod_le X Y) as Hrx.
  set (r := X `mod` Y) in *.
  assert (Hdr : Zdigits2 r ≤ 53).
  { destruct (Z.le_ge_cases ex ey).
    - assert (HXm : X = Z.pos mx).
      { unfold X, e. rewrite Z.min_l, Z.sub_diag by lia. lia. }
      etrans; [apply (Zdigits2_mono r (Z.pos mx)); lia|]. lia.
    - assert (HYm : Y = Z.pos my).
      { unfold Y, e. rewrite Z.min_r, Z.sub_diag by lia. lia. }
      etrans; [apply (Zdigits2_mono r (Z.pos my)); lia|]. lia. }
  destruct (binary_normalize_exact r e) as [Hreg Hsc]; [lia..| |].
  { etrans; [apply Z.add_le_mono_r, (Zdigits2_mono r Y); lia|].
    unfold Y. rewrite Zdigits2_mul_pow2 by lia. lia. }
  split; [done|]. unfold B64.prec, B64.emax. rewrite Hsc. cbn [b64_scaled].
  replace (Z.pos mx * 2 ^ (ex + S)) with (X * 2 ^ (e + S)).
  2:{ unfold X. rewrite <- Z.mul_assoc, <- Z.pow_add_r by lia.
      do 2 f_equal. lia. }
  replace (Z.pos my * 2 ^ (ey + S)) with (Y * 2 ^ (e + S)).
  2:{ unfold Y. rewrite <- Z.mul_assoc, <- Z.pow_add_r by lia.
      do 2 f_equal. lia. }
  rewrite Z.mul_mod_distr_r by lia. done.
Qed.


Lemma float_rem_scaled (x : spec_float) (n : Z) (my : positive) (ey : Z) :
  b64_regular x →
  B64.of_int n = Ok (S754_finite false my ey) →
  b64_regular (S754_finite false my ey) →
  Zdigits2 (Z.pos my) + ey ≤ 1023 →
  ∃ r : spec_float,
    B64.float_rem x n = Ok r ∧ b64_regular r ∧
    b64_scaled S r = b64_scaled S x `mod` (Z.pos my * 2 ^ (ey + S)).
Proof.
  intros Hx Hn Hy HTy. unfold B64.float_rem. rewrite Hn. cbn.
  destruct (fmod_scaled x my ey Hx Hy HTy) as [[Hv Hs] Hsc].
  change (b64_scaled S (S754_finite false my ey))
    with (Z.pos my * 2 ^ (ey + S)) in Hsc.
  destruct (B64.fmod x (S754_finite false my ey)) as [s|s| |s m e]; try done.
  - exists (S754_zero false). by rewrite <- Hsc.
  - cbn [b64_nonneg] in Hs. subst s. eexists. by split_and!.
Qed.

(** The rational value of a double, from its scaled magnitude. *)
Lemma Q_of_finite_scaled (m : positive) (e : Z) :
  -1200 ≤ e →
  (B64.Q_of_finite false m e == (Z.pos m * 2 ^ (e + S)) # Z.to_pos (2 ^ S))%Q.
Proof.
  intros He. assert (H2S : 0 < 2 ^ S) by (apply Z.pow_pos_nonneg; lia).
  unfold B64.Q_of_finite, Qeq. destruct e as [|p|p]; cbn [Qnum Qden inject_Z].
  - rewrite Z2Pos.id by done. rewrite Z.add_0_l. lia.
  - rewrite Z2Pos.id, Z.pow_pos_fold, Z.pow_add_r by lia. lia.
  - rewrite Z2Pos.id, Pos2Z.inj_pow by done.
    replace (2 ^ S) with (2 ^ (Z.neg p + S) * 2 ^ Z.pos p); [lia|].
    rewrite <- Z.pow_add_r by lia. f_equal. lia.
Qed.

Lemma to_int_floor_scaled (x : spec_float) :
  b64_nonneg x → b64_exponent_from (-1200) x →
  B64.to_int Qfloor x = Ok (b64_scaled S x / 2 ^ S).
Proof.
  assert (H2S : 0 < 2 ^ S) by (apply Z.pow_pos_nonneg; lia).
  destruct x as [s|s| |s m e]; intros Hn He; try done.
  cbn [b64_nonneg] in Hn. subst s. cbn [b64_exponent_from] in He.
  cbn [B64.to_int b64_scaled]. f_equal.
  rewrite (Qfloor_comp _ _ (Q_of_finite_scaled m e He)).
  unfold Qfloor. by rewrite Z2Pos.id.
Qed.

(** [round] of a non-negative double below [n + 1/2]. *)
Lemma to_int_round_scaled (x : spec_float) (n : Z) :
  b64_nonneg x → b64_exponent_from (-1200) x →
  b64_scaled S x < (2 * n + 1) * 2 ^ (S - 1) →
  ∃ z : Z, B64.to_int Qround_half_even x = Ok z ∧ 0 ≤ z ≤ n.
Proof.
  assert (H2S : 0 < 2 ^ S) by (apply Z.pow_pos_nonneg; lia).
  assert (H2S1 : 2 ^ S = 2 * 2 ^ (S - 1)).
  { rewrite <- Z.pow_succ_r by lia. f_equal. lia. }
  destruct x as [s|s| |s m e]; intros Hn Hexp Hlt; try done.
  { cbn [b64_scaled] in Hlt. exists 0. split; [done|]. nia. }
  cbn [b64_nonneg] in Hn. subst s. cbn [b64_exponent_from] in Hexp.
  cbn [B64.to_int b64_scaled] in *. eexists. split; [done|].
  rewrite (Qround_half_even_comp _ _ (Q_of_finite_scaled m e Hexp)).
  set (v := Z.pos m * 2 ^ (e + S)) in *.
  assert (Hv : 0 < v).
  { unfold v. assert (0 < 2 ^ (e + S)) by (apply Z.pow_pos_nonneg; lia). lia. }
  pose proof (Qround_half_even_near (v # Z.to_pos (2 ^ S))) as Hnear.
  apply Qabs_Qle_condition in Hnear as [Hn1 Hn2].
  set (z := Qround_half_even (v # Z.to_pos (2 ^ S))) in *.
  unfold Qle, Qopp, Qminus, Qplus in Hn1, Hn2.
  cbn [Qnum Qden inject_Z Qopp] in Hn1, Hn2.
  rewrite ?Pos2Z.inj_mul, ?Z2Pos.id in Hn1, Hn2 by done.
  split; nia.
Qed.


Lemma b64_regular_exponent (x : spec_float) :
  b64_regular x → b64_exponent_from (-1074) x.
Proof.
  destruct x as [s|s| |s m e]; try done. intros [Hv _].
  apply valid_binary_fexp in Hv. cbn. lia.
Qed.

Lemma b64_exponent_from_weaken (lo lo' : Z) (x : spec_float) :
  lo' ≤ lo → b64_exponent_from lo x → b64_exponent_from lo' x.
Proof. destruct x; cbn; lia. Qed.

Lemma pow2_split (a b : Z) : 0 ≤ a → 0 ≤ b → 2 ^ (a + b) = 2 ^ a * 2 ^ b.
Proof. intros. by apply Z.pow_add_r. Qed.

(** Division: the quotient is at most one unit in the last place above
    the exact quotient. [B] bounds the binary exponent of the quotient. *)
Lemma SFdiv_scaled (x : spec_float) (my : positive) (ey : Z) (B : Z) :
  b64_regular x → b64_regular (S754_finite false my ey) →
  b64_scaled S x < Z.pos my * 2 ^ (ey + S) * 2 ^ B → 0 ≤ B ≤ 971 →
  let q := SFdiv 53 1024 x (S754_finite false my ey) in
  b64_nonneg q ∧ b64_exponent_from (-1074) q ∧
  b64_scaled S q * (Z.pos my * 2 ^ (ey + S))
  ≤ b64_scaled S x * 2 ^ S + Z.pos my * 2 ^ (ey + S) * 2 ^ (B - 53 + S).
Proof.
  intros [Hvx Hnx] [Hvy _] Hlt HB q. unfold q. clear q.
  apply valid_binary_fexp in Hvy.
  assert (H2S : 0 < 2 ^ S) by (apply Z.pow_pos_nonneg; lia).
  assert (H2B : 0 < 2 ^ B) by (apply Z.pow_pos_nonneg; lia).
  assert (HyS : 0 < 2 ^ (ey + S)) by (apply Z.pow_pos_nonneg; lia).
  assert (HBS : 0 < 2 ^ (B - 53 + S)) by (apply Z.pow_pos_nonneg; lia).
  set (Ys := Z.pos my * 2 ^ (ey + S)) in *.
  assert (HYs : 0 < Ys) by (unfold Ys; nia).
  destruct x as [s|s| |sx mx ex]; try done.
  { cbn [SFdiv b64_scaled b64_nonneg b64_exponent_from].
    split_and!; [done..|]. rewrite !Z.mul_0_l, Z.add_0_l.
    apply Z.mul_nonneg_nonneg; lia. }
  cbn [b64_nonneg] in Hnx. subst sx. apply valid_binary_fexp in Hvx.
  cbn [b64_scaled] in *. cbn [SFdiv xorb]. unfold SFdiv_core_binary.
  set (d1 := Zdigits2 (Z.pos mx)) in *. set (d2 := Zdigits2 (Z.pos my)) in *.
  assert (0 < d1) by apply Zdigits2_pos. assert (0 < d2) by apply Zdigits2_pos.
  set (e1 := Z.min (fexp 53 1024 (d1 + ex - (d2 + ey))) (ex - ey)).
  assert (He1 : e1 = Z.min (Z.max (d1 + ex - (d2 + ey) - 53) (-1074)) (ex - ey))
    by done.
  clearbody e1.
  set (m1 := match ex - ey - e1 with
             | 0 => Z.pos mx | Z.pos _ => Z.pos mx ≪ (ex - ey - e1) | Z.neg _ => 0
             end).
  assert (Hm1 : m1 = Z.pos mx * 2 ^ (ex - ey - e1)).
  { unfold m1. destruct (ex - ey - e1) as [|p|p] eqn:Es; [lia| |lia].
    apply Z.shiftl_mul_pow2. lia. }
  clearbody m1.
  assert (H2 : 0 < 2 ^ (ex - ey - e1)) by (apply Z.pow_pos_nonneg; lia).
  pose proof (Z_div_mod m1 (Z.pos my) eq_refl) as Hdm.
  destruct (Z.div_eucl m1 (Z.pos my)) as [q r]. destruct Hdm as [Hdm Hr].
  assert (Hq0 : 0 ≤ q) by nia.
  assert (Hqm : q * Z.pos my ≤ Z.pos mx * 2 ^ (ex - ey - e1)) by nia.
  assert (He1S : 0 < 2 ^ (e1 + S)) by (apply Z.pow_pos_nonneg; lia).
  set (Xs := Z.pos mx * 2 ^ (ex + S)) in *.
  (* the exact quotient bounds [q] *)
  assert (Hval : q * 2 ^ (e1 + S) * Ys ≤ Xs * 2 ^ S).
  { replace (Xs * 2 ^ S)
      with (Z.pos mx * 2 ^ (ex - ey - e1) * (2 ^ (e1 + S) * 2 ^ (ey + S))).
    2:{ unfold Xs. rewrite <- !Z.mul_assoc. f_equal.
        rewrite <- !Z.pow_add_r by lia. f_equal. lia. }
    unfold Ys. nia. }
  assert (HeB : e1 ≤ B - 53).
  { { destruct (Z.le_gt_cases (d1 + ex - (d2 + ey)) B); [lia|exfalso].
      assert (Hx1 : 2 ^ (d1 - 1) ≤ Z.pos mx) by (by apply Zdigits2_lower).
      assert (Hy1 : Z.pos my < 2 ^ d2) by (apply Zdigits2_le_iff; lia).
      assert (Hp : 2 ^ (d2 + (ey + S) + B) ≤ 2 ^ ((d1 - 1) + (ex + S)))
        by (apply Z.pow_le_mono_r; lia).
      rewrite (pow2_split (d1 - 1) (ex + S)), (pow2_split (d2 + (ey + S)) B),
        (pow2_split d2 (ey + S)) in Hp by lia.
      assert (Ha : 0 < 2 ^ (ex + S)) by (apply Z.pow_pos_nonneg; lia).
      unfold Xs, Ys in Hlt.
      assert (A1 : 2 ^ (d1 - 1) * 2 ^ (ex + S) ≤ Z.pos mx * 2 ^ (ex + S))
        by (apply Z.mul_le_mono_nonneg_r; lia).
      assert (Hcd : 0 < 2 ^ (ey + S) * 2 ^ B) by (apply Z.mul_pos_pos; lia).
      assert (A2 : Z.pos my * (2 ^ (ey + S) * 2 ^ B)
                   < 2 ^ d2 * (2 ^ (ey + S) * 2 ^ B))
        by (apply Z.mul_lt_mono_pos_r; lia).
      lia. } }
  assert (HqB : Zdigits2 q + e1 ≤ B).
  { assert (Zdigits2 q ≤ B - e1); [|lia].
    apply Zdigits2_le_iff; [lia..|].
    assert (Hlt2 : q * 2 ^ (e1 + S) * Ys < 2 ^ (B - e1) * 2 ^ (e1 + S) * Ys).
    { rewrite <- (pow2_split (B - e1) (e1 + S)) by lia.
      replace (B - e1 + (e1 + S)) with (B + S) by lia.
      rewrite (pow2_split B S) by lia.
      eapply Z.le_lt_trans; [exact Hval|]. unfold Xs in *.
      replace (2 ^ B * 2 ^ S * Ys) with (Ys * 2 ^ B * 2 ^ S) by lia.
      apply Z.mul_lt_mono_pos_r; lia. }
    apply Z.mul_lt_mono_pos_r in Hlt2; [|done].
    by apply Z.mul_lt_mono_pos_r in Hlt2. }
  destruct (binary_round_aux_spec false q e1 (new_location (Z.pos my) r) B)
    as (m & e & Hres & Hm & Hdm' & HE & Hle & _); [lia..|].
  rewrite fexp_b64 in HE, Hle. rewrite Hres.
  remember (Z.max e1 (Z.max (Zdigits2 q + e1 - 53) (-1074))) as E eqn:HEdef.
  assert (HEe : e1 ≤ E ∧ E ≤ e ∧ E ≤ B - 53 ∧ -2045 ≤ e1 ∧ -1074 ≤ e)
    by (clear - He1 HE HeB HqB Hvx Hvy HB HEdef; lia).
  clear HEdef He1 HE Hvx Hvy HqB HeB Hdm' Hres Hdm Hr Hqm Hq0 H2 Hm1 Hlt.
  split_and!.
  - by apply float_of_nonneg.
  - destruct m; cbn; [done|lia|done].
  - rewrite float_of_scaled by done.
    assert (0 < 2 ^ (e - e1)) by (apply Z.pow_pos_nonneg; lia).
    assert (HEB : 2 ^ (E + S) ≤ 2 ^ (B - 53 + S)) by (apply Z.pow_le_mono_r; lia).
    assert (Hme : m * 2 ^ (e + S) ≤ q * 2 ^ (e1 + S) + 2 ^ (E + S)).
    { replace (e + S) with ((e - e1) + (e1 + S)) by lia.
      replace (E + S) with ((E - e1) + (e1 + S)) by lia.
      rewrite (pow2_split (e - e1) (e1 + S)), (pow2_split (E - e1) (e1 + S))
        by lia.
      assert (m * 2 ^ (e - e1) * 2 ^ (e1 + S)
              ≤ (q + 2 ^ (E - e1)) * 2 ^ (e1 + S))
        by (apply Z.mul_le_mono_nonneg_r; lia).
      lia. }
    assert (m * 2 ^ (e + S) * Ys ≤ (q * 2 ^ (e1 + S) + 2 ^ (E + S)) * Ys)
      by (apply Z.mul_le_mono_nonneg_r; lia).
    assert (2 ^ (E + S) * Ys ≤ 2 ^ (B - 53 + S) * Ys)
      by (apply Z.mul_le_mono_nonneg_r; lia).
    lia.
Qed.

(** A canonical double below 3600 is at least one unit of [2^-41] below. *)
Lemma b64_regular_below_3600 (x : spec_float) :
  b64_regular x → b64_scaled S x < 3600 * 2 ^ S →
  b64_scaled S x + 2 ^ (S - 41) ≤ 3600 * 2 ^ S.
Proof.
  assert (H2S : 2 ^ S = 2 ^ 41 * 2 ^ (S - 41))
    by (rewrite <- pow2_split by lia; f_equal; lia).
  assert (H41 : 0 < 2 ^ (S - 41)) by (apply Z.pow_pos_nonneg; lia).
  assert (H2p : (2 ^ 41 = 2199023255552)%Z) by done.
  destruct x as [s|s| |s m e]; intros [Hv Hn] Hlt; try done.
  { cbn [b64_scaled]. lia. }
  apply valid_binary_fexp in Hv. cbn [b64_scaled] in *.
  pose proof (Zdigits2_pos m) as Hd.
  destruct (Z.le_gt_cases (-41) e) as [He|He].
  - replace (e + S) with ((e + 41) + (S - 41)) in * by lia.
    rewrite (pow2_split (e + 41) (S - 41)) in * by lia.
    assert (0 < 2 ^ (e + 41)) by (apply Z.pow_pos_nonneg; lia).
    assert (Z.pos m * 2 ^ (e + 41) < 3600 * 2 ^ 41) by nia.
    nia.
  - assert (Hm : Z.pos m < 2 ^ Zdigits2 (Z.pos m))
      by (apply Zdigits2_le_iff; lia).
    assert (Hp : 2 ^ (Zdigits2 (Z.pos m) + (e + S)) ≤ 2 ^ (11 + S))
      by (apply Z.pow_le_mono_r; lia).
    rewrite (pow2_split (Zdigits2 (Z.pos m)) (e + S)),
      (pow2_split 11 S) in Hp by lia.
    assert (0 < 2 ^ (e + S)) by (apply Z.pow_pos_nonneg; lia).
    assert (Z.pos m * 2 ^ (e + S) ≤ 2 ^ Zdigits2 (Z.pos m) * 2 ^ (e + S))
      by (apply Z.mul_le_mono_nonneg_r; lia).
    change (2 ^ 11) with 2048 in Hp. lia.
Qed.

(** Small whole numbers convert exactly. *)
Lemma of_int_exact (n : Z) :
  0 ≤ n < 2 ^ 53 →
  ∃ y : spec_float,
    B64.of_int n = Ok y ∧ b64_regular y ∧ b64_scaled S y = n * 2 ^ S.
Proof.
  intros Hn. unfold B64.of_int, B64.prec, B64.emax.
  destruct (binary_normalize_exact n 0) as [Hreg Hsc]; [lia| |lia| |].
  - apply Zdigits2_le_iff; lia.
  - assert (Zdigits2 n ≤ 53) by (apply Zdigits2_le_iff; lia). lia.
  - rewrite Z.add_0_l in Hsc.
    destruct (binary_normalize 53 1024 n 0 false) as [s|s| |s m e] eqn:En;
      try (by destruct Hreg); by eexists.
Qed.

(** A subtraction that leaves less than one is exact. *)
Lemma SFsub_scaled (x y : spec_float) :
  b64_regular x → b64_regular y →
  b64_scaled S y ≤ b64_scaled S x → b64_scaled S x - b64_scaled S y < 2 ^ S →
  b64_scaled S y = 0 ∨ 2 ^ S ≤ b64_scaled S y →
  b64_regular (SFsub 53 1024 x y) ∧
  b64_scaled S (SFsub 53 1024 x y) = b64_scaled S x - b64_scaled S y.
Proof.
  assert (H2S : 0 < 2 ^ S) by (apply Z.pow_pos_nonneg; lia).
  intros [Hvx Hnx] [Hvy Hny] Hle Hlt Hy1.
  destruct x as [sx|sx| |sx mx ex], y as [sy|sy| |sy my ey]; try done.
  - cbn [SFsub]. by destruct sx, sy.
  - exfalso. apply valid_binary_fexp in Hvy. cbn [b64_scaled] in Hle.
    assert (0 < 2 ^ (ey + S)) by (apply Z.pow_pos_nonneg; lia). lia.
  - cbn [SFsub b64_scaled]. split; [done|lia].
  - cbn [b64_nonneg] in Hnx, Hny. subst sx sy.
    apply valid_binary_fexp in Hvx, Hvy. cbn [b64_scaled] in *.
    assert (HxS : 0 < 2 ^ (ex + S)) by (apply Z.pow_pos_nonneg; lia).
    assert (HyS : 0 < 2 ^ (ey + S)) by (apply Z.pow_pos_nonneg; lia).
    destruct Hy1 as [Hy1|Hy1]; [lia|].
    pose proof (Zdigits2_pos mx) as Hdx. pose proof (Zdigits2_pos my) as Hdy.
    (* both operands are at least one, hence their exponents at least -52 *)
    assert (Hey : -52 ≤ ey).
    { assert (Hm : Z.pos my < 2 ^ Zdigits2 (Z.pos my))
        by (apply Zdigits2_le_iff; lia).
      destruct (Z.le_gt_cases 1 (Zdigits2 (Z.pos my) + ey)); [lia|exfalso].
      assert (Hp : 2 ^ (Zdigits2 (Z.pos my) + (ey + S)) ≤ 2 ^ S)
        by (apply Z.pow_le_mono_r; lia).
      rewrite (pow2_split (Zdigits2 (Z.pos my)) (ey + S)) in Hp by lia.
      assert (Z.pos my * 2 ^ (ey + S) < 2 ^ Zdigits2 (Z.pos my) * 2 ^ (ey + S))
        by (apply Z.mul_lt_mono_pos_r; lia).
      lia. }
    assert (Hex : -52 ≤ ex).
    { assert (Hm : Z.pos mx < 2 ^ Zdigits2 (Z.pos mx))
        by (apply Zdigits2_le_iff; lia).
      destruct (Z.le_gt_cases 1 (Zdigits2 (Z.pos mx) + ex)); [lia|exfalso].
      assert (Hp : 2 ^ (Zdigits2 (Z.pos mx) + (ex + S)) ≤ 2 ^ S)
        by (apply Z.pow_le_mono_r; lia).
      rewrite (pow2_split (Zdigits2 (Z.pos mx)) (ex + S)) in Hp by lia.
      assert (Z.pos mx * 2 ^ (ex + S) < 2 ^ Zdigits2 (Z.pos mx) * 2 ^ (ex + S))
        by (apply Z.mul_lt_mono_pos_r; lia).
      lia. }
    cbn [SFsub cond_Zopp]. set (ez := Z.min ex ey).
    pose proof (shl_align_spec mx ex ez) as Ha.
    pose proof (shl_align_spec my ey ez) as Hb.
    destruct (shl_align mx ex ez) as [ma ea], (shl_align my ey ez) as [mb eb].
    cbn [fst]. destruct Ha as (Hea & Hma & _), Hb as (Heb & Hmb & _).
    assert (Hez : ez ≤ ex ∧ ez ≤ ey ∧ -52 ≤ ez) by lia.
    replace ea with ez in * by lia. replace eb with ez in * by lia.
    assert (HzS : 0 < 2 ^ (ez + S)) by (apply Z.pow_pos_nonneg; lia).
    assert (Hxa : Z.pos mx * 2 ^ (ex + S) = Z.pos ma * 2 ^ (ez + S)).
    { rewrite Hma, <- Z.mul_assoc, <- pow2_split by lia. do 2 f_equal. lia. }
    assert (Hyb : Z.pos my * 2 ^ (ey + S) = Z.pos mb * 2 ^ (ez + S)).
    { rewrite Hmb, <- Z.mul_assoc, <- pow2_split by lia. do 2 f_equal. lia. }
    rewrite Hxa, Hyb in *.
    set (n := Z.pos ma - Z.pos mb).
    assert (Hn0 : 0 ≤ n) by (unfold n; nia).
    assert (Hnv : n * 2 ^ (ez + S) < 2 ^ S) by (unfold n; lia).
    assert (Hdn : Zdigits2 n ≤ 53 ∧ Zdigits2 n + ez ≤ 1023).
    { destruct (Z.le_gt_cases ez 0).
      - assert (Zdigits2 n ≤ - ez); [|lia].
        apply Zdigits2_le_iff; [lia..|].
        replace S with (- ez + (ez + S)) in Hnv at 2 by lia.
        rewrite (pow2_split (- ez) (ez + S)) in Hnv by lia.
        by apply Z.mul_lt_mono_pos_r in Hnv.
      - assert (Hn : n = 0).
        { assert (2 ^ S ≤ 2 ^ (ez + S)) by (apply Z.pow_le_mono_r; lia).
          destruct (Z.eq_dec n 0); [done|]. nia. }
        rewrite Hn. cbn [Zdigits2]. lia. }
    pose proof (Zdigits2_nonneg n).
    destruct (binary_normalize_exact n ez) as [Hreg Hsc]; [lia..|].
    split; [done|]. rewrite Hsc. unfold n. lia.
Qed.

(** Multiplication by 1000 of a double below one. *)
Lemma SFmul_1000_scaled (x : spec_float) :
  b64_regular x → b64_scaled S x < 2 ^ S →
  let y := S754_finite false 8796093022208000 (-43) in
  b64_nonneg (SFmul 53 1024 x y) ∧
  b64_exponent_from (-1200) (SFmul 53 1024 x y) ∧
  b64_scaled S (SFmul 53 1024 x y) ≤ 1000 * b64_scaled S x + 2 ^ (S - 43).
Proof.
  assert (H43 : 0 < 2 ^ (S - 43)) by (apply Z.pow_pos_nonneg; lia).
  intros [Hv Hn] Hlt y. unfold y. clear y.
  destruct x as [s|s| |s mx ex]; try done.
  { cbn. split_and!; [done..|lia]. }
  cbn [b64_nonneg] in Hn. subst s. apply valid_binary_fexp in Hv.
  cbn [b64_scaled] in *. cbn [SFmul xorb].
  pose proof (Zdigits2_pos mx) as Hdx.
  assert (HxS : 0 < 2 ^ (ex + S)) by (apply Z.pow_pos_nonneg; lia).
  assert (Hx0 : Zdigits2 (Z.pos mx) + ex ≤ 0).
  { destruct (Z.le_gt_cases (Zdigits2 (Z.pos mx) + ex) 0); [done|exfalso].
    pose proof (Zdigits2_lower (Z.pos mx) ltac:(lia)) as Hlo.
    assert (Hp : 2 ^ S ≤ 2 ^ ((Zdigits2 (Z.pos mx) - 1) + (ex + S)))
      by (apply Z.pow_le_mono_r; lia).
    rewrite (pow2_split (Zdigits2 (Z.pos mx) - 1) (ex + S)) in Hp by lia.
    assert (2 ^ (Zdigits2 (Z.pos mx) - 1) * 2 ^ (ex + S)
            ≤ Z.pos mx * 2 ^ (ex + S))
      by (apply Z.mul_le_mono_nonneg_r; lia).
    lia. }
  set (my := 8796093022208000%positive).
  assert (Hmy : Z.pos my = 1000 * 2 ^ 43) by done.
  assert (Hdy : Zdigits2 (Z.pos my) = 53) by done.
  pose proof (Zdigits2_mul (Z.pos mx) (Z.pos my) ltac:(lia) ltac:(lia)) as Hdm.
  rewrite Pos2Z.inj_mul.
  destruct (binary_round_aux_spec false (Z.pos mx * Z.pos my) (ex + -43)
              loc_Exact 10) as (m & e & Hres & Hm & _ & HE & Hle & _);
    [lia..|].
  rewrite fexp_b64 in HE, Hle. rewrite Hres.
  set (E := Z.max (ex + -43) (Z.max (Zdigits2 (Z.pos mx * Z.pos my) + (ex + -43) - 53) (-1074))) in *.
  split_and!.
  - by apply float_of_nonneg.
  - destruct m; cbn; lia.
  - rewrite float_of_scaled by done.
    set (c := 2 ^ (ex + -43 + S)).
    assert (Hc : 0 < c) by (apply Z.pow_pos_nonneg; lia).
    assert (H1 : m * 2 ^ (e - (ex + -43)) * c
                 ≤ (Z.pos mx * Z.pos my + 2 ^ (E - (ex + -43))) * c)
      by (apply Z.mul_le_mono_nonneg_r; lia).
    assert (H2 : m * 2 ^ (e + S) = m * 2 ^ (e - (ex + -43)) * c).
    { unfold c. rewrite <- Z.mul_assoc, <- pow2_split by lia.
      do 2 f_equal. lia. }
    assert (H3 : 2 ^ (E - (ex + -43)) * c = 2 ^ (E + S)).
    { unfold c. rewrite <- pow2_split by lia. f_equal. lia. }
    assert (H4 : Z.pos my * c = 1000 * 2 ^ (ex + S)).
    { unfold c. rewrite Hmy, <- Z.mul_assoc, <- pow2_split by lia.
      do 2 f_equal. lia. }
    assert (H5 : 2 ^ (E + S) ≤ 2 ^ (S - 43)) by (apply Z.pow_le_mono_r; lia).
    rewrite H2. nia.
Qed.

(** Division does not round below a whole number that the exact quotient
    reaches. *)
Lemma SFdiv_scaled_lower (x : spec_float) (my : positive) (ey : Z) (B k : Z) :
  b64_regular x → b64_regular (S754_finite false my ey) →
  b64_scaled S x < Z.pos my * 2 ^ (ey + S) * 2 ^ B → 0 ≤ B ≤ 52 →
  0 ≤ k → k * (Z.pos my * 2 ^ (ey + S)) ≤ b64_scaled S x →
  k * 2 ^ S ≤ b64_scaled S (SFdiv 53 1024 x (S754_finite false my ey)).
Proof.
  intros [Hvx Hnx] [Hvy _] Hlt HB Hk Hge.
  apply valid_binary_fexp in Hvy.
  assert (H2S : 0 < 2 ^ S) by (apply Z.pow_pos_nonneg; lia).
  assert (H2B : 0 < 2 ^ B) by (apply Z.pow_pos_nonneg; lia).
  assert (HyS : 0 < 2 ^ (ey + S)) by (apply Z.pow_pos_nonneg; lia).
  set (Ys := Z.pos my * 2 ^ (ey + S)) in *.
  assert (HYs : 0 < Ys) by (unfold Ys; nia).
  destruct x as [s|s| |sx mx ex]; try done.
  { cbn [b64_scaled] in Hge. assert (k = 0) as -> by nia.
    rewrite Z.mul_0_l. apply b64_scaled_nonneg. }
  cbn [b64_nonneg] in Hnx. subst sx. apply valid_binary_fexp in Hvx.
  cbn [b64_scaled] in Hlt, Hge. cbn [SFdiv xorb]. unfold SFdiv_core_binary.
  set (d1 := Zdigits2 (Z.pos mx)) in *. set (d2 := Zdigits2 (Z.pos my)) in *.
  assert (0 < d1) by apply Zdigits2_pos. assert (0 < d2) by apply Zdigits2_pos.
  set (e1 := Z.min (fexp 53 1024 (d1 + ex - (d2 + ey))) (ex - ey)).
  assert (He1 : e1 = Z.min (Z.max (d1 + ex - (d2 + ey) - 53) (-1074)) (ex - ey))
    by done.
  clearbody e1.
  set (m1 := match ex - ey - e1 with
             | 0 => Z.pos mx | Z.pos _ => Z.pos mx ≪ (ex - ey - e1) | Z.neg _ => 0
             end).
  assert (Hm1 : m1 = Z.pos mx * 2 ^ (ex - ey - e1)).
  { unfold m1. destruct (ex - ey - e1) as [|p|p] eqn:Es; [lia| |lia].
    apply Z.shiftl_mul_pow2. lia. }
  clearbody m1.
  assert (H2 : 0 < 2 ^ (ex - ey - e1)) by (apply Z.pow_pos_nonneg; lia).
  pose proof (Z_div_mod m1 (Z.pos my) eq_refl) as Hdm.
  assert (Hqdef : (Z.div_eucl m1 (Z.pos my)).1 = m1 / Z.pos my) by done.
  destruct (Z.div_eucl m1 (Z.pos my)) as [q r]. destruct Hdm as [Hdm Hr].
  cbn [fst] in Hqdef.
  assert (Hq0 : 0 ≤ q) by nia.
  assert (Hqm : q * Z.pos my ≤ Z.pos mx * 2 ^ (ex - ey - e1)) by nia.
  assert (He1S : 0 < 2 ^ (e1 + S)) by (apply Z.pow_pos_nonneg; lia).
  set (Xs := Z.pos mx * 2 ^ (ex + S)) in *.
  assert (Hval : q * 2 ^ (e1 + S) * Ys ≤ Xs * 2 ^ S).
  { replace (Xs * 2 ^ S)
      with (Z.pos mx * 2 ^ (ex - ey - e1) * (2 ^ (e1 + S) * 2 ^ (ey + S))).
    2:{ unfold Xs. rewrite <- !Z.mul_assoc. f_equal.
        rewrite <- !Z.pow_add_r by lia. f_equal. lia. }
    unfold Ys. nia. }
  assert (HeB : e1 ≤ B - 53).
  { destruct (Z.le_gt_cases (d1 + ex - (d2 + ey)) B); [lia|exfalso].
    assert (Hx1 : 2 ^ (d1 - 1) ≤ Z.pos mx) by (by apply Zdigits2_lower).
    assert (Hy1 : Z.pos my < 2 ^ d2) by (apply Zdigits2_le_iff; lia).
    assert (Hp : 2 ^ (d2 + (ey + S) + B) ≤ 2 ^ ((d1 - 1) + (ex + S)))
      by (apply Z.pow_le_mono_r; lia).
    rewrite (pow2_split (d1 - 1) (ex + S)), (pow2_split (d2 + (ey + S)) B),
      (pow2_split d2 (ey + S)) in Hp by lia.
    assert (Ha : 0 < 2 ^ (ex + S)) by (apply Z.pow_pos_nonneg; lia).
    unfold Xs, Ys in Hlt.
    assert (A1 : 2 ^ (d1 - 1) * 2 ^ (ex + S) ≤ Z.pos mx * 2 ^ (ex + S))
      by (apply Z.mul_le_mono_nonneg_r; lia).
    assert (Hcd : 0 < 2 ^ (ey + S) * 2 ^ B) by (apply Z.mul_pos_pos; lia).
    assert (A2 : Z.pos my * (2 ^ (ey + S) * 2 ^ B)
                 < 2 ^ d2 * (2 ^ (ey + S) * 2 ^ B))
      by (apply Z.mul_lt_mono_pos_r; lia).
    lia. }
  assert (HqB : Zdigits2 q + e1 ≤ B).
  { assert (Zdigits2 q ≤ B - e1); [|lia].
    apply Zdigits2_le_iff; [lia..|].
    assert (Hlt2 : q * 2 ^ (e1 + S) * Ys < 2 ^ (B - e1) * 2 ^ (e1 + S) * Ys).
    { rewrite <- (pow2_split (B - e1) (e1 + S)) by lia.
      replace (B - e1 + (e1 + S)) with (B + S) by lia.
      rewrite (pow2_split B S) by lia.
      eapply Z.le_lt_trans; [exact Hval|]. unfold Xs in *.
      replace (2 ^ B * 2 ^ S * Ys) with (Ys * 2 ^ B * 2 ^ S) by lia.
      apply Z.mul_lt_mono_pos_r; lia. }
    apply Z.mul_lt_mono_pos_r in Hlt2; [|done].
    by apply Z.mul_lt_mono_pos_r in Hlt2. }
  destruct (binary_round_aux_spec false q e1 (new_location (Z.pos my) r) B)
    as (m & e & Hres & Hm & _ & HE & _ & _ & Hlow & Hup); [lia..|].
  rewrite fexp_b64 in HE, Hup. rewrite Hres.
  remember (Z.max e1 (Z.max (Zdigits2 q + e1 - 53) (-1074))) as E eqn:HEdef.
  assert (HEe : e1 ≤ e ∧ e ≤ 0 ∧ e1 ≤ 0 ∧ -2045 ≤ e1 ∧ -1074 ≤ ey ∧
                -1074 ≤ ex ∧ 0 ≤ ex - ey - e1 ∧ -2148 ≤ ey + e1)
    by (clear - He1 HE HeB HqB Hvx Hvy HB HEdef Hup; lia).
  clear HEdef He1 HE Hup Hvx Hvy HqB HeB Hres Hr Hval Hlt H2B.
  rewrite float_of_scaled by done.
  (* the quotient of the mantissas reaches [k * 2^-e1] *)
  assert (Hc : 0 < 2 ^ (ey + e1 + S)) by (apply Z.pow_pos_nonneg; lia).
  assert (Hne1 : 0 < 2 ^ (- e1)) by (apply Z.pow_pos_nonneg; lia).
  assert (Hne : 0 < 2 ^ (- e)) by (apply Z.pow_pos_nonneg; lia).
  assert (Hee1 : 0 < 2 ^ (e - e1)) by (apply Z.pow_pos_nonneg; lia).
  assert (HXs : Xs = m1 * 2 ^ (ey + e1 + S)).
  { unfold Xs. rewrite Hm1, <- Z.mul_assoc, <- pow2_split by lia.
    do 2 f_equal. lia. }
  assert (HYs' : Ys = Z.pos my * 2 ^ (- e1) * 2 ^ (ey + e1 + S)).
  { unfold Ys. rewrite <- Z.mul_assoc, <- pow2_split by lia.
    do 2 f_equal. lia. }
  assert (Hkm : Z.pos my * (k * 2 ^ (- e1)) ≤ m1).
  { rewrite HXs, HYs' in Hge.
    apply (Z.mul_le_mono_pos_r _ _ (2 ^ (ey + e1 + S))); [done|]. lia. }
  assert (Hkq : k * 2 ^ (- e1) ≤ q).
  { rewrite Hqdef. apply Z.div_le_lower_bound; [lia|done]. }
  assert (Hk2 : k * 2 ^ (- e1) = k * 2 ^ (- e) * 2 ^ (e - e1)).
  { rewrite <- Z.mul_assoc, <- pow2_split by lia. do 2 f_equal. lia. }
  assert (Hkm' : k * 2 ^ (- e) ≤ m).
  { etrans; [|exact Hlow].
    apply Z.div_le_lower_bound; [done|]. lia. }
  assert (H2S' : 2 ^ S = 2 ^ (- e) * 2 ^ (e + S)).
  { rewrite <- pow2_split by lia. f_equal. lia. }
  assert (HeS : 0 < 2 ^ (e + S)) by (apply Z.pow_pos_nonneg; lia).
  rewrite H2S'. rewrite Z.mul_assoc.
  apply Z.mul_le_mono_nonneg_r; lia.
Qed.



(** Division rounds to nearest: the quotient is within half a unit in the
    last place of the exact quotient. *)
Lemma SFdiv_scaled_nearest (x : spec_float) (my : positive) (ey : Z) (B : Z) :
  b64_regular x → b64_regular (S754_finite false my ey) →
  b64_scaled S x < Z.pos my * 2 ^ (ey + S) * 2 ^ B → 0 ≤ B ≤ 971 →
  2 * (b64_scaled S (SFdiv 53 1024 x (S754_finite false my ey))
       * (Z.pos my * 2 ^ (ey + S)))
  ≤ 2 * (b64_scaled S x * 2 ^ S) + Z.pos my * 2 ^ (ey + S) * 2 ^ (B - 53 + S).
Proof.
  intros [Hvx Hnx] [Hvy _] Hlt HB.
  apply valid_binary_fexp in Hvy.
  assert (H2S : 0 < 2 ^ S) by (apply Z.pow_pos_nonneg; lia).
  assert (H2B : 0 < 2 ^ B) by (apply Z.pow_pos_nonneg; lia).
  assert (HyS : 0 < 2 ^ (ey + S)) by (apply Z.pow_pos_nonneg; lia).
  assert (HBS : 0 < 2 ^ (B - 53 + S)) by (apply Z.pow_pos_nonneg; lia).
  set (Ys := Z.pos my * 2 ^ (ey + S)) in *.
  assert (HYs : 0 < Ys) by (unfold Ys; nia).
  destruct x as [s|s| |sx mx ex]; try done.
  { cbn [SFdiv b64_scaled]. rewrite !Z.mul_0_l, Z.mul_0_r, Z.add_0_l.
    apply Z.mul_nonneg_nonneg; lia. }
  cbn [b64_nonneg] in Hnx. subst sx. apply valid_binary_fexp in Hvx.
  cbn [b64_scaled] in *. cbn [SFdiv xorb]. unfold SFdiv_core_binary.
  set (d1 := Zdigits2 (Z.pos mx)) in *. set (d2 := Zdigits2 (Z.pos my)) in *.
  assert (0 < d1) by apply Zdigits2_pos. assert (0 < d2) by apply Zdigits2_pos.
  set (e1 := Z.min (fexp 53 1024 (d1 + ex - (d2 + ey))) (ex - ey)).
  assert (He1 : e1 = Z.min (Z.max (d1 + ex - (d2 + ey) - 53) (-1074)) (ex - ey))
    by done.
  clearbody e1.
  set (m1 := match ex - ey - e1 with
             | 0 => Z.pos mx | Z.pos _ => Z.pos mx ≪ (ex - ey - e1) | Z.neg _ => 0
             end).
  assert (Hm1 : m1 = Z.pos mx * 2 ^ (ex - ey - e1)).
  { unfold m1. destruct (ex - ey - e1) as [|p|p] eqn:Es; [lia| |lia].
    apply Z.shiftl_mul_pow2. lia. }
  clearbody m1.
  assert (H2 : 0 < 2 ^ (ex - ey - e1)) by (apply Z.pow_pos_nonneg; lia).
  pose proof (Z_div_mod m1 (Z.pos my) eq_refl) as Hdm.
  destruct (Z.div_eucl m1 (Z.pos my)) as [q r]. destruct Hdm as [Hdm Hr].
  assert (Hq0 : 0 ≤ q) by nia.
  assert (Hqm : q * Z.pos my ≤ Z.pos mx * 2 ^ (ex - ey - e1)) by nia.
  assert (He1S : 0 < 2 ^ (e1 + S)) by (apply Z.pow_pos_nonneg; lia).
  set (Xs := Z.pos mx * 2 ^ (ex + S)) in *.
  assert (HXm : Xs * 2 ^ S = m1 * (2 ^ (e1 + S) * 2 ^ (ey + S))).
  { unfold Xs. rewrite Hm1, <- !Z.mul_assoc. f_equal.
    rewrite <- !Z.pow_add_r by lia. f_equal. lia. }
  assert (Hval : q * 2 ^ (e1 + S) * Ys ≤ Xs * 2 ^ S).
  { rewrite HXm. unfold Ys.
    replace (q * 2 ^ (e1 + S) * (Z.pos my * 2 ^ (ey + S)))
      with (q * Z.pos my * (2 ^ (e1 + S) * 2 ^ (ey + S))) by ring.
    apply Z.mul_le_mono_nonneg_r; [|lia].
    apply Z.mul_nonneg_nonneg; lia. }
  assert (HeB : e1 ≤ B - 53).
  { destruct (Z.le_gt_cases (d1 + ex - (d2 + ey)) B); [lia|exfalso].
    assert (Hx1 : 2 ^ (d1 - 1) ≤ Z.pos mx) by (by apply Zdigits2_lower).
    assert (Hy1 : Z.pos my < 2 ^ d2) by (apply Zdigits2_le_iff; lia).
    assert (Hp : 2 ^ (d2 + (ey + S) + B) ≤ 2 ^ ((d1 - 1) + (ex + S)))
      by (apply Z.pow_le_mono_r; lia).
    rewrite (pow2_split (d1 - 1) (ex + S)), (pow2_split (d2 + (ey + S)) B),
      (pow2_split d2 (ey + S)) in Hp by lia.
    assert (Ha : 0 < 2 ^ (ex + S)) by (apply Z.pow_pos_nonneg; lia).
    unfold Xs, Ys in Hlt.
    assert (A1 : 2 ^ (d1 - 1) * 2 ^ (ex + S) ≤ Z.pos mx * 2 ^ (ex + S))
      by (apply Z.mul_le_mono_nonneg_r; lia).
    assert (Hcd : 0 < 2 ^ (ey + S) * 2 ^ B) by (apply Z.mul_pos_pos; lia).
    assert (A2 : Z.pos my * (2 ^ (ey + S) * 2 ^ B)
                 < 2 ^ d2 * (2 ^ (ey + S) * 2 ^ B))
      by (apply Z.mul_lt_mono_pos_r; lia).
    lia. }
  assert (HqB : Zdigits2 q + e1 ≤ B).
  { assert (Zdigits2 q ≤ B - e1); [|lia].
    apply Zdigits2_le_iff; [lia..|].
    assert (Hlt2 : q * 2 ^ (e1 + S) * Ys < 2 ^ (B - e1) * 2 ^ (e1 + S) * Ys).
    { rewrite <- (pow2_split (B - e1) (e1 + S)) by lia.
      replace (B - e1 + (e1 + S)) with (B + S) by lia.
      rewrite (pow2_split B S) by lia.
      eapply Z.le_lt_trans; [exact Hval|]. unfold Xs in *.
      replace (2 ^ B * 2 ^ S * Ys) with (Ys * 2 ^ B * 2 ^ S) by lia.
      apply Z.mul_lt_mono_pos_r; lia. }
    apply Z.mul_lt_mono_pos_r in Hlt2; [|done].
    by apply Z.mul_lt_mono_pos_r in Hlt2. }
  pose proof (new_location_located q r (Z.pos my) ltac:(lia) Hr) as Hloc.
  rewrite <- Hdm in Hloc.
  destruct (binary_round_aux_nearest false q e1 (new_location (Z.pos my) r) B
              m1 (Z.pos my))
    as (m & e & Hres & Hm & HE & He971 & Hup & _); [lia|lia|done|lia..|].
  rewrite fexp_b64 in HE, Hup. rewrite Hres.
  remember (Z.max e1 (Z.max (Zdigits2 q + e1 - 53) (-1074))) as E eqn:HEdef.
  assert (HEe : e1 ≤ E ∧ E ≤ e ∧ E ≤ B - 53 ∧ -2045 ≤ e1 ∧ -1074 ≤ e)
    by (clear - He1 HE HeB HqB Hvx Hvy HB HEdef; lia).
  clear HEdef He1 HE Hvx Hvy HqB HeB Hres Hdm Hr Hqm Hq0 H2 Hm1 Hlt Hloc Hval.
  rewrite float_of_scaled by done.
  assert (HEB : 2 ^ (E + S) ≤ 2 ^ (B - 53 + S)) by (apply Z.pow_le_mono_r; lia).
  assert (H1 : m * 2 ^ (e + S) = m * 2 ^ (e - e1) * 2 ^ (e1 + S)).
  { rewrite <- Z.mul_assoc, <- pow2_split by lia. do 2 f_equal. lia. }
  assert (H3 : 2 ^ (E + S) = 2 ^ (E - e1) * 2 ^ (e1 + S)).
  { rewrite <- pow2_split by lia. f_equal. lia. }
  rewrite H1, HXm. unfold Ys.
  set (a := m * 2 ^ (e - e1)) in *. set (u := 2 ^ (E - e1)) in *.
  set (c1 := 2 ^ (e1 + S)) in *. set (c2 := 2 ^ (ey + S)) in *.
  assert (Hc12 : 0 < c1 * c2) by (by apply Z.mul_pos_pos).
  assert (Hmul : (2 * a * Z.pos my) * (c1 * c2)
                 ≤ (2 * m1 + u * Z.pos my) * (c1 * c2))
    by (apply Z.mul_le_mono_nonneg_r; lia).
  assert (Hu : u * c1 * (Z.pos my * c2) ≤ 2 ^ (B - 53 + S) * (Z.pos my * c2)).
  { apply Z.mul_le_mono_nonneg_r; [|lia].
    apply Z.mul_nonneg_nonneg; lia. }
  lia.
Qed.


(** A canonical double below [2^53] has a mantissa below [2^53] and an
    exponent that is not positive. *)
Lemma b64_regular_small (m : positive) (e : Z) :
  b64_regular (S754_finite false m e) →
  Z.pos m * 2 ^ (e + S) < 2 ^ (53 + S) → e ≤ 0 ∧ Z.pos m < 2 ^ 53.
Proof.
  intros [Hv _] Hlt. apply valid_binary_fexp in Hv.
  pose proof (Zdigits2_pos m) as Hd.
  split.
  - destruct (Z.le_gt_cases e 0) as [|He]; [done|exfalso].
    assert (Hd53 : Zdigits2 (Z.pos m) = 53) by lia.
    pose proof (Zdigits2_lower (Z.pos m) ltac:(lia)) as Hlo.
    rewrite Hd53 in Hlo.
    assert (Hp : 2 ^ (1 + S) ≤ 2 ^ (e + S)) by (apply Z.pow_le_mono_r; lia).
    assert (H53 : 2 ^ (53 + S) = 2 ^ (53 - 1) * 2 ^ (1 + S)).
    { rewrite <- pow2_split by lia. f_equal. lia. }
    assert (0 < 2 ^ (1 + S)) by (apply Z.pow_pos_nonneg; lia).
    assert (2 ^ (53 - 1) * 2 ^ (1 + S) ≤ Z.pos m * 2 ^ (1 + S))
      by (apply Z.mul_le_mono_nonneg_r; lia).
    assert (Z.pos m * 2 ^ (1 + S) ≤ Z.pos m * 2 ^ (e + S))
      by (apply Z.mul_le_mono_nonneg_l; lia).
    lia.
  - apply Zdigits2_le_iff; lia.
Qed.

(** The floor of a quotient by a whole number [c] between [2^t] and
    [2^(t+1)]: below [2^53] the rounding of the division never reaches the
    next whole number. *)
Lemma SFdiv_floor_general (x : spec_float) (c t : Z) (my : positive) (ey : Z) :
  b64_regular x → b64_regular (S754_finite false my ey) →
  Z.pos my * 2 ^ (ey + S) = c * 2 ^ S → 1 ≤ t ≤ 52 → 2 ^ t ≤ c < 2 ^ (t + 1) →
  b64_scaled S x < 2 ^ (53 + S) →
  B64.to_int Qfloor (SFdiv 53 1024 x (S754_finite false my ey))
  = Ok (b64_scaled S x / (c * 2 ^ S)).
Proof.
  intros Hx Hy Hys Ht Hc Hx53.
  assert (H2S : 0 < 2 ^ S) by (apply Z.pow_pos_nonneg; lia).
  assert (H2t : 0 < 2 ^ t) by (apply Z.pow_pos_nonneg; lia).
  assert (HC : 0 < c * 2 ^ S) by (apply Z.mul_pos_pos; lia).
  destruct x as [s|s| |sx mx ex]; try (by destruct Hx).
  pose proof Hx as [_ Hsx]. cbn [b64_nonneg] in Hsx. subst sx.
  cbn [b64_scaled] in Hx53.
  destruct (b64_regular_small mx ex Hx Hx53) as [Hex Hmx].
  pose proof (b64_regular_exponent _ Hx) as Hex'. cbn in Hex'.
  set (x := S754_finite false mx ex) in *.
  set (q := SFdiv 53 1024 x (S754_finite false my ey)).
  assert (HG : 0 < 2 ^ (ex + S)) by (apply Z.pow_pos_nonneg; lia).
  assert (HXs : b64_scaled S x = Z.pos mx * 2 ^ (ex + S)) by done.
  assert (HX53 : b64_scaled S x < 2 ^ 53 * 2 ^ (ex + S))
    by (rewrite HXs; apply Z.mul_lt_mono_pos_r; lia).
  pose proof (Z.mul_div_le (b64_scaled S x) (c * 2 ^ S) HC) as Hk1.
  pose proof (Z.mul_succ_div_gt (b64_scaled S x) (c * 2 ^ S) HC) as Hk2.
  pose proof (b64_scaled_nonneg S x) as Hx0.
  assert (Hk0 : 0 ≤ b64_scaled S x / (c * 2 ^ S)) by (apply Z.div_pos; lia).
  set (k := b64_scaled S x / (c * 2 ^ S)) in *.
  destruct (Z.le_gt_cases 0 (ex + 53 - t)) as [HB|HB].
  - (* the quotient has its last place at [2^(ex - t)] *)
    set (B := ex + 53 - t) in *.
    assert (H2B : 0 < 2 ^ B) by (apply Z.pow_pos_nonneg; lia).
    assert (H53 : 2 ^ 53 * 2 ^ (ex + S) = 2 ^ t * 2 ^ S * 2 ^ B).
    { rewrite <- !pow2_split by lia. f_equal. lia. }
    assert (Hlt : b64_scaled S x < Z.pos my * 2 ^ (ey + S) * 2 ^ B).
    { rewrite Hys. eapply Z.lt_le_trans; [exact HX53|]. rewrite H53.
      apply Z.mul_le_mono_nonneg_r; [lia|].
      apply Z.mul_le_mono_nonneg_r; lia. }
    destruct (SFdiv_scaled x my ey B Hx Hy Hlt ltac:(lia))
      as (Hqn & Hqe & _).
    pose proof (SFdiv_scaled_nearest x my ey B Hx Hy Hlt ltac:(lia)) as Hup.
    pose proof (SFdiv_scaled_lower x my ey B k Hx Hy Hlt ltac:(lia) Hk0)
      as Hlo.
    rewrite Hys in Hup, Hlo. fold q in Hqn, Hqe, Hup, Hlo.
    rewrite (to_int_floor_scaled q Hqn)
      by (by apply (b64_exponent_from_weaken (-1074))).
    f_equal.
    assert (Hlo' : k * 2 ^ S ≤ b64_scaled S q) by (apply Hlo; lia).
    (* the next multiple of the divisor is a whole unit away *)
    assert (HCG : c * 2 ^ S = c * 2 ^ (- ex) * 2 ^ (ex + S)).
    { rewrite <- Z.mul_assoc, <- pow2_split by lia. do 2 f_equal. lia. }
    assert (Hgap : b64_scaled S x + 2 ^ (ex + S) ≤ (k + 1) * (c * 2 ^ S)).
    { rewrite HXs, HCG in *.
      assert (Hm : Z.pos mx * 2 ^ (ex + S)
                   < (k + 1) * (c * 2 ^ (- ex)) * 2 ^ (ex + S)) by lia.
      apply Z.mul_lt_mono_pos_r in Hm; [|done].
      assert ((Z.pos mx + 1) * 2 ^ (ex + S)
              ≤ (k + 1) * (c * 2 ^ (- ex)) * 2 ^ (ex + S))
        by (apply Z.mul_le_mono_nonneg_r; lia).
      lia. }
    assert (Hulp : 2 ^ (B - 53 + S) * 2 ^ (t + 1) = 2 * 2 ^ (ex + S)).
    { rewrite <- pow2_split by lia.
      rewrite <- (Z.pow_succ_r 2 (ex + S)) by lia. f_equal. lia. }
    assert (HP : 0 < 2 ^ (B - 53 + S)) by (apply Z.pow_pos_nonneg; lia).
    assert (Hcu : c * 2 ^ (B - 53 + S) < 2 * 2 ^ (ex + S)).
    { rewrite <- Hulp, (Z.mul_comm c). apply Z.mul_lt_mono_pos_l; lia. }
    assert (Hup' : b64_scaled S q < (k + 1) * 2 ^ S).
    { apply (Z.mul_lt_mono_pos_r (2 * (c * 2 ^ S))); [lia|].
      clear - Hup Hgap Hcu H2S HG HP HC Hlo'.
      set (Q := b64_scaled S q) in *. set (X := b64_scaled S x) in *.
      set (T := 2 ^ S) in *. set (G := 2 ^ (ex + S)) in *.
      set (U := 2 ^ (B - 53 + S)) in *. clearbody Q X T G U.
      assert (X * T + G * T ≤ (k + 1) * (c * T) * T)
        by (rewrite <- Z.mul_add_distr_r; apply Z.mul_le_mono_nonneg_r; lia).
      assert (c * U * T < 2 * G * T) by (apply Z.mul_lt_mono_pos_r; lia).
      lia. }
    symmetry. apply Z.div_unique with (r := b64_scaled S q - k * 2 ^ S); lia.
  - (* the dividend is below the divisor *)
    assert (H53 : 2 ^ 53 * 2 ^ (ex + S) ≤ 2 ^ (t - 1 + S)).
    { rewrite <- pow2_split by lia. apply Z.pow_le_mono_r; lia. }
    assert (HtS : 2 * 2 ^ (t - 1 + S) = 2 ^ t * 2 ^ S).
    { rewrite <- Z.pow_succ_r, <- pow2_split by lia. f_equal. lia. }
    assert (HtC : 2 ^ t * 2 ^ S ≤ c * 2 ^ S)
      by (apply Z.mul_le_mono_nonneg_r; lia).
    assert (Hlt : b64_scaled S x < Z.pos my * 2 ^ (ey + S) * 2 ^ 0).
    { rewrite Hys, Z.pow_0_r. lia. }
    destruct (SFdiv_scaled x my ey 0 Hx Hy Hlt ltac:(lia))
      as (Hqn & Hqe & _).
    pose proof (SFdiv_scaled_nearest x my ey 0 Hx Hy Hlt ltac:(lia)) as Hup.
    rewrite Hys in Hup. fold q in Hqn, Hqe, Hup.
    rewrite (to_int_floor_scaled q Hqn)
      by (by apply (b64_exponent_from_weaken (-1074))).
    f_equal.
    assert (Hk : k = 0) by (apply Z.div_small; lia).
    rewrite Hk. apply Z.div_small. split; [apply b64_scaled_nonneg|].
    assert (HP : 2 ^ (0 - 53 + S) < 2 ^ S) by (apply Z.pow_lt_mono_r; lia).
    apply (Z.mul_lt_mono_pos_r (2 * (c * 2 ^ S))); [lia|].
    clear - Hup H53 HtS HtC HX53 HP HC H2S Hx0.
    set (Q := b64_scaled S q) in *. set (X := b64_scaled S x) in *.
    set (T := 2 ^ S) in *. set (U := 2 ^ (0 - 53 + S)) in *.
    clearbody Q X T U.
    assert (2 * X * T ≤ c * T * T) by (apply Z.mul_le_mono_nonneg_r; lia).
    assert (c * T * U < c * T * T) by (apply Z.mul_lt_mono_pos_l; lia).
    lia.
Qed.


(** [round] of a non-negative double. *)
Lemma to_int_round_value (x : spec_float) :
  b64_nonneg x → b64_exponent_from (-1200) x →
  B64.to_int Qround_half_even x
  = Ok (Qround_half_even (b64_scaled S x # Z.to_pos (2 ^ S))).
Proof.
  destruct x as [s|s| |s m e]; intros Hn He; try done.
  cbn [b64_nonneg] in Hn. subst s. cbn [b64_exponent_from] in He.
  cbn [B64.to_int b64_scaled]. f_equal.
  apply Qround_half_even_comp, Q_of_finite_scaled; [done..].
Qed.

(** The product with 1000 of a double below one: within half a unit of
    [2^-43] of the exact product, and not below a multiple of a half that
    the exact product reaches. *)
Lemma SFmul_1000_nearest (x : spec_float) :
  b64_regular x → b64_scaled S x < 2 ^ S →
  let p := SFmul 53 1024 x (S754_finite false 8796093022208000 (-43)) in
  2 * b64_scaled S p ≤ 2 * (1000 * b64_scaled S x) + 2 ^ (S - 43) ∧
  2 * (1000 * b64_scaled S x) ≤ 2 * b64_scaled S p + 2 ^ (S - 43) ∧
  (∀ k : Z, 0 ≤ k → k * 2 ^ (S - 1) ≤ 1000 * b64_scaled S x →
            k * 2 ^ (S - 1) ≤ b64_scaled S p).
Proof.
  assert (H43 : 0 < 2 ^ (S - 43)) by (apply Z.pow_pos_nonneg; lia).
  intros [Hv Hn] Hlt p. unfold p. clear p.
  destruct x as [s|s| |s mx ex]; try done.
  { cbn [SFmul b64_scaled]. split_and!; [lia..|]. intros k Hk Hle. lia. }
  cbn [b64_nonneg] in Hn. subst s. apply valid_binary_fexp in Hv.
  cbn [b64_scaled] in *. cbn [SFmul xorb].
  pose proof (Zdigits2_pos mx) as Hdx.
  assert (HxS : 0 < 2 ^ (ex + S)) by (apply Z.pow_pos_nonneg; lia).
  assert (Hx0 : Zdigits2 (Z.pos mx) + ex ≤ 0).
  { destruct (Z.le_gt_cases (Zdigits2 (Z.pos mx) + ex) 0); [done|exfalso].
    pose proof (Zdigits2_lower (Z.pos mx) ltac:(lia)) as Hlo.
    assert (Hp : 2 ^ S ≤ 2 ^ ((Zdigits2 (Z.pos mx) - 1) + (ex + S)))
      by (apply Z.pow_le_mono_r; lia).
    rewrite (pow2_split (Zdigits2 (Z.pos mx) - 1) (ex + S)) in Hp by lia.
    assert (2 ^ (Zdigits2 (Z.pos mx) - 1) * 2 ^ (ex + S)
            ≤ Z.pos mx * 2 ^ (ex + S))
      by (apply Z.mul_le_mono_nonneg_r; lia).
    lia. }
  set (my := 8796093022208000%positive).
  assert (Hmy : Z.pos my = 1000 * 2 ^ 43) by done.
  assert (Hdy : Zdigits2 (Z.pos my) = 53) by done.
  pose proof (Zdigits2_mul (Z.pos mx) (Z.pos my) ltac:(lia) ltac:(lia)) as Hdm.
  rewrite Pos2Z.inj_mul.
  set (M := Z.pos mx * Z.pos my) in *.
  assert (HM : 0 ≤ M) by (unfold M; lia).
  set (c := 2 ^ (ex + -43 + S)).
  assert (Hc : 0 < c) by (apply Z.pow_pos_nonneg; lia).
  assert (HMc : M * c = 1000 * (Z.pos mx * 2 ^ (ex + S))).
  { unfold M, c. rewrite Hmy.
    replace (ex + S) with (43 + (ex + -43 + S)) by lia.
    rewrite (pow2_split 43 (ex + -43 + S)) by lia. ring. }
  destruct (binary_round_aux_nearest false M (ex + -43) loc_Exact 10 M 1)
    as (m & e & Hres & Hm & HE & He971 & Hup & Hlo);
    [done|done|apply exact_located|lia..|].
  destruct (binary_round_aux_spec false M (ex + -43) loc_Exact 10)
    as (m' & e' & Hres' & _ & _ & _ & _ & _ & Hlow & _); [lia..|].
  rewrite fexp_b64 in HE, Hup, Hlo.
  assert (Hmm : m' = m ∧ (m = 0 ∨ e' = e)).
  { rewrite Hres in Hres'. destruct m as [|a|a], m' as [|a'|a'];
      cbn [float_of] in Hres'; try done; try lia.
    injection Hres' as <- <-. by split; [|right]. }
  destruct Hmm as [Hmm Hee]. subst m'.
  rewrite Hres. clear Hres Hres'.
  remember (Z.max (ex + -43) (Z.max (Zdigits2 M + (ex + -43) - 53) (-1074)))
    as E eqn:HEdef.
  assert (HEe : ex + -43 ≤ E ∧ E ≤ -43 ∧ -1117 ≤ ex + -43)
    by (clear - HEdef Hdm Hx0 Hv Hdy; lia).
  clear HEdef Hdm Hx0 Hv Hdy Hmy Hlt.
  rewrite float_of_scaled by done.
  assert (H2 : m * 2 ^ (e + S) = m * 2 ^ (e - (ex + -43)) * c).
  { unfold c. rewrite <- Z.mul_assoc, <- pow2_split by lia.
    do 2 f_equal. lia. }
  assert (H3 : 2 ^ (E - (ex + -43)) * c = 2 ^ (E + S)).
  { unfold c. rewrite <- pow2_split by lia. f_equal. lia. }
  assert (H5 : 2 ^ (E + S) ≤ 2 ^ (S - 43)) by (apply Z.pow_le_mono_r; lia).
  rewrite <- HMc, H2.
  set (a := m * 2 ^ (e - (ex + -43))) in *.
  set (u := 2 ^ (E - (ex + -43))) in *.
  split_and!.
  - assert (2 * a * 1 * c ≤ (2 * M + u * 1) * c)
      by (apply Z.mul_le_mono_nonneg_r; lia).
    lia.
  - assert (2 * M * c ≤ (2 * a * 1 + u * 1) * c)
      by (apply Z.mul_le_mono_nonneg_r; lia).
    lia.
  - intros k Hk Hle.
    destruct (Z.eq_dec k 0) as [->|Hk0].
    { rewrite Z.mul_0_l. apply Z.mul_nonneg_nonneg; [|lia].
      apply Z.mul_nonneg_nonneg; [done|]. apply Z.pow_nonneg. lia. }
    assert (Hm0 : m ≠ 0).
    { intros ->.
      assert (Hu : 0 < u) by (apply Z.pow_pos_nonneg; lia).
      assert (H2M : 2 * M * c ≤ u * c) by (unfold a in Hlo; nia).
      assert (Hk1 : 1 * 2 ^ (S - 1) ≤ k * 2 ^ (S - 1)).
      { apply Z.mul_le_mono_nonneg_r; [|lia]. apply Z.pow_nonneg. lia. }
      assert (H2S1 : 2 ^ (S - 43) < 2 ^ (S - 1))
        by (apply Z.pow_lt_mono_r; lia).
      rewrite H3 in H2M. lia. }
    destruct Hee as [Hm0'|Hee]; [done|]. subst e'.
    assert (HS1 : 2 ^ (S - 1) = 2 ^ (- 1 - e) * 2 ^ (e - (ex + -43)) * c).
    { unfold c. rewrite <- !pow2_split by lia. f_equal. lia. }
    assert (Hee1 : 0 < 2 ^ (e - (ex + -43))) by (apply Z.pow_pos_nonneg; lia).
    assert (Hne : 0 < 2 ^ (- 1 - e)) by (apply Z.pow_pos_nonneg; lia).
    assert (HkM : k * 2 ^ (- 1 - e) * 2 ^ (e - (ex + -43)) ≤ M).
    { apply (Z.mul_le_mono_pos_r _ _ c); [done|].
      rewrite HS1 in Hle. lia. }
    assert (Hkm : k * 2 ^ (- 1 - e) ≤ m).
    { etrans; [|exact Hlow]. apply Z.div_le_lower_bound; [done|]. lia. }
    rewrite HS1. unfold a.
    replace (k * (2 ^ (- 1 - e) * 2 ^ (e - (ex + -43)) * c))
      with (k * 2 ^ (- 1 - e) * (2 ^ (e - (ex + -43)) * c)) by ring.
    rewrite <- (Z.mul_assoc m).
    apply Z.mul_le_mono_nonneg_r; [|done].
    apply Z.mul_nonneg_nonneg; lia.
Qed.


End Scaled.


Lemma SFdiv_nonneg (x : spec_float) (my : positive) (ey : Z) (Kx K : Z) :
  b64_below Kx x → b64_nonneg x →
  Kx - (Zdigits2 (Z.pos my) + ey) + 1 ≤ K → -1074 ≤ K ≤ 1023 →
  b64_nonneg (SFdiv 53 1024 x (S754_finite false my ey)).
Proof.
  intros Hx Hn HK1 HK.
  pose proof (SFdiv_below x false my ey Kx K Hx HK1 HK) as Hb.
  destruct x as [s|s| |sx mx ex]; try done.
  cbn [b64_nonneg] in Hn. subst sx. cbn [SFdiv xorb] in *.
  destruct (SFdiv_core_binary 53 1024 (Z.pos mx) ex (Z.pos my) ey)
    as [[mz ez] lz].
  unfold binary_round_aux in *.
  destruct (shr_fexp 53 1024 mz ez lz) as [mrs1 e1].
  destruct (shr_fexp 53 1024 _ e1 loc_Exact) as [mrs2 e2].
  destruct (shr_m mrs2); [done| |done].
  by destruct (e2 <=? 1024 - 53).
Qed.

Lemma format_time_b64_fields (x : spec_float) :
  b64_regular x →
  ∃ h m sec ms : Z,
    format_time x = Ok (timestamp h m sec ms) ∧
    0 ≤ h ∧ 0 ≤ m ≤ 59 ∧ 0 ≤ sec ≤ 59 ∧ 0 ≤ ms ≤ 1000.
Proof.
  intros Hx. pose proof Hx as [Hv Hn].
  pose proof (valid_binary_below x Hv Hn) as Hb.
  set (S := 2200). assert (HS : 2200 ≤ S) by done. clearbody S.
  assert (H2S : 0 < 2 ^ S) by (apply Z.pow_pos_nonneg; lia).
  assert (H41 : 2 ^ S = 2 ^ 41 * 2 ^ (S - 41))
    by (rewrite <- pow2_split by lia; f_equal; lia).
  assert (H47 : 2 ^ S = 2 ^ 47 * 2 ^ (S - 47))
    by (rewrite <- pow2_split by lia; f_equal; lia).
  assert (H6 : 2 ^ (S - 41) = 2 ^ 6 * 2 ^ (S - 47))
    by (rewrite <- pow2_split by lia; f_equal; lia).
  assert (H1 : 2 ^ S = 2 * 2 ^ (S - 1))
    by (rewrite <- Z.pow_succ_r by lia; f_equal; lia).
  assert (H43 : 2 ^ (S - 1) = 2 ^ 42 * 2 ^ (S - 43))
    by (rewrite <- pow2_split by lia; f_equal; lia).
  assert (P47 : 0 < 2 ^ (S - 47)) by (apply Z.pow_pos_nonneg; lia).
  assert (P43 : 0 < 2 ^ (S - 43)) by (apply Z.pow_pos_nonneg; lia).
  assert (Y3600 : Z.pos 7916483719987200 * 2 ^ (-41 + S) = 3600 * 2 ^ S).
  { replace (-41 + S) with (S - 41) by lia. rewrite H41.
    change (Z.pos 7916483719987200) with (3600 * 2 ^ 41). lia. }
  assert (Y60 : Z.pos 8444249301319680 * 2 ^ (-47 + S) = 60 * 2 ^ S).
  { replace (-47 + S) with (S - 47) by lia. rewrite H47.
    change (Z.pos 8444249301319680) with (60 * 2 ^ 47). lia. }
  change (2 ^ 6) with 64 in H6. change (2 ^ 42) with 4398046511104 in H43.
  unfold format_time. cbn [truediv float_rem float_sub float_mul math_floor
    py_round b64_float].
  unfold B64.truediv, B64.float_sub, B64.float_mul, B64.prec, B64.emax.
  (* hours *)
  assert (Hq1 : b64_below 1014
    (SFdiv 53 1024 x (S754_finite false 7916483719987200 (-41))))
    by (by apply (SFdiv_below x false _ _ 1024 1013)).
  assert (Hq1n : b64_nonneg
    (SFdiv 53 1024 x (S754_finite false 7916483719987200 (-41))))
    by (by apply (SFdiv_nonneg x _ _ 1024 1013)).
  change (B64.of_int 3600) with (Ok (S754_finite false 7916483719987200 (-41))).
  cbn [mbind result_bind B64.is_zero].
  destruct (to_int_floor_below _ 1014 Hq1n Hq1) as (hours & -> & Hh); [lia|].
  cbn [mbind result_bind].
  (* first remainder *)
  destruct (float_rem_scaled S HS x 3600 7916483719987200 (-41) Hx eq_refl)
    as (r1 & -> & Hr1 & Hs1); [done|done|].
  rewrite Y3600 in Hs1.
  pose proof (Z.mod_pos_bound (b64_scaled S x) (3600 * 2 ^ S) ltac:(lia)) as Hr1b.
  rewrite <- Hs1 in Hr1b. cbn [mbind result_bind].
  (* minutes *)
  pose proof (b64_regular_below_3600 S HS r1 Hr1 (proj2 Hr1b)) as Hr1c.
  destruct (SFdiv_scaled S HS r1 8444249301319680 (-47) 6 Hr1)
    as (Hq2n & Hq2e & Hq2); [done| |lia|].
  { rewrite Y60. change (2 ^ 6) with 64. lia. }
  rewrite Y60 in Hq2. replace (6 - 53 + S) with (S - 47) in Hq2 by lia.
  change (B64.of_int 60) with (Ok (S754_finite false 8444249301319680 (-47))).
  cbn [mbind result_bind B64.is_zero].
  set (q2 := SFdiv 53 1024 r1 (S754_finite false 8444249301319680 (-47))) in *.
  rewrite (to_int_floor_scaled S HS q2 Hq2n)
    by (by apply (b64_exponent_from_weaken (-1074))).
  cbn [mbind result_bind].
  assert (Hq2b : b64_scaled S q2 < 60 * 2 ^ S).
  { assert (Hq2' : 60 * b64_scaled S q2 * 2 ^ S
                   ≤ (b64_scaled S r1 + 60 * 2 ^ (S - 47)) * 2 ^ S) by lia.
    apply Z.mul_le_mono_pos_r in Hq2'; [|done]. lia. }
  pose proof (b64_scaled_nonneg S q2) as Hq2p.
  assert (Hmin : 0 ≤ b64_scaled S q2 / 2 ^ S ≤ 59).
  { split; [by apply Z.div_pos|].
    assert (b64_scaled S q2 / 2 ^ S < 60); [|lia].
    apply Z.div_lt_upper_bound; lia. }
  (* second remainder *)
  destruct (float_rem_scaled S HS r1 60 8444249301319680 (-47) Hr1 eq_refl)
    as (r2 & -> & Hr2 & Hs2); [done|done|].
  rewrite Y60 in Hs2.
  pose proof (Z.mod_pos_bound (b64_scaled S r1) (60 * 2 ^ S) ltac:(lia)) as Hr2b.
  rewrite <- Hs2 in Hr2b. cbn [mbind result_bind].
  (* whole seconds *)
  rewrite (to_int_floor_scaled S HS r2 (proj2 Hr2))
    by (apply (b64_exponent_from_weaken (-1074)); [lia|];
        by apply b64_regular_exponent).
  cbn [mbind result_bind].
  set (whole := b64_scaled S r2 / 2 ^ S).
  assert (Hw : 0 ≤ whole ≤ 59).
  { split; [apply Z.div_pos; lia|].
    assert (whole < 60); [|lia]. apply Z.div_lt_upper_bound; lia. }
  pose proof (Z.mul_div_le (b64_scaled S r2) (2 ^ S) H2S) as Hw1.
  pose proof (Z.mul_succ_div_gt (b64_scaled S r2) (2 ^ S) H2S) as Hw2.
  fold whole in Hw1, Hw2.
  (* fraction *)
  destruct (of_int_exact S HS whole) as (yw & -> & Hyw & Hsw).
  { change (2 ^ 53) with 9007199254740992. lia. }
  cbn [mbind result_bind].
  assert (Hw3 : whole = 0 ∨ 2 ^ S ≤ whole * 2 ^ S).
  { destruct (Z.eq_dec whole 0) as [|Hne]; [by left|right].
    assert (1 * 2 ^ S ≤ whole * 2 ^ S)
      by (apply Z.mul_le_mono_nonneg_r; lia).
    lia. }
  destruct (SFsub_scaled S HS r2 yw Hr2 Hyw) as [Hfr Hsf]; [lia|lia| |].
  { destruct Hw3 as [Hw3|Hw3]; [left|right]; lia. }
  (* milliseconds *)
  change (B64.of_int 1000) with (Ok (S754_finite false 8796093022208000 (-43))).
  cbn [mbind result_bind].
  destruct (SFmul_1000_scaled S HS (SFsub 53 1024 r2 yw) Hfr)
    as (Hmn & Hme & Hms); [lia|].
  destruct (to_int_round_scaled S HS _ 1000 Hmn Hme) as (ms & -> & Hmsr);
    [lia|].
  cbn [mbind result_bind].
  exists hours, (b64_scaled S q2 / 2 ^ S), whole, ms.
  split_and!; [done|lia..].
Qed.

(** The remainder by [a * T], cut at [T]. *)
Lemma mod_div_scaled (X a T : Z) :
  0 < a → 0 < T → (X mod (a * T)) / T = (X / T) mod a.
Proof.
  intros Ha HT. rewrite (Z.mul_comm a T), Z.rem_mul_r by lia.
  pose proof (Z.mod_pos_bound X T HT).
  symmetry. apply Z.div_unique with (r := X mod T); lia.
Qed.

Lemma mod_mod_scaled (X a T : Z) :
  0 < a → 0 < T → (X mod (a * T)) mod T = X mod T.
Proof.
  intros Ha HT. apply Z.mod_mod_divide. exists a. lia.
Qed.

(** What [format_time] computes in binary64, in terms of the magnitude
    [X = s * 2^S] of its argument: minutes and seconds are those of the
    floor of [s]; so are the hours below [2^53]; the milliseconds are the
    round of a product [P / 2^S] within [2^-44] of the exact one. *)
Lemma format_time_b64_spec (S : Z) (x : spec_float) :
  2200 ≤ S → b64_regular x →
  ∃ h ms P : Z,
    format_time x
    = Ok (timestamp h ((b64_scaled S x / 2 ^ S) mod 3600 / 60)
            ((b64_scaled S x / 2 ^ S) mod 60) ms) ∧
    0 ≤ h ∧
    (b64_scaled S x < 2 ^ (53 + S) → h = b64_scaled S x / 2 ^ S / 3600) ∧
    ms = Qround_half_even (P # Z.to_pos (2 ^ S)) ∧ 0 ≤ ms ≤ 1000 ∧
    2 * P ≤ 2 * (1000 * (b64_scaled S x mod 2 ^ S)) + 2 ^ (S - 43) ∧
    2 * (1000 * (b64_scaled S x mod 2 ^ S)) ≤ 2 * P + 2 ^ (S - 43) ∧
    (∀ k : Z, 0 ≤ k → k * 2 ^ (S - 1) ≤ 1000 * (b64_scaled S x mod 2 ^ S) →
              k * 2 ^ (S - 1) ≤ P).
Proof.
  intros HS Hx. pose proof Hx as [Hv Hn].
  pose proof (valid_binary_below x Hv Hn) as Hb.
  assert (H2S : 0 < 2 ^ S) by (apply Z.pow_pos_nonneg; lia).
  assert (H41 : 2 ^ S = 2 ^ 41 * 2 ^ (S - 41))
    by (rewrite <- pow2_split by lia; f_equal; lia).
  assert (H47 : 2 ^ S = 2 ^ 47 * 2 ^ (S - 47))
    by (rewrite <- pow2_split by lia; f_equal; lia).
  assert (H1 : 2 ^ S = 2 * 2 ^ (S - 1))
    by (rewrite <- Z.pow_succ_r by lia; f_equal; lia).
  assert (H43 : 2 ^ (S - 1) = 2 ^ 42 * 2 ^ (S - 43))
    by (rewrite <- pow2_split by lia; f_equal; lia).
  assert (H53 : 2 ^ (53 + S) = 2 ^ 53 * 2 ^ S) by (apply pow2_split; lia).
  assert (P43 : 0 < 2 ^ (S - 43)) by (apply Z.pow_pos_nonneg; lia).
  assert (Y3600 : Z.pos 7916483719987200 * 2 ^ (-41 + S) = 3600 * 2 ^ S).
  { replace (-41 + S) with (S - 41) by lia. rewrite H41.
    change (Z.pos 7916483719987200) with (3600 * 2 ^ 41). lia. }
  assert (Y60 : Z.pos 8444249301319680 * 2 ^ (-47 + S) = 60 * 2 ^ S).
  { replace (-47 + S) with (S - 47) by lia. rewrite H47.
    change (Z.pos 8444249301319680) with (60 * 2 ^ 47). lia. }
  clear H41 H47.
  assert (Hc1 : 2 ^ 11 ≤ 3600 < 2 ^ (11 + 1))
    by (change (2 ^ 11) with 2048; change (2 ^ (11 + 1)) with 4096; lia).
  assert (Hc2 : 2 ^ 5 ≤ 60 < 2 ^ (5 + 1))
    by (change (2 ^ 5) with 32; change (2 ^ (5 + 1)) with 64; lia).
  change (2 ^ 42) with 4398046511104 in H43.
  change (2 ^ 53) with 9007199254740992 in H53.
  set (X := b64_scaled S x) in *.
  unfold format_time. cbn [truediv float_rem float_sub float_mul math_floor
    py_round b64_float].
  unfold B64.truediv, B64.float_sub, B64.float_mul, B64.prec, B64.emax.
  (* hours *)
  assert (Hq1 : b64_below 1014
    (SFdiv 53 1024 x (S754_finite false 7916483719987200 (-41))))
    by (by apply (SFdiv_below x false _ _ 1024 1013)).
  assert (Hq1n : b64_nonneg
    (SFdiv 53 1024 x (S754_finite false 7916483719987200 (-41))))
    by (by apply (SFdiv_nonneg x _ _ 1024 1013)).
  change (B64.of_int 3600) with (Ok (S754_finite false 7916483719987200 (-41))).
  cbn [mbind result_bind B64.is_zero].
  destruct (to_int_floor_below _ 1014 Hq1n Hq1) as (hours & Hhe & Hh); [lia|].
  assert (Hhx : X < 2 ^ (53 + S) → hours = X / 2 ^ S / 3600).
  { intros Hlt.
    pose proof (SFdiv_floor_general S HS x 3600 11 7916483719987200 (-41) Hx
                  ltac:(done) Y3600
                  ltac:(lia) Hc1 Hlt) as Hfl.
    rewrite Hhe in Hfl. injection Hfl as ->.
    rewrite Z.div_div by lia. f_equal. lia. }
  rewrite Hhe. clear Hhe Hq1 Hq1n. cbn [mbind result_bind].
  (* first remainder *)
  destruct (float_rem_scaled S HS x 3600 7916483719987200 (-41) Hx eq_refl)
    as (r1 & -> & Hr1 & Hs1); [done|done|].
  rewrite Y3600 in Hs1. fold X in Hs1.
  pose proof (Z.mod_pos_bound X (3600 * 2 ^ S) ltac:(lia)) as Hr1b.
  rewrite <- Hs1 in Hr1b. cbn [mbind result_bind].
  (* minutes *)
  change (B64.of_int 60) with (Ok (S754_finite false 8444249301319680 (-47))).
  cbn [mbind result_bind B64.is_zero].
  rewrite (SFdiv_floor_general S HS r1 60 5 8444249301319680 (-47) Hr1
             ltac:(done) Y60
             ltac:(lia) Hc2) by lia.
  cbn [mbind result_bind].
  (* second remainder *)
  destruct (float_rem_scaled S HS r1 60 8444249301319680 (-47) Hr1 eq_refl)
    as (r2 & -> & Hr2 & Hs2); [done|done|].
  rewrite Y60 in Hs2.
  pose proof (Z.mod_pos_bound (b64_scaled S r1) (60 * 2 ^ S) ltac:(lia)) as Hr2b.
  rewrite <- Hs2 in Hr2b. cbn [mbind result_bind].
  (* whole seconds *)
  rewrite (to_int_floor_scaled S HS r2 (proj2 Hr2))
    by (apply (b64_exponent_from_weaken (-1074)); [lia|];
        by apply b64_regular_exponent).
  cbn [mbind result_bind].
  (* the fields in terms of the floor of the argument *)
  assert (Hmin : b64_scaled S r1 / (60 * 2 ^ S) = (X / 2 ^ S) mod 3600 / 60).
  { rewrite Hs1, (Z.mul_comm 60), <- Z.div_div by lia.
    by rewrite mod_div_scaled by lia. }
  assert (Hs2' : b64_scaled S r2 = X mod (60 * 2 ^ S)).
  { rewrite Hs2, Hs1. apply Z.mod_mod_divide. exists 60. lia. }
  assert (Hsec : b64_scaled S r2 / 2 ^ S = (X / 2 ^ S) mod 60)
    by (rewrite Hs2'; apply mod_div_scaled; lia).
  rewrite Hmin, Hsec.
  pose proof (Z.mod_pos_bound (X / 2 ^ S) 60 ltac:(lia)) as Hw.
  set (whole := (X / 2 ^ S) mod 60) in *.
  assert (Hfrac : b64_scaled S r2 - whole * 2 ^ S = X mod 2 ^ S).
  { rewrite <- (mod_mod_scaled X 60 (2 ^ S)), <- Hs2' by lia.
    rewrite (Z.mod_eq (b64_scaled S r2) (2 ^ S)) by lia. rewrite Hsec. lia. }
  pose proof (Z.mod_pos_bound X (2 ^ S) H2S) as Hfb.
  (* fraction *)
  destruct (of_int_exact S HS whole) as (yw & -> & Hyw & Hsw).
  { change (2 ^ 53) with 9007199254740992. lia. }
  cbn [mbind result_bind].
  assert (Hw3 : whole = 0 ∨ 2 ^ S ≤ whole * 2 ^ S).
  { destruct (Z.eq_dec whole 0) as [|Hne]; [by left|right].
    assert (1 * 2 ^ S ≤ whole * 2 ^ S)
      by (apply Z.mul_le_mono_nonneg_r; lia).
    lia. }
  destruct (SFsub_scaled S HS r2 yw Hr2 Hyw) as [Hfr Hsf]; [lia|lia| |].
  { destruct Hw3 as [Hw3|Hw3]; [left|right]; lia. }
  rewrite Hsw, Hfrac in Hsf.
  (* milliseconds *)
  change (B64.of_int 1000) with (Ok (S754_finite false 8796093022208000 (-43))).
  cbn [mbind result_bind].
  destruct (SFmul_1000_scaled S HS (SFsub 53 1024 r2 yw) Hfr)
    as (Hmn & Hme & Hms); [lia|].
  destruct (SFmul_1000_nearest S HS (SFsub 53 1024 r2 yw) Hfr)
    as (Hup & Hlo & Hk); [lia|].
  destruct (to_int_round_scaled S HS _ 1000 Hmn Hme) as (ms & Hmse & Hmsr);
    [lia|].
  rewrite Hsf in Hup, Hlo, Hk.
  pose proof (to_int_round_value S HS _ Hmn Hme) as Hval.
  rewrite Hmse in Hval. injection Hval as Hval.
  rewrite Hmse. cbn [mbind result_bind].
  exists hours, ms, (b64_scaled S (SFmul 53 1024 (SFsub 53 1024 r2 yw)
                       (S754_finite false 8796093022208000 (-43)))).
  split_and!; [done|lia|exact Hhx|done|lia|lia|lia|lia|exact Hk].
Qed.


End Binary64.

(** ** The value of a double and what [format_time] prints for it *)

Section Binary64Value.
Local Open Scope Q_scope.

Lemma Qmake_le (a b : Z) (d : positive) : (a ≤ b)%Z → a # d <= b # d.
Proof. intros Hab. unfold Qle. cbn [Qnum Qden]. nia. Qed.

Lemma Qmake_le_inv (a b : Z) (d : positive) : a # d <= b # d → (a ≤ b)%Z.
Proof. unfold Qle. cbn [Qnum Qden]. nia. Qed.

Lemma Qmake_minus (a b : Z) (d : positive) : (a # d) - (b # d) == (a - b) # d.
Proof. unfold Qeq, Qminus, Qplus, Qopp. cbn [Qnum Qden]. nia. Qed.

Lemma Qmake_mult_Z (a n : Z) (d : positive) :
  (a # d) * inject_Z n == (a * n) # d.
Proof. unfold Qeq, Qmult, inject_Z. cbn [Qnum Qden]. nia. Qed.

Lemma Qmake_inject_Z (k : Z) (d : positive) : inject_Z k == (k * Z.pos d) # d.
Proof. unfold Qeq, inject_Z. cbn [Qnum Qden]. nia. Qed.

Lemma b64_value_scaled (S : Z) (x : spec_float) :
  (2200 ≤ S)%Z → b64_regular x →
  b64_value x == b64_scaled S x # Z.to_pos (2 ^ S).
Proof.
  intros HS Hx. pose proof (b64_regular_exponent x Hx) as He.
  destruct x as [s|s| |s m e]; try (by destruct Hx).
  destruct Hx as [_ Hs]. cbn in Hs. subst s. cbn in He.
  apply (Q_of_finite_scaled S HS). lia.
Qed.


(** [format_time] on binary64 in terms of the value [s] of its argument:
    minutes and seconds are those of [floor s], so are the hours below
    [2^53]; the milliseconds are the round of a number [p], the double
    product, within [2^-44] of the exact product and not below a multiple
    of one half that the exact product reaches. *)
Lemma format_time_b64_value (x : spec_float) :
  b64_regular x →
  ∃ (h ms : Z) (p : Q),
    format_time x
    = Ok (timestamp h (Qfloor (b64_value x) mod 3600 / 60)
            (Qfloor (b64_value x) mod 60) ms) ∧
    (0 ≤ h)%Z ∧
    (b64_value x < 9007199254740992 → h = (Qfloor (b64_value x) / 3600)%Z) ∧
    ms = Qround_half_even p ∧ (0 ≤ ms ≤ 1000)%Z ∧
    Qabs (p - (b64_value x - inject_Z (Qfloor (b64_value x))) * 1000)
      <= 1 # 17592186044416 ∧
    (∀ k : Z, (0 ≤ k)%Z →
       inject_Z k * (1 # 2)
         <= (b64_value x - inject_Z (Qfloor (b64_value x))) * 1000 →
       inject_Z k * (1 # 2) <= p).
Proof.
  intros Hx.
  set (S := 2200%Z). assert (HS : (2200 ≤ S)%Z) by done. clearbody S.
  destruct (format_time_b64_spec S x HS Hx)
    as (h & ms & P & Hf & Hh & Hhx & Hms & Hmsr & Hup & Hlo & Hk).
  pose proof (b64_value_scaled S x HS Hx) as Hv.
  assert (H2S : (0 < 2 ^ S)%Z) by (apply Z.pow_pos_nonneg; lia).
  assert (HTp : Z.pos (Z.to_pos (2 ^ S)) = (2 ^ S)%Z) by (by apply Z2Pos.id).
  assert (H53 : (2 ^ (53 + S) = 9007199254740992 * 2 ^ S)%Z)
    by (by rewrite pow2_split by lia).
  assert (H43 : (2 ^ S = 8796093022208 * 2 ^ (S - 43))%Z).
  { change 8796093022208%Z with (2 ^ 43)%Z.
    rewrite <- pow2_split by lia. f_equal. lia. }
  assert (H1 : (2 ^ S = 2 * 2 ^ (S - 1))%Z)
    by (rewrite <- Z.pow_succ_r by lia; f_equal; lia).
  set (X := b64_scaled S x) in *. set (T := (2 ^ S)%Z) in *.
  set (Tp := Z.to_pos T) in *.
  assert (Hfl : Qfloor (b64_value x) = (X / T)%Z).
  { rewrite (Qfloor_comp _ _ Hv). unfold Qfloor. by rewrite HTp. }
  assert (Hfrac : b64_value x - inject_Z (Qfloor (b64_value x))
                  == (X mod T) # Tp).
  { rewrite Hfl, Hv, (Qmake_inject_Z (X / T) Tp), Qmake_minus, HTp.
    rewrite (Z.mod_eq X T) by lia.
    replace (X - X / T * T)%Z with (X - T * (X / T))%Z by lia. reflexivity. }
  assert (Hprod : (b64_value x - inject_Z (Qfloor (b64_value x))) * 1000
                  == (X mod T * 1000) # Tp).
  { rewrite Hfrac. apply (Qmake_mult_Z (X mod T) 1000 Tp). }
  assert (Hdiff : (P # Tp)
                  - (b64_value x - inject_Z (Qfloor (b64_value x))) * 1000
                  == (P - X mod T * 1000) # Tp).
  { rewrite Hprod. apply Qmake_minus. }
  exists h, ms, (P # Tp). split_and!.
  - by rewrite Hfl.
  - done.
  - intros Hlt. rewrite Hfl. apply Hhx. rewrite H53.
    rewrite Hv in Hlt. unfold Qlt in Hlt. cbn [Qnum Qden inject_Z] in Hlt.
    rewrite HTp in Hlt. lia.
  - done.
  - lia.
  - lia.
  - rewrite Hdiff.
    apply Qabs_Qle_condition. unfold Qle, Qopp. cbn [Qnum Qden].
    rewrite HTp. set (U := (2 ^ (S - 43))%Z) in *.
    set (W := (X `mod` T)%Z) in *. lia.
  - intros k Hk0. rewrite Hprod.
    unfold Qle, Qmult. cbn [Qnum Qden inject_Z]. rewrite HTp.
    intros Hle. specialize (Hk k Hk0).
    set (V := (2 ^ (S - 1))%Z) in *. set (W := (X `mod` T)%Z) in *.
    assert (Hle' : (k * V ≤ 1000 * W)%Z) by lia.
    specialize (Hk Hle'). lia.
Qed.

End Binary64Value.

(** ** Claims about [format_time] *)

Section FormatTimeClaims.
Local Open Scope Q_scope.

Lemma format_time_Fin_comp (s s' : Q) :
  s == s' → format_time (Fin s) = format_time (Fin s').
Proof.
  intros Heq. rewrite !format_time_Fin. cbv zeta.
  assert (Hh : Qfloor (s / 3600) = Qfloor (s' / 3600))
    by (apply Qfloor_comp; by rewrite Heq).
  rewrite Hh. set (h := Qfloor (s' / 3600)).
  assert (H1 : s - 3600 * inject_Z h == s' - 3600 * inject_Z h)
    by (by rewrite Heq).
  set (r1 := s - 3600 * inject_Z h) in *.
  set (r1' := s' - 3600 * inject_Z h) in *.
  assert (Hm : Qfloor (r1 / 60) = Qfloor (r1' / 60))
    by (apply Qfloor_comp; by rewrite H1).
  rewrite Hm. set (m := Qfloor (r1' / 60)).
  assert (H2 : r1 - 60 * inject_Z m == r1' - 60 * inject_Z m)
    by (by rewrite H1).
  set (r2 := r1 - 60 * inject_Z m) in *.
  set (r2' := r1' - 60 * inject_Z m) in *.
  rewrite (Qfloor_comp r2 r2' H2).
  rewrite (Qround_half_even_comp ((r2 - inject_Z (Qfloor r2')) * 1000)
             ((r2' - inject_Z (Qfloor r2')) * 1000)) by (by rewrite H2).
  done.
Qed.

(** Within a day and below the carry the output has the shape
    [HH:MM:SS,mmm]; at the carry it has not; in both cases the fields read
    back to within half a millisecond of the input. *)
Lemma format_time_within_a_day (s : Q) :
  0 <= s < 86400 →
  ∃ h m sec ms : Z,
    format_time (Fin s) = Ok (timestamp h m sec ms) ∧
    Qabs (inject_Z h * 3600 + inject_Z m * 60 + inject_Z sec
          + inject_Z ms / 1000 - s) <= 1 # 2000 ∧
    (0 ≤ ms ≤ 1000)%Z ∧
    matches_clock_pattern (timestamp h m sec ms) = bool_decide (ms ≠ 1000%Z).
Proof.
  intros [Hs0 Hs1].
  destruct (format_time_decomposes s) as (h & m & sec & ms & Hfmt & Hdec).
  exists h, m, sec, ms.
  pose proof (decomposes_ranges _ _ _ _ _ Hdec) as (Hm & Hsec & Hms & Hh).
  specialize (Hh Hs0).
  assert (Hh24 : (h < 24)%Z).
  { destruct Hdec as (r1 & _ & _ & [E1 [L1 _]] & _).
    change (inject_Z 3600) with 3600 in *.
    rewrite (Zlt_Qlt h 24). change (inject_Z 24) with 24. lra. }
  split_and!; [done | by apply decomposes_round_trip | lia.. | ].
  case_bool_decide as Hc.
  - apply timestamp_matches_pattern; lia.
  - assert (ms = 1000%Z) as -> by lia.
    apply timestamp_carry_breaks_pattern; lia.
Qed.

(** C1 (evaluation at the failing input): 59.9996 lies in [[0, 86400)],
    [format_time] returns ["00:00:59,1000"] for it, on exact reals and on
    binary64 alike, and that string does not match [HH:MM:SS,mmm]: the
    milliseconds field has four digits. *)
Theorem format_time_carry_leaves_pattern :
  0 <= 599996 # 10000 < 86400 ∧
  format_time (Fin (599996 # 10000)) = Ok "00:00:59,1000"%string ∧
  format_time (B64.literal 599996 4) = Ok "00:00:59,1000"%string ∧
  matches_clock_pattern "00:00:59,1000" = false.
Proof. split_and!; [done | done | by vm_compute..]. Qed.

(** C2: [format_time] never carries. On binary64, for every finite
    non-negative double the minutes and the seconds printed are those of
    the floor of the input, [floor s % 3600 // 60] and [floor s % 60], and
    below [2^53] the hours are [floor s // 3600], whatever the milliseconds
    round to; and when the fractional part is 0.9995 or more the
    milliseconds print as 1000 beside them. The same holds on exact reals.
    So [format_time(59.9996)] is ["00:00:59,1000"], fields 0, 0, 59 and
    1000, and not ["00:01:00,000"]. *)
Theorem format_time_no_carry (x : spec_float) :
  b64_regular x →
  (∃ h ms : Z,
     format_time x
     = Ok (timestamp h (Qfloor (b64_value x) mod 3600 / 60)
             (Qfloor (b64_value x) mod 60) ms) ∧
     (0 ≤ h)%Z ∧
     (b64_value x < 9007199254740992 → h = (Qfloor (b64_value x) / 3600)%Z) ∧
     (0 ≤ ms ≤ 1000)%Z ∧
     (9995 # 10000 <= b64_value x - inject_Z (Qfloor (b64_value x)) →
      ms = 1000%Z)) ∧
  (∀ s : Q,
     9995 # 10000 <= s - inject_Z (Qfloor s) →
     format_time (Fin s)
     = Ok (timestamp (Qfloor s / 3600) (Qfloor s mod 3600 / 60)
             (Qfloor s mod 60) 1000)) ∧
  format_time (Fin (599996 # 10000)) = Ok (timestamp 0 0 59 1000) ∧
  format_time (Fin (599996 # 10000)) = Ok "00:00:59,1000"%string ∧
  format_time (B64.literal 599996 4) = Ok "00:00:59,1000"%string ∧
  format_time (Fin (599996 # 10000)) ≠ Ok "00:01:00,000"%string ∧
  format_time (B64.literal 599996 4) ≠ Ok "00:01:00,000"%string.
Proof.
  intros Hx. split; [|split; [|split_and!; by vm_compute]].
  - destruct (format_time_b64_value x Hx)
      as (h & ms & p & Hf & Hh & Hhx & Hms & Hmsr & _ & Hk).
    exists h, ms. split_and!; [done|done|done|lia|lia|].
    intros Hfrac.
    assert (Hp : inject_Z 1999 * (1 # 2) <= p).
    { apply Hk; [done|]. change (inject_Z 1999) with 1999. lra. }
    apply Qround_half_even_carry in Hp. lia.
  - intros s Hfrac. rewrite format_time_Fin_floor. cbv zeta.
    pose proof (floor_frac_range s) as [Hlo Hhi].
    set (q := (s - inject_Z (Qfloor s)) * 1000).
    assert (H1 : (1000 ≤ Qround_half_even q)%Z).
    { apply Qround_half_even_carry. change (inject_Z 1999) with 1999.
      unfold q. lra. }
    assert (H2 : (0 ≤ Qround_half_even q ≤ 1000)%Z).
    { apply Qround_half_even_between.
      - change (inject_Z 0) with 0. unfold q. lra.
      - change (inject_Z 1000) with 1000. unfold q. lra. }
    by replace (Qround_half_even q) with 1000%Z by lia.
Qed.

Lemma format_time_no_carry_witness :
  b64_regular (B64.literal 599996 4) ∧
  ∃ h ms : Z,
    format_time (B64.literal 599996 4)
    = Ok (timestamp h (Qfloor (b64_value (B64.literal 599996 4)) mod 3600 / 60)
            (Qfloor (b64_value (B64.literal 599996 4)) mod 60) ms) ∧
    (0 ≤ h)%Z ∧
    (b64_value (B64.literal 599996 4) < 9007199254740992 →
     h = (Qfloor (b64_value (B64.literal 599996 4)) / 3600)%Z) ∧
    (0 ≤ ms ≤ 1000)%Z ∧
    (9995 # 10000 <= b64_value (B64.literal 599996 4)
                     - inject_Z (Qfloor (b64_value (B64.literal 599996 4))) →
     ms = 1000%Z).
Proof.
  assert (Hx : b64_regular (B64.literal 599996 4)).
  { split; vm_compute; reflexivity. }
  split; [exact Hx|]. exact (proj1 (format_time_no_carry _ Hx)).
Defined.




(** On binary64 the product by 1000 is itself rounded before [round] sees
    it. The double nearest to 0.0025 lies above 1/400 and its exact product
    lies above 2.5, but the rounded product is 2.5, a tie that goes to the
    even 2: the milliseconds are the nearest integer to the product as the
    machine computes it. *)
Lemma format_time_b64_rounds_product :
  ∃ (m : positive) (e : Z),
    B64.literal 25 4 = S754_finite false m e ∧
    1 # 400 < B64.Q_of_finite false m e ∧
    format_time (B64.literal 25 4) = Ok (timestamp 0 0 0 2) ∧
    format_time (Fin (B64.Q_of_finite false m e)) = Ok (timestamp 0 0 0 3).
Proof.
  eexists _, _. split; [by vm_compute|]. split; [by vm_compute|].
  split; by vm_compute.
Qed.

(** C9: [format_time] is a function of its argument alone and is total on
    the finite non-negative inputs: it returns a string and raises nothing.
    On exact reals, equal reals give the same string; on binary64, every
    double that is a zero or a positive finite number is formatted. (The
    type of [format_time] has no state to read or change; the failures its
    body can meet, a conversion of an infinity or a NaN to [int], a
    division by zero and an [int] too large for a [float], do not
    occur.) *)
Theorem format_time_total (s : Q) :
  0 <= s →
  (∃ out : string,
     format_time (Fin s) = Ok out ∧
     ∀ s' : Q, s' == s → format_time (Fin s') = Ok out) ∧
  (∀ x : spec_float,
     valid_binary 53 1024 x = true → b64_nonneg x →
     ∃ out : string, format_time x = Ok out).
Proof.
  intros _. split; [|apply format_time_b64_total].
  destruct (format_time_decomposes s) as (h & m & sec & ms & Hfmt & _).
  exists (timestamp h m sec ms). split; [done|].
  intros s' Heq. by rewrite (format_time_Fin_comp s' s Heq).
Qed.

Lemma format_time_total_witness :
  0 <= 36615 # 10 ∧
  ∃ out : string,
    format_time (Fin (36615 # 10)) = Ok out ∧
    ∀ s' : Q, s' == 36615 # 10 → format_time (Fin s') = Ok out.
Proof.
  assert (Hs : 0 <= 36615 # 10) by (unfold Qle; simpl; lia).
  split; [exact Hs|]. exact (proj1 (format_time_total (36615 # 10) Hs)).
Defined.

(** Outside the finite reals [format_time] raises. *)
Lemma format_time_not_finite :
  (∀ neg, format_time (Inf neg)
          = Raise (OverflowError "cannot convert float infinity to integer")) ∧
  format_time NaN = Raise (ValueError "cannot convert float NaN to integer").
Proof. split; [by intros []|done]. Qed.

(** The decomposition of a whole number of hours. *)
Lemma format_time_whole_hours (n : Z) :
  (0 ≤ n)%Z → format_time (Fin (inject_Z (3600 * n))) = Ok (timestamp n 0 0 0).
Proof.
  intros Hn. rewrite format_time_Fin. cbv zeta.
  assert (Hh : Qfloor (inject_Z (3600 * n) / 3600) = n).
  { rewrite <- (Qfloor_Z n) at 2. apply Qfloor_comp.
    rewrite inject_Z_mult. change (inject_Z 3600) with 3600. field. }
  rewrite Hh.
  assert (H1 : inject_Z (3600 * n) - 3600 * inject_Z n == 0).
  { rewrite inject_Z_mult. change (inject_Z 3600) with 3600. ring. }
  set (r1 := inject_Z (3600 * n) - 3600 * inject_Z n) in *.
  assert (Hm : Qfloor (r1 / 60) = 0%Z).
  { rewrite (Qfloor_comp (r1 / 60) 0); [done|]. rewrite H1. reflexivity. }
  rewrite Hm.
  assert (H2 : r1 - 60 * inject_Z 0 == 0) by (rewrite H1; reflexivity).
  set (r2 := r1 - 60 * inject_Z 0) in *.
  rewrite (Qfloor_comp r2 0 H2).
  rewrite (Qround_half_even_comp ((r2 - inject_Z (Qfloor 0)) * 1000) 0)
    by (rewrite H2; reflexivity).
  reflexivity.
Qed.

(** C10: for every finite non-negative input, an exact real or a binary64
    double, the minutes and the seconds fields are two digits each, for a
    value from 0 to 59; the hours field is not bounded (every [n >= 0] is
    the hours field of some input); the milliseconds field lies between 0
    and 1000 and does reach 1000, one above its nominal range. *)
Theorem format_time_field_ranges (s : Q) :
  0 <= s →
  (∃ h m sec ms : Z,
     format_time (Fin s)
     = Ok (format_d 2 h +:+ ":" +:+ two_digits m +:+ ":" +:+ two_digits sec
           +:+ "," +:+ format_d 3 ms) ∧
     (0 ≤ h)%Z ∧ (0 ≤ m ≤ 59)%Z ∧ (0 ≤ sec ≤ 59)%Z ∧ (0 ≤ ms ≤ 1000)%Z) ∧
  (∀ x : spec_float,
     valid_binary 53 1024 x = true → b64_nonneg x →
     ∃ h m sec ms : Z,
       format_time x
       = Ok (format_d 2 h +:+ ":" +:+ two_digits m +:+ ":" +:+ two_digits sec
             +:+ "," +:+ format_d 3 ms) ∧
       (0 ≤ h)%Z ∧ (0 ≤ m ≤ 59)%Z ∧ (0 ≤ sec ≤ 59)%Z ∧ (0 ≤ ms ≤ 1000)%Z) ∧
  (∀ n : Z, (0 ≤ n)%Z →
     format_time (Fin (inject_Z (3600 * n))) = Ok (timestamp n 0 0 0)) ∧
  format_time (Fin (599996 # 10000)) = Ok (timestamp 0 0 59 1000) ∧
  format_time (B64.literal 599996 4) = Ok (timestamp 0 0 59 1000).
Proof.
  intros Hs. split_and!;
    [| | apply format_time_whole_hours | by vm_compute | by vm_compute].
  2:{ intros x Hv Hx.
      destruct (format_time_b64_fields x (conj Hv Hx))
        as (h & m & sec & ms & Hfmt & Hh & Hm & Hsec & Hms).
      exists h, m, sec, ms. split_and!; try lia.
      rewrite Hfmt. unfold timestamp.
      by rewrite (format_d_two_digits m), (format_d_two_digits sec) by lia. }
  destruct (format_time_decomposes s) as (h & m & sec & ms & Hfmt & Hdec).
  pose proof (decomposes_ranges _ _ _ _ _ Hdec) as (Hm & Hsec & Hms & Hh).
  exists h, m, sec, ms. split_and!; try lia; [|by apply Hh].
  rewrite Hfmt. unfold timestamp.
  by rewrite (format_d_two_digits m), (format_d_two_digits sec) by lia.
Qed.

Lemma format_time_field_ranges_witness :
  0 <= 36615 # 10 ∧
  ∃ h m sec ms : Z,
    format_time (Fin (36615 # 10))
    = Ok (format_d 2 h +:+ ":" +:+ two_digits m +:+ ":" +:+ two_digits sec
          +:+ "," +:+ format_d 3 ms) ∧
    (0 ≤ h)%Z ∧ (0 ≤ m ≤ 59)%Z ∧ (0 ≤ sec ≤ 59)%Z ∧ (0 ≤ ms ≤ 1000)%Z.
Proof.
  assert (Hs : 0 <= 36615 # 10) by (unfold Qle; simpl; lia).
  split; [exact Hs|].
  exact (proj1 (format_time_field_ranges (36615 # 10) Hs)).
Defined.

End FormatTimeClaims.

(** ** Strings *)

Section Strings.

Lemma append_cons (x : ascii) (a b : string) :
  String x a +:+ b = String x (a +:+ b).
Proof. reflexivity. Qed.

Lemma append_assoc (a b c : string) : (a +:+ b) +:+ c = a +:+ b +:+ c.
Proof.
  induction a as [|x a IH]; [done|]. by rewrite !append_cons, IH.
Qed.

Lemma append_empty_r (a : string) : a +:+ "" = a.
Proof.
  induction a as [|x a IH]; [done|]. by rewrite append_cons, IH.
Qed.

Lemma list_ascii_of_string_app (a b : string) :
  list_ascii_of_string (a +:+ b)
  = list_ascii_of_string a ++ list_ascii_of_string b.
Proof.
  induction a as [|x a IH]; [done|]. rewrite append_cons. cbn. by rewrite IH.
Qed.

Lemma string_of_list_ascii_app (k l : list ascii) :
  string_of_list_ascii (k ++ l)
  = string_of_list_ascii k +:+ string_of_list_ascii l.
Proof.
  induction k as [|x k IH]; [done|]. cbn. by rewrite append_cons, IH.
Qed.

Lemma list_ascii_of_string_lower (s : string) :
  list_ascii_of_string (lower s) = ascii_lower <$> list_ascii_of_string s.
Proof. induction s as [|x s IH]; [done|]. cbn. by rewrite IH. Qed.

Lemma lower_app (a b : string) : lower (a +:+ b) = lower a +:+ lower b.
Proof.
  induction a as [|x a IH]; [done|]. rewrite append_cons. cbn.
  by rewrite append_cons, IH.
Qed.

Lemma lower_length (s : string) : String.length (lower s) = String.length s.
Proof. induction s as [|x s IH]; [done|]. cbn. by rewrite IH. Qed.

Lemma endswith_spec (s suffix : string) :
  endswith s suffix = true ↔ ∃ stem : string, s = stem +:+ suffix.
Proof.
  unfold endswith. rewrite bool_decide_eq_true. split.
  - intros [k Hk]. exists (string_of_list_ascii k).
    rewrite <- (string_of_list_ascii_of_string s), Hk.
    by rewrite string_of_list_ascii_app, string_of_list_ascii_of_string.
  - intros [stem ->]. exists (list_ascii_of_string stem).
    apply list_ascii_of_string_app.
Qed.

End Strings.

(** ** The subtitle writer *)

Section Writer.
Context {F : Type} `{PyFloat F} {E : Type} `{Platform F E}.
Variable self : pipeline.

Lemma segment_body_block (seg : segment F) (body : string) (index : Z) :
  segment_body seg = Ok body →
  ∃ start end_ : string,
    format_time (seg_start seg) = Ok start ∧
    format_time (seg_end seg) = Ok end_ ∧
    srt_block index start end_ (seg_text seg) = (pretty index +:+ nl) +:+ body.
Proof.
  unfold segment_body. intros Hb.
  destruct (format_time (seg_start seg)) as [start|] eqn:Hs; [|done].
  destruct (format_time (seg_end seg)) as [end_|] eqn:He; [|done].
  simpl in Hb. injection Hb as <-. exists start, end_.
  split_and!; [done..|]. unfold srt_block. by rewrite append_assoc.
Qed.

(** The loop appends one block per segment, numbered from [index] on. *)
Lemma write_blocks_appends (path : string) (segments : list (segment F))
    (bodies : list string) :
  Forall2 (λ seg body, segment_body seg = Ok body) segments bodies →
  ∀ (index : Z) (w : world E) (content : string),
    files w !! path = Some content →
    write_blocks path index segments w
    = (Ok (),
       World (<[path := content +:+
                 join_all (zip_with String.append
                   ((λ k : Z, pretty k +:+ nl) <$> seqZ index (Z.of_nat (length bodies)))
                   bodies)]> (files w))
             (log w) (ext w)).
Proof.
  induction 1 as [|seg body segments bodies Hbody _ IH];
    intros index w content Hc.
  - simpl. unfold mret, M_ret, ret. rewrite append_empty_r.
    rewrite insert_id by done. by destruct w.
  - destruct (segment_body_block seg body index Hbody)
      as (start & end_ & Hs & He & Hblock).
    cbn [write_blocks]. unfold mbind, M_bind, bind, lift at 1 2.
    rewrite Hs, He. unfold file_write at 1. cbn [files log ext].
    rewrite (alter_alt_Some _ _ _ _ Hc), Hblock.
    erewrite IH; [|cbn [files]; apply lookup_insert_eq].
    cbn [files log ext length]. rewrite insert_insert_eq.
    rewrite Nat2Z.inj_succ, (seqZ_cons index) by lia.
    rewrite Z.pred_succ. cbn [fmap list_fmap zip_with join_all foldr].
    by rewrite !append_assoc.
Qed.

(** With the file opened and every timestamp formatted, the method writes
    the document of the segments' bodies, logs one record and returns the
    path. *)
Lemma generate_subtitle_file_writes (segments : list (segment F))
    (bodies : list string) (name : string) (w : world E) :
  let path := path_join (output_dir self) (name +:+ ".srt") in
  os_open_w path (ext w) = None →
  Forall2 (λ seg body, segment_body seg = Ok body) segments bodies →
  generate_subtitle_file self segments name w
  = (Ok path,
     World (<[path := document bodies]> (files w))
           (log w ++ [(INFO, "Subtitle file generated: " +:+ path)])
           (ext w)).
Proof.
  intros path Hopen Hbodies. unfold generate_subtitle_file.
  fold path. unfold try_except, mbind, M_bind, bind, open_w at 1.
  cbn [ext]. rewrite Hopen. unfold file_truncate at 1.
  erewrite (write_blocks_appends path segments bodies Hbodies);
    [|cbn [files]; apply lookup_insert_eq].
  cbn [files log ext]. rewrite insert_insert_eq. reflexivity.
Qed.

Lemma index_lines_length (n : nat) : length (index_lines n) = n.
Proof. unfold index_lines. rewrite length_fmap, length_seqZ. lia. Qed.

Lemma index_lines_lookup (n k : nat) :
  (k < n)%nat →
  index_lines n !! k = Some (pretty (Z.of_nat k + 1)%Z +:+ nl).
Proof.
  intros Hk. unfold index_lines. rewrite list_lookup_fmap.
  rewrite lookup_seqZ_lt by lia. cbn. do 3 f_equal. lia.
Qed.

(** A single segment whose times format as [00:00:00,000] and
    [00:00:01,000]. *)
Lemma generate_subtitle_file_one_block (start end_ : F) (name : string)
    (w : world E) :
  let path := path_join (output_dir self) (name +:+ ".srt") in
  os_open_w path (ext w) = None →
  format_time start = Ok "00:00:00,000"%string →
  format_time end_ = Ok "00:00:01,000"%string →
  ∃ w' : world E,
    generate_subtitle_file self [Segment start end_ "Hi"] name w = (Ok path, w') ∧
    files w' !! path
    = Some ("1" +:+ nl +:+ "00:00:00,000 --> 00:00:01,000" +:+ nl +:+
            "Hi" +:+ nl +:+ nl).
Proof.
  intros path Hopen Hs He. eexists. split.
  - apply (generate_subtitle_file_writes _
      ["00:00:00,000 --> 00:00:01,000" +:+ nl +:+ "Hi" +:+ nl +:+ nl]);
      [done|].
    constructor; [|constructor]. unfold segment_body. cbn [seg_start seg_end].
    by rewrite Hs, He.
  - cbn [files]. by rewrite lookup_insert_eq.
Qed.

(** C5: for a sequence of [N] segments the file written holds exactly [N]
    blocks, one per segment and in their order; the index line of the
    block at position [k] (from 0) is the decimal [k + 1], whatever the
    segment is. *)
Theorem generate_subtitle_file_indices (segments : list (segment F))
    (bodies : list string) (name : string) (w : world E) :
  let path := path_join (output_dir self) (name +:+ ".srt") in
  let N := length segments in
  os_open_w path (ext w) = None →
  Forall2 (λ seg body, segment_body seg = Ok body) segments bodies →
  ∃ w' : world E,
    generate_subtitle_file self segments name w = (Ok path, w') ∧
    files w' !! path
    = Some (join_all (zip_with String.append (index_lines N) bodies)) ∧
    length bodies = N ∧ length (index_lines N) = N ∧
    ∀ k : nat, (k < N)%nat →
      index_lines N !! k = Some (pretty (Z.of_nat k + 1)%Z +:+ nl).
Proof.
  intros path N Hopen Hbodies.
  assert (HN : length bodies = N) by (symmetry; by eapply Forall2_length).
  eexists. split_and!.
  - by apply (generate_subtitle_file_writes _ bodies).
  - cbn [files]. rewrite lookup_insert_eq. unfold document. by rewrite HN.
  - done.
  - apply index_lines_length.
  - apply index_lines_lookup.
Qed.

(** C6: for the empty sequence of segments the method raises nothing,
    returns the path and leaves an empty file there: zero blocks. *)
Theorem generate_subtitle_file_empty (name : string) (w : world E) :
  let path := path_join (output_dir self) (name +:+ ".srt") in
  os_open_w path (ext w) = None →
  ∃ w' : world E,
    generate_subtitle_file self [] name w = (Ok path, w') ∧
    files w' !! path = Some ""%string.
Proof.
  intros path Hopen. eexists. split.
  - by apply (generate_subtitle_file_writes [] []).
  - cbn [files]. by rewrite lookup_insert_eq.
Qed.

End Writer.

(** *** The single segment of the specification's example *)

Section SingleSegment.
Context {E : Type}.

(** C4: for the single segment from 0 to 1 with the text ["Hi"], the file
    written holds exactly the index line [1], the line
    [00:00:00,000 --> 00:00:01,000], the text line and one blank line, with
    which the document ends; on exact reals and on binary64 alike. *)
Theorem generate_subtitle_file_single :
  (∀ (P : Platform xreal E) (self : pipeline) (name : string) (w : world E),
     let path := path_join (output_dir self) (name +:+ ".srt") in
     os_open_w path (ext w) = None →
     ∃ w' : world E,
       generate_subtitle_file self [Segment (Fin 0) (Fin 1) "Hi"] name w
       = (Ok path, w') ∧
       files w' !! path
       = Some ("1" +:+ nl +:+ "00:00:00,000 --> 00:00:01,000" +:+ nl +:+
               "Hi" +:+ nl +:+ nl)) ∧
  (∀ (P : Platform spec_float E) (self : pipeline) (name : string)
     (w : world E),
     let path := path_join (output_dir self) (name +:+ ".srt") in
     os_open_w path (ext w) = None →
     ∃ w' : world E,
       generate_subtitle_file self
         [Segment (B64.whole 0) (B64.whole 1) "Hi"] name w
       = (Ok path, w') ∧
       files w' !! path
       = Some ("1" +:+ nl +:+ "00:00:00,000 --> 00:00:01,000" +:+ nl +:+
               "Hi" +:+ nl +:+ nl)).
Proof.
  split; intros P self name w path Hopen;
    by apply generate_subtitle_file_one_block.
Qed.

End SingleSegment.

Lemma generate_subtitle_file_single_witness :
  ∃ w' : world nat,
    generate_subtitle_file (H0 := Demo.platform) Demo.self
      [Segment (Fin 0) (Fin 1) "Hi"] "b" Demo.start
    = (Ok "out/b.srt"%string, w') ∧
    files w' !! "out/b.srt"%string
    = Some ("1" +:+ nl +:+ "00:00:00,000 --> 00:00:01,000" +:+ nl +:+
            "Hi" +:+ nl +:+ nl).
Proof.
  exact (proj1 generate_subtitle_file_single Demo.platform Demo.self "b"
           Demo.start eq_refl).
Defined.

Lemma generate_subtitle_file_indices_witness :
  Forall2 (λ seg body, segment_body seg = Ok body)
          (transcript_of <$> Demo.heard) Demo.bodies ∧
  ∃ w' : world nat,
    generate_subtitle_file (H0 := Demo.platform) Demo.self
      (transcript_of <$> Demo.heard) "b" Demo.start
    = (Ok "out/b.srt"%string, w') ∧
    files w' !! "out/b.srt"%string
    = Some (join_all (zip_with String.append (index_lines 2) Demo.bodies)) ∧
    length Demo.bodies = 2%nat ∧ length (index_lines 2) = 2%nat ∧
    ∀ k : nat, (k < 2)%nat →
      index_lines 2 !! k = Some (pretty (Z.of_nat k + 1)%Z +:+ nl).
Proof.
  assert (Hb : Forall2 (λ seg body, segment_body seg = Ok body)
                 (transcript_of <$> Demo.heard) Demo.bodies).
  { repeat constructor. }
  split; [exact Hb|].
  exact (generate_subtitle_file_indices (H0 := Demo.platform) Demo.self
           (transcript_of <$> Demo.heard) Demo.bodies "b" Demo.start
           eq_refl Hb).
Defined.

Lemma generate_subtitle_file_empty_witness :
  ∃ w' : world nat,
    generate_subtitle_file (H0 := Demo.platform) Demo.self [] "b" Demo.start
    = (Ok "out/b.srt"%string, w') ∧
    files w' !! "out/b.srt"%string = Some ""%string.
Proof.
  exact (generate_subtitle_file_empty (H0 := Demo.platform) Demo.self "b"
           Demo.start eq_refl).
Defined.

(** ** The directory scanner *)

Section Scanner.
Context {F E : Type} `{Platform F E}.
Variable self : pipeline.

Lemma lower_video_suffix (ext : string) :
  ext ∈ video_suffixes → lower ext = ext ∧ String.length ext = 4%nat.
Proof.
  unfold video_suffixes. rewrite !elem_of_cons, elem_of_nil.
  intros [->|[->|[->|[->|[]]]]]; done.
Qed.

(** A suffix of [lower f] is the lowering of a suffix of [f]. *)
Lemma lower_endswith (f ext : string) :
  endswith (lower f) ext = true ↔
  ∃ stem tail : string, f = stem +:+ tail ∧ lower tail = ext.
Proof.
  rewrite endswith_spec. split.
  - intros [k Hk].
    apply (f_equal list_ascii_of_string) in Hk.
    rewrite list_ascii_of_string_lower, list_ascii_of_string_app in Hk.
    apply fmap_app_inv in Hk as (l1 & l2 & _ & H2 & Hf).
    exists (string_of_list_ascii l1), (string_of_list_ascii l2). split.
    + by rewrite <- string_of_list_ascii_app, <- Hf,
        string_of_list_ascii_of_string.
    + rewrite <- (string_of_list_ascii_of_string (lower _)),
        list_ascii_of_string_lower, list_ascii_of_string_of_list_ascii, <- H2.
      apply string_of_list_ascii_of_string.
  - intros (stem & tail & -> & <-). exists (lower stem). apply lower_app.
Qed.

(** The test of the comprehension, in the words of the specification. *)
Lemma video_test_spec (f : string) :
  endswith_any (lower f) video_suffixes = true ↔
  ∃ ext : string, ext ∈ video_suffixes ∧ ends_with_ignoring_case f ext.
Proof.
  unfold endswith_any, ends_with_ignoring_case. rewrite existsb_exists.
  split; intros (ext & Hin & Hend); exists ext.
  - apply list_elem_of_In in Hin. split; [done|].
    apply lower_endswith in Hend as (stem & tail & -> & Ht).
    exists stem, tail. split; [done|].
    by rewrite (proj1 (lower_video_suffix ext Hin)).
  - split; [by apply list_elem_of_In|].
    destruct Hend as (stem & tail & -> & Ht).
    apply lower_endswith. exists stem, tail. split; [done|].
    by rewrite Ht, (proj1 (lower_video_suffix ext Hin)).
Qed.

Lemma video_test_accepts (stem tail : string) :
  lower tail ∈ video_suffixes →
  endswith_any (lower (stem +:+ tail)) video_suffixes = true.
Proof.
  intros Hin. apply video_test_spec. exists (lower tail). split; [done|].
  exists stem, tail. split; [done|].
  by rewrite (proj1 (lower_video_suffix _ Hin)).
Qed.

Lemma video_test_rejects (stem tail : string) :
  String.length tail = 4%nat → lower tail ∉ video_suffixes →
  endswith_any (lower (stem +:+ tail)) video_suffixes = false.
Proof.
  intros Hlen Hnot. apply not_true_iff_false. intros Hyes.
  apply video_test_spec in Hyes as (ext & Hin & stem' & tail' & Heq & Ht).
  destruct (lower_video_suffix ext Hin) as [Hlow Hl4]. rewrite Hlow in Ht.
  apply (f_equal list_ascii_of_string) in Heq.
  rewrite !list_ascii_of_string_app in Heq.
  assert (Hl : ∀ s, length (list_ascii_of_string s) = String.length s).
  { intros s. induction s as [|x s IH]; [done|]. cbn. by rewrite IH. }
  apply app_inj_2 in Heq as [_ Heq];
    [|by rewrite !Hl, Hlen, <- (lower_length tail'), Ht].
  apply (f_equal string_of_list_ascii) in Heq.
  rewrite !string_of_list_ascii_of_string in Heq. subst tail'.
  by rewrite Ht in Hnot.
Qed.

Lemma filter_sublist {A} (p : A → bool) (l : list A) :
  List.filter p l `sublist_of` l.
Proof.
  induction l as [|x l IH]; [done|]. cbn.
  destruct (p x); by constructor.
Qed.

(** C7: the scanner keeps, in the order of the listing, exactly the names
    that end, letter case apart, in [.mp4], [.mov], [.mkv] or [.avi], and
    joins each to the input directory; of four files with the extensions
    [.mp4], [.txt], [.MOV] and [.avi] it yields the first, the third and
    the fourth. *)
Theorem scan_videos_selects :
  (∀ names : list string,
     ∃ kept : list string,
       scan_videos self names = path_join (input_dir self) <$> kept ∧
       kept `sublist_of` names ∧
       ∀ f : string,
         f ∈ kept ↔
         f ∈ names ∧
         ∃ ext : string, ext ∈ [".mp4"; ".mov"; ".mkv"; ".avi"]
                         ∧ ends_with_ignoring_case f ext) ∧
  (∀ a b c d : string,
     scan_videos self [a +:+ ".mp4"; b +:+ ".txt"; c +:+ ".MOV"; d +:+ ".avi"]
     = [path_join (input_dir self) (a +:+ ".mp4");
        path_join (input_dir self) (c +:+ ".MOV");
        path_join (input_dir self) (d +:+ ".avi")]).
Proof.
  split.
  - intros names. eexists. split; [reflexivity|]. split.
    + apply filter_sublist.
    + intros f. rewrite list_elem_of_In, filter_In, <- list_elem_of_In.
      by rewrite video_test_spec.
  - intros a b c d. unfold scan_videos. cbn [List.filter].
    rewrite (video_test_accepts a ".mp4"), (video_test_accepts c ".MOV"),
      (video_test_accepts d ".avi"), (video_test_rejects b ".txt");
      [done|done|..]; apply (bool_decide_unpack _); by vm_compute.
Qed.

End Scanner.

(** ** The run loop *)

Section Orchestrator.
Context {F : Type} `{PyFloat F} {E : Type} `{Platform F E}.
Variable self : pipeline.
Local Abbreviation M := (@Run.M E).
Local Abbreviation wav_of := (wav_of self).
Local Abbreviation srt_of := (srt_of self).

(** *** The three stages, one by one *)

Lemma extract_audio_raises (video : string) (w : world E) (err : exn) (e1 : E) :
  ffmpeg_run video (wav_of video) (ext w) = (Some err, e1) →
  extract_audio self video w
  = (Raise err,
     logged ERROR ("Failed to extract audio from " +:+ video +:+ ": "
                   +:+ exn_str err) (with_ext e1 w)).
Proof.
  intros Hrun. unfold extract_audio, try_except, mbind, M_bind, bind.
  unfold ffmpeg at 1. fold (base_name_of video). fold (wav_of video).
  by rewrite Hrun.
Qed.

Lemma extract_audio_returns (video : string) (w : world E) (e1 : E) :
  ffmpeg_run video (wav_of video) (ext w) = (None, e1) →
  extract_audio self video w
  = (Ok (wav_of video),
     logged INFO ("Extracted audio: " +:+ wav_of video) (with_ext e1 w)).
Proof.
  intros Hrun. unfold extract_audio, try_except, mbind, M_bind, bind.
  unfold ffmpeg at 1. fold (base_name_of video). fold (wav_of video).
  by rewrite Hrun.
Qed.

Lemma transcribe_raises (audio : string) (w : world E) (err : exn) (e1 : E) :
  model_transcribe audio (ext w) = (Raise err, e1) →
  transcribe audio w
  = (Raise err,
     logged ERROR ("Transcription failed for " +:+ audio +:+ ": "
                   +:+ exn_str err)
       (with_ext e1
          (logged INFO ("Transcribing: " +:+ path_basename audio) w))).
Proof.
  intros Hrun. unfold transcribe, try_except, mbind, M_bind, bind.
  unfold logger at 1, model at 1. cbn [ext logged]. by rewrite Hrun.
Qed.

Lemma transcribe_returns (audio : string) (w : world E)
    (heard : option (list (raw_segment F))) (e1 : E) :
  model_transcribe audio (ext w) = (Ok heard, e1) →
  transcribe audio w
  = (Ok (transcript_of <$> default [] heard),
     logged INFO ("Transcription complete: " +:+ path_basename audio)
       (with_ext e1
          (logged INFO ("Transcribing: " +:+ path_basename audio) w))).
Proof.
  intros Hrun. unfold transcribe, try_except, mbind, M_bind, bind.
  unfold logger at 1, model at 1. cbn [ext logged]. by rewrite Hrun.
Qed.

Lemma generate_subtitle_file_raises_on_open (segments : list (segment F))
    (name : string) (w : world E) (err : exn) :
  os_open_w (path_join (output_dir self) (name +:+ ".srt")) (ext w) = Some err →
  generate_subtitle_file self segments name w
  = (Raise err,
     logged ERROR ("Failed to write subtitle file for " +:+ name +:+ ": "
                   +:+ exn_str err) w).
Proof.
  intros Hopen. unfold generate_subtitle_file, try_except, mbind, M_bind, bind.
  unfold open_w at 1. by rewrite Hopen.
Qed.

(** *** One turn of the loop *)

Lemma run_loop_after_failure (video : string) (rest : list string)
    (w w1 : world E) (err : exn) :
  stages self video (base_name_of video)
    (logged INFO ("Processing video: " +:+ base_name_of video) w)
  = (Raise err, w1) →
  run_loop self (video :: rest) w
  = run_loop self rest
      (logged ERROR ("Error processing " +:+ video +:+ ": " +:+ exn_str err) w1).
Proof.
  intros Hst. cbn [run_loop]. fold (base_name_of video).
  unfold mbind at 1 2, M_bind, bind, logger at 1, try_except.
  by rewrite Hst.
Qed.

Lemma run_loop_after_success (video : string) (rest : list string)
    (w w1 : world E) :
  stages self video (base_name_of video)
    (logged INFO ("Processing video: " +:+ base_name_of video) w)
  = (Ok (), w1) →
  run_loop self (video :: rest) w = run_loop self rest w1.
Proof.
  intros Hst. cbn [run_loop]. fold (base_name_of video).
  unfold mbind at 1 2, M_bind, bind, logger at 1, try_except.
  by rewrite Hst.
Qed.

(** The loop raises nothing, whatever the stages do. *)
Lemma run_loop_returns (videos : list string) (w : world E) :
  (run_loop self videos w).1 = Ok ().
Proof.
  revert w. induction videos as [|video rest IH]; intros w; [done|].
  destruct (stages self video (base_name_of video)
    (logged INFO ("Processing video: " +:+ base_name_of video) w))
    as [[[]|err] w1] eqn:Hst.
  - rewrite (run_loop_after_success _ _ _ _ Hst). apply IH.
  - rewrite (run_loop_after_failure _ _ _ _ _ Hst). apply IH.
Qed.

(** *** The log only grows *)

Lemma grows_ret {A} (a : A) : grows (E:=E) (mret a).
Proof. by intros w. Qed.

Lemma grows_raise {A} (e : exn) : grows (E:=E) (raise (A:=A) e).
Proof. by intros w. Qed.

Lemma grows_lift {A} (r : result A) : grows (E:=E) (lift r).
Proof. by intros w. Qed.

Lemma grows_logger (l : level) (msg : string) : grows (E:=E) (logger l msg).
Proof. intros w. by apply prefix_app_r. Qed.

Lemma grows_bind {A B} (m : M A) (k : A → M B) :
  grows m → (∀ a, grows (k a)) → grows (m ≫= k).
Proof.
  intros Hm Hk w. unfold mbind, M_bind, bind. specialize (Hm w).
  destruct (m w) as [[a|e] w1]; [|done].
  etrans; [exact Hm|apply Hk].
Qed.

Lemma grows_try_except {A} (body : M A) (handler : exn → M A) :
  grows body → (∀ e, grows (handler e)) → grows (try_except body handler).
Proof.
  intros Hb Hh w. unfold try_except. specialize (Hb w).
  destruct (body w) as [[a|e] w1]; [done|].
  etrans; [exact Hb|apply Hh].
Qed.

Lemma grows_write_blocks (path : string) (segments : list (segment F))
    (index : Z) :
  grows (write_blocks (E:=E) path index segments).
Proof.
  revert index. induction segments as [|seg rest IH]; intros index.
  - apply grows_ret.
  - cbn [write_blocks].
    repeat (apply grows_bind; [|intros ?]);
      first [apply grows_lift | apply IH | by intros w].
Qed.

Lemma grows_stages (video base_name : string) :
  grows (stages self video base_name).
Proof.
  unfold stages, extract_audio, transcribe, generate_subtitle_file.
  repeat first
    [ apply grows_bind; [|intros ?]
    | apply grows_try_except; [|intros ?]
    | apply grows_ret | apply grows_raise | apply grows_logger
    | apply grows_write_blocks ].
  - intros w. unfold ffmpeg. by destruct (ffmpeg_run _ _ _).
  - intros w. unfold model. by destruct (model_transcribe _ _).
  - intros w. unfold open_w. by destruct (os_open_w _ _).
Qed.

Lemma grows_run_loop (videos : list string) : grows (run_loop self videos).
Proof.
  induction videos as [|video rest IH]; [apply grows_ret|].
  cbn [run_loop]. cbv zeta.
  repeat first
    [ apply grows_stages | apply IH | apply grows_logger
    | apply grows_try_except; [|intros ?]
    | apply grows_bind; [|intros ?] ].
Qed.

(** The loop over a concatenation is the loop over its parts. *)
Lemma run_loop_app (pre post : list string) (w : world E) :
  run_loop self (pre ++ post) w = run_loop self post (run_loop self pre w).2.
Proof.
  revert w. induction pre as [|video pre IH]; intros w; [done|].
  cbn [app].
  destruct (stages self video (base_name_of video)
    (logged INFO ("Processing video: " +:+ base_name_of video) w))
    as [[[]|err] w1] eqn:Hst.
  - by rewrite !(run_loop_after_success _ _ _ _ Hst).
  - by rewrite !(run_loop_after_failure _ _ _ _ _ Hst).
Qed.

(** *** A failure in each stage makes the statements under [try] raise *)

Lemma stages_raise_in_extraction (video : string) (w : world E) (err : exn)
    (e1 : E) :
  ffmpeg_run video (wav_of video) (ext w) = (Some err, e1) →
  ∃ w1, stages self video (base_name_of video) w = (Raise err, w1).
Proof.
  intros Hx. eexists. unfold stages, mbind, M_bind, bind.
  by rewrite (extract_audio_raises _ _ _ _ Hx).
Qed.

Lemma stages_raise_in_transcription (video : string) (w : world E)
    (err : exn) (e1 e2 : E) :
  ffmpeg_run video (wav_of video) (ext w) = (None, e1) →
  model_transcribe (wav_of video) e1 = (Raise err, e2) →
  ∃ w1, stages self video (base_name_of video) w = (Raise err, w1).
Proof.
  intros Hx Ht. eexists. unfold stages, mbind, M_bind, bind.
  rewrite (extract_audio_returns _ _ _ Hx).
  by rewrite (transcribe_raises (wav_of video)
    (logged INFO _ (with_ext e1 w)) err e2 Ht).
Qed.

Lemma stages_raise_in_writing (video : string) (w : world E) (err : exn)
    (e1 e2 : E) (heard : option (list (raw_segment F))) :
  ffmpeg_run video (wav_of video) (ext w) = (None, e1) →
  model_transcribe (wav_of video) e1 = (Ok heard, e2) →
  os_open_w (srt_of video) e2 = Some err →
  ∃ w1, stages self video (base_name_of video) w = (Raise err, w1).
Proof.
  intros Hx Ht Ho. eexists. unfold stages, mbind, M_bind, bind.
  rewrite (extract_audio_returns _ _ _ Hx).
  rewrite (transcribe_returns (wav_of video)
    (logged INFO _ (with_ext e1 w)) heard e2 Ht).
  by rewrite (generate_subtitle_file_raises_on_open _ (base_name_of video)
    (logged INFO _ (with_ext e2 _)) err Ho).
Qed.

Lemma stages_return (video : string) (w : world E) (e1 e2 : E)
    (heard : option (list (raw_segment F))) (bodies : list string) :
  ffmpeg_run video (wav_of video) (ext w) = (None, e1) →
  model_transcribe (wav_of video) e1 = (Ok heard, e2) →
  os_open_w (srt_of video) e2 = None →
  Forall2 (λ seg body, segment_body seg = Ok body)
          (transcript_of <$> default [] heard) bodies →
  stages self video (base_name_of video) w
  = (Ok (),
     World (<[srt_of video := document bodies]> (files w))
       (log w ++
        [(INFO, "Extracted audio: " +:+ wav_of video);
         (INFO, "Transcribing: " +:+ path_basename (wav_of video));
         (INFO, "Transcription complete: " +:+ path_basename (wav_of video));
         (INFO, "Subtitle file generated: " +:+ srt_of video)])
       e2).
Proof.
  intros Hx Ht Ho Hb. unfold stages, mbind, M_bind, bind.
  rewrite (extract_audio_returns _ _ _ Hx).
  rewrite (transcribe_returns (wav_of video)
    (logged INFO _ (with_ext e1 w)) heard e2 Ht).
  rewrite (generate_subtitle_file_writes self _ bodies (base_name_of video)
    (logged INFO _ (with_ext e2 _)) Ho Hb).
  unfold mret, M_ret, ret, logged, with_ext. cbn [files log ext].
  by rewrite <- !app_assoc.
Qed.

(** C8: a failure in a per-file stage ends the processing of that file
    only. The loop, and the run once the directory is listed, raise
    nothing; when the stages of a video raise, in extraction, in
    transcription or in writing, the loop records an error that names the
    video and goes on with the videos that follow, and the record stays in
    the log; if the extraction fails for video A and the three stages
    succeed for video B, the run returns, B's subtitle file is written and
    the log holds the error for A. *)
Theorem run_isolates_failures :
  (∀ (videos : list string) (w : world E), (run_loop self videos w).1 = Ok ()) ∧
  (∀ (names : list string) (w : world E),
     os_listdir (input_dir self) (ext w) = Ok names → (run self w).1 = Ok ()) ∧
  (∀ (video : string) (w : world E) (err : exn) (e1 e2 : E)
     (heard : option (list (raw_segment F))),
     (ffmpeg_run video (wav_of video) (ext w) = (Some err, e1) ∨
      ffmpeg_run video (wav_of video) (ext w) = (None, e1) ∧
      (model_transcribe (wav_of video) e1 = (Raise err, e2) ∨
       model_transcribe (wav_of video) e1 = (Ok heard, e2) ∧
       os_open_w (srt_of video) e2 = Some err)) →
     ∃ w1, stages self video (base_name_of video) w = (Raise err, w1)) ∧
  (∀ (pre : list string) (video : string) (post : list string)
     (w w1 : world E) (err : exn),
     stages self video (base_name_of video)
       (logged INFO ("Processing video: " +:+ base_name_of video)
          (run_loop self pre w).2)
     = (Raise err, w1) →
     run_loop self (pre ++ video :: post) w
     = run_loop self post
         (logged ERROR ("Error processing " +:+ video +:+ ": " +:+ exn_str err)
            w1) ∧
     (ERROR, "Error processing " +:+ video +:+ ": " +:+ exn_str err)
     ∈ log (run_loop self (pre ++ video :: post) w).2) ∧
  (∀ (names : list string) (A B : string) (w : world E) (err : exn)
     (e1 e2 e3 : E) (heard : option (list (raw_segment F)))
     (bodies : list string),
     os_listdir (input_dir self) (ext w) = Ok names →
     scan_videos self names = [A; B] →
     ffmpeg_run A (wav_of A) (ext w) = (Some err, e1) →
     ffmpeg_run B (wav_of B) e1 = (None, e2) →
     model_transcribe (wav_of B) e2 = (Ok heard, e3) →
     os_open_w (srt_of B) e3 = None →
     Forall2 (λ seg body, segment_body seg = Ok body)
             (transcript_of <$> default [] heard) bodies →
     run self w
     = (Ok (),
        World (<[srt_of B := document bodies]> (files w))
          (log w ++
           [(INFO, "Scanning input directory: " +:+ input_dir self);
            (INFO, "Processing video: " +:+ base_name_of A);
            (ERROR, "Failed to extract audio from " +:+ A +:+ ": "
                    +:+ exn_str err);
            (ERROR, "Error processing " +:+ A +:+ ": " +:+ exn_str err);
            (INFO, "Processing video: " +:+ base_name_of B);
            (INFO, "Extracted audio: " +:+ wav_of B);
            (INFO, "Transcribing: " +:+ path_basename (wav_of B));
            (INFO, "Transcription complete: " +:+ path_basename (wav_of B));
            (INFO, "Subtitle file generated: " +:+ srt_of B);
            (INFO, "Processing input directory complete. Outputs saved in: "
                   +:+ output_dir self)])
          e3)).
Proof.
  split_and!.
  - apply run_loop_returns.
  - intros names w Hls. unfold run, mbind, M_bind, bind, logger at 1, listdir.
    cbn [ext logged]. rewrite Hls.
    destruct (scan_videos self names) as [|v vs]; [done|].
    pose proof (run_loop_returns (v :: vs)
      (logged INFO ("Scanning input directory: " +:+ input_dir self) w)) as Hr.
    unfold logged in Hr.
    destruct (run_loop self (v :: vs) _) as [[[]|?] ?]; done.
  - intros video w err e1 e2 heard [Hx|[Hx [Ht|[Ht Ho]]]].
    + by eapply stages_raise_in_extraction.
    + by eapply stages_raise_in_transcription.
    + by eapply stages_raise_in_writing.
  - intros pre video post w w1 err Hst.
    assert (Hgo : run_loop self (pre ++ video :: post) w
      = run_loop self post
          (logged ERROR ("Error processing " +:+ video +:+ ": " +:+ exn_str err)
             w1)).
    { by rewrite run_loop_app, (run_loop_after_failure _ _ _ _ _ Hst). }
    split; [done|]. rewrite Hgo.
    eapply elem_of_prefix; [|apply grows_run_loop].
    cbn [logged log]. apply elem_of_app. right. by apply list_elem_of_singleton.
  - intros names A B w err e1 e2 e3 heard bodies Hls Hscan HxA HxB Ht Ho Hb.
    unfold run, mbind at 1 2, M_bind, bind, logger at 1, listdir.
    set (w0 := logged INFO ("Scanning input directory: " +:+ input_dir self) w).
    change (ext w0) with (ext w). rewrite Hls, Hscan.
    destruct (stages_raise_in_extraction A
      (logged INFO ("Processing video: " +:+ base_name_of A) w0) err e1 HxA)
      as [wA HA].
    pose proof HA as HA'. unfold stages, mbind, M_bind, bind in HA'.
    rewrite (extract_audio_raises A (logged INFO _ w0) err e1 HxA) in HA'.
    injection HA' as <-.
    unfold mbind, M_bind, bind.
    rewrite (run_loop_after_failure _ _ _ _ _ HA).
    erewrite run_loop_after_success;
      [|by apply (stages_return B _ e2 e3 heard bodies)].
    cbn [run_loop]. clear HA.
    unfold mret, M_ret, ret, logger, logged, with_ext, w0, logged.
    cbn [files log ext]. by rewrite <- !app_assoc.
Qed.

End Orchestrator.

Lemma run_isolates_failures_witness :
  run (H0 := Demo.platform) Demo.self Demo.start
  = (Ok (),
     World {["out/b.srt"%string := document Demo.bodies]}
       [(INFO, "Scanning input directory: in"%string);
        (INFO, "Processing video: a"%string);
        (ERROR, "Failed to extract audio from in/a.mp4: ffmpeg error (see stderr output for detail)"%string);
        (ERROR, "Error processing in/a.mp4: ffmpeg error (see stderr output for detail)"%string);
        (INFO, "Processing video: b"%string);
        (INFO, "Extracted audio: out/b.wav"%string);
        (INFO, "Transcribing: b.wav"%string);
        (INFO, "Transcription complete: b.wav"%string);
        (INFO, "Subtitle file generated: out/b.srt"%string);
        (INFO, "Processing input directory complete. Outputs saved in: out"%string)]
       2%nat).
Proof.
  assert (Hb : Forall2 (λ seg body, segment_body seg = Ok body)
                 (transcript_of <$> Demo.heard) Demo.bodies).
  { repeat constructor. }
  exact (proj2 (proj2 (proj2 (proj2
           (run_isolates_failures (H0 := Demo.platform) Demo.self))))
           ["a.mp4"; "notes.txt"; "b.MOV"]%string
           "in/a.mp4"%string "in/b.MOV"%string Demo.start
           (ExternalError "ffmpeg error (see stderr output for detail)")
           1%nat 2%nat 2%nat (Some Demo.heard) Demo.bodies
           eq_refl eq_refl eq_refl eq_refl eq_refl eq_refl Hb).
Defined.

(** * Further properties of the code *)

(** ** Further properties of [format_time] *)

Section FormatTimeFurther.
Local Open Scope Q_scope.

Lemma length_append (a b : string) :
  String.length (a +:+ b) = (String.length a + String.length b)%nat.
Proof.
  induction a as [|x a IH]; [done|]. rewrite append_cons. cbn. by rewrite IH.
Qed.

Lemma length_list_ascii_of_string (s : string) :
  length (list_ascii_of_string s) = String.length s.
Proof. induction s as [|x s IH]; [done|]. cbn. by rewrite IH. Qed.

(** The pattern has twelve characters. *)
Lemma matches_clock_pattern_length (s : string) :
  matches_clock_pattern s = true → String.length s = 12%nat.
Proof.
  unfold matches_clock_pattern. rewrite <- length_list_ascii_of_string.
  destruct (list_ascii_of_string s) as [|? l]; [done|].
  do 11 (destruct l as [|? l]; [done|]).
  by destruct l.
Qed.

(** The decimal numeral of a number from 100 on has three digits or more. *)
Lemma pretty_N_go_length (x : N) (s : string) :
  (String.length s ≤ String.length (pretty_N_go x s))%nat.
Proof.
  revert s. induction (N.lt_wf_0 x) as [x _ IH]; intros s.
  destruct (decide (0 < x)%N) as [Hx|Hx].
  - rewrite pretty_N_go_step by done.
    etrans; [|apply IH; by apply N.div_lt]. cbn. lia.
  - assert (x = 0%N) as -> by lia. by rewrite pretty_N_go_0.
Qed.

Lemma pretty_N_length (x : N) :
  (100 ≤ x)%N → (3 ≤ String.length (pretty x))%nat.
Proof.
  intros Hx. unfold pretty, pretty_N.
  rewrite decide_False by lia.
  assert (H10 : (0 < x `div` 10)%N).
  { apply N.div_str_pos. lia. }
  assert (H100 : (0 < (x `div` 10) `div` 10)%N).
  { apply N.div_str_pos. split; [lia|].
    apply N.div_le_lower_bound; lia. }
  rewrite pretty_N_go_step by lia.
  rewrite pretty_N_go_step by done.
  rewrite pretty_N_go_step by done.
  etrans; [|apply pretty_N_go_length]. done.
Qed.

Lemma format_d_wide (z : Z) :
  (100 ≤ z)%Z → (3 ≤ String.length (format_d 2 z))%nat.
Proof.
  intros Hz. unfold format_d.
  destruct (Z.ltb_spec z 0) as [?|_]; [lia|].
  unfold zero_pad. rewrite length_append.
  pose proof (pretty_N_length (Z.to_N z) ltac:(lia)). lia.
Qed.

Lemma format_d_length (width : nat) (z : Z) :
  (0 ≤ z)%Z → (width ≤ String.length (format_d width z))%nat.
Proof.
  intros Hz. unfold format_d.
  destruct (Z.ltb_spec z 0) as [?|_]; [lia|].
  unfold zero_pad. rewrite length_append.
  set (p := String.length (pretty (Z.to_N z))).
  assert (Hrep : ∀ n, String.length (String.concat "" (replicate n "0")) = n).
  { induction n as [|n IH]; [done|]. destruct n as [|n]; [done|].
    change (String.concat "" (replicate (S (S n)) "0"))
      with ("0" +:+ "" +:+ String.concat "" (replicate (S n) "0")).
    by rewrite !length_append, IH. }
  rewrite Hrep. lia.
Qed.

End FormatTimeFurther.

Section FormatTimeExtras.
Local Open Scope Q_scope.

Lemma b64_value_nonneg (x : spec_float) : b64_regular x → 0 <= b64_value x.
Proof.
  intros Hx. rewrite (b64_value_scaled 2200 x ltac:(done) Hx).
  pose proof (b64_scaled_nonneg 2200 x). unfold Qle. cbn [Qnum Qden]. lia.
Qed.

(** X2: on binary64, for a finite non-negative double [s] below [2^53]:
    the output has the shape [HH:MM:SS,mmm] when [s] is below 100 hours
    and the fractional part times 1000 is below [999.5 - 2^-44]; it has
    not when [s] is 100 hours or more (the hours field has three digits or
    more) or when the fractional part is 0.9995 or more (the milliseconds
    print as [1000]). *)
Theorem format_time_b64_well_formed (x : spec_float) :
  b64_regular x → b64_value x < 9007199254740992 →
  ∃ out : string,
    format_time x = Ok out ∧
    (b64_value x < 360000 →
     (b64_value x - inject_Z (Qfloor (b64_value x))) * 1000
       < (1999 # 2) - (1 # 17592186044416) →
     matches_clock_pattern out = true) ∧
    (360000 <= b64_value x ∨
     9995 # 10000 <= b64_value x - inject_Z (Qfloor (b64_value x)) →
     matches_clock_pattern out = false).
Proof.
  intros Hx Hlt.
  destruct (format_time_b64_value x Hx)
    as (h & ms & p & Hf & Hh & Hhx & Hms & Hmsr & Hnear & Hk).
  specialize (Hhx Hlt). eexists. split; [exact Hf|].
  pose proof (b64_value_nonneg x Hx) as Hv0.
  set (v := b64_value x) in *. set (f := Qfloor v) in *.
  assert (Hf0 : (0 ≤ f)%Z).
  { unfold f. rewrite <- (Qfloor_Z 0). by apply Qfloor_resp_le. }
  pose proof (Z.mod_pos_bound f 3600 ltac:(lia)) as H3600.
  pose proof (Z.mod_pos_bound f 60 ltac:(lia)) as H60.
  assert (Hm : (0 ≤ f mod 3600 / 60 < 60)%Z).
  { split; [apply Z.div_pos; lia | apply Z.div_lt_upper_bound; lia]. }
  assert (Hwide : (100 ≤ h)%Z →
            matches_clock_pattern
              (timestamp h (f mod 3600 / 60) (f mod 60) ms) = false).
  { intros Hh'.
    destruct (matches_clock_pattern _) eqn:Hpat; [exfalso|done].
    apply matches_clock_pattern_length in Hpat.
    unfold timestamp in Hpat. rewrite !length_append in Hpat.
    pose proof (format_d_wide _ Hh').
    pose proof (format_d_length 2 (f mod 3600 / 60) ltac:(lia)).
    pose proof (format_d_length 2 (f mod 60) ltac:(lia)).
    pose proof (format_d_length 3 ms ltac:(lia)).
    cbn [String.length] in Hpat. lia. }
  split.
  - intros H100 Hfrac.
    assert (Hf' : (f < 360000)%Z) by (by apply (floor_between v 0 360000)).
    assert (Hh' : (h < 100)%Z) by (subst h; apply Z.div_lt_upper_bound; lia).
    apply timestamp_matches_pattern; [lia..|]. split; [lia|].
    pose proof (Qround_half_even_near p) as Hr. rewrite <- Hms in Hr.
    apply Qabs_Qle_condition in Hr as [Hr1 Hr2].
    apply Qabs_Qle_condition in Hnear as [Hn1 Hn2].
    rewrite (Zlt_Qlt ms 1000). change (inject_Z 1000) with 1000.
    set (fr := (v - inject_Z f) * 1000) in *. set (qms := inject_Z ms) in *.
    lra.
  - intros [H100|Hfrac].
    + apply Hwide. subst h. apply Z.div_le_lower_bound; [lia|].
      change (3600 * 100)%Z with 360000%Z.
      unfold f. rewrite <- (Qfloor_Z 360000). by apply Qfloor_resp_le.
    + destruct (Z.le_gt_cases 100 h) as [Hh'|Hh']; [by apply Hwide|].
      assert (Hp : inject_Z 1999 * (1 # 2) <= p).
      { apply Hk; [done|]. change (inject_Z 1999) with 1999. lra. }
      apply Qround_half_even_carry in Hp.
      assert (ms = 1000%Z) as -> by lia.
      apply timestamp_carry_breaks_pattern; lia.
Qed.

(** X5: on an infinity [format_time] raises [OverflowError] and on a NaN
    [ValueError], the errors of the first [math.floor]; on exact extended
    reals and on binary64 alike. *)
Theorem format_time_raises_outside_finite :
  (∀ neg : bool,
     format_time (Inf neg)
     = Raise (OverflowError "cannot convert float infinity to integer")) ∧
  format_time NaN = Raise (ValueError "cannot convert float NaN to integer") ∧
  (∀ neg : bool,
     format_time (S754_infinity neg)
     = Raise (OverflowError "cannot convert float infinity to integer")) ∧
  format_time S754_nan
  = Raise (ValueError "cannot convert float NaN to integer").
Proof. split_and!; [by intros []|done|by intros []|done]. Qed.

End FormatTimeExtras.

Lemma format_time_b64_well_formed_witness :
  b64_regular (B64.literal 36615 1) ∧
  (b64_value (B64.literal 36615 1) < 9007199254740992)%Q ∧
  ∃ out : string,
    format_time (B64.literal 36615 1) = Ok out ∧
    ((b64_value (B64.literal 36615 1) < 360000)%Q →
     ((b64_value (B64.literal 36615 1)
       - inject_Z (Qfloor (b64_value (B64.literal 36615 1)))) * 1000
      < (1999 # 2) - (1 # 17592186044416))%Q →
     matches_clock_pattern out = true) ∧
    ((360000 <= b64_value (B64.literal 36615 1))%Q ∨
     (9995 # 10000 <= b64_value (B64.literal 36615 1)
                      - inject_Z (Qfloor (b64_value (B64.literal 36615 1))))%Q →
     matches_clock_pattern out = false).
Proof.
  assert (Hx : b64_regular (B64.literal 36615 1)).
  { split; vm_compute; reflexivity. }
  assert (Hlt : (b64_value (B64.literal 36615 1) < 9007199254740992)%Q).
  { vm_compute. reflexivity. }
  split; [exact Hx|]. split; [exact Hlt|].
  exact (format_time_b64_well_formed _ Hx Hlt).
Defined.

(** *** Whole numbers of seconds on binary64 *)


Section WholeSeconds.
Local Open Scope Q_scope.


End WholeSeconds.


(** ** Further properties of the subtitle writer *)

Section WriterFurther.
Context {F : Type} `{PyFloat F} {E : Type} `{Platform F E}.
Variable self : pipeline.

(** The loop stops at the first segment whose times do not format, with
    the blocks of the segments before it written. *)
Lemma write_blocks_stops (path : string) (pre : list (segment F))
    (bodies : list string) (bad : segment F) (post : list (segment F))
    (err : exn) :
  Forall2 (λ seg body, segment_body seg = Ok body) pre bodies →
  segment_body bad = Raise err →
  ∀ (index : Z) (w : world E) (content : string),
    files w !! path = Some content →
    write_blocks path index (pre ++ bad :: post) w
    = (Raise err,
       World (<[path := content +:+
                 join_all (zip_with String.append
                   ((λ k : Z, pretty k +:+ nl) <$> seqZ index (Z.of_nat (length bodies)))
                   bodies)]> (files w))
             (log w) (ext w)).
Proof.
  intros Hpre Hbad.
  induction Hpre as [|seg body pre bodies Hbody _ IH];
    intros index w content Hc.
  - cbn [app write_blocks length]. unfold mbind, M_bind, bind, lift at 1 2.
    cbn [join_all zip_with fmap list_fmap foldr seqZ].
    rewrite append_empty_r, insert_id by done.
    unfold segment_body in Hbad.
    destruct (format_time (seg_start bad)) as [start|e1]; cbn in Hbad.
    + destruct (format_time (seg_end bad)) as [end_|e2]; cbn in Hbad; [done|].
      injection Hbad as ->. by destruct w.
    + injection Hbad as ->. by destruct w.
  - destruct (segment_body_block seg body index Hbody)
      as (start & end_ & Hs & He & Hblock).
    cbn [app write_blocks]. unfold mbind, M_bind, bind, lift at 1 2.
    rewrite Hs, He. unfold file_write at 1. cbn [files log ext].
    rewrite (alter_alt_Some _ _ _ _ Hc), Hblock.
    erewrite IH; [|cbn [files]; apply lookup_insert_eq].
    cbn [files log ext length]. rewrite insert_insert_eq.
    rewrite Nat2Z.inj_succ, (seqZ_cons index) by lia.
    rewrite Z.pred_succ. cbn [fmap list_fmap zip_with join_all foldr].
    by rewrite !append_assoc.
Qed.

Lemma generate_subtitle_file_stops (pre : list (segment F))
    (bodies : list string) (bad : segment F) (post : list (segment F))
    (err : exn) (name : string) (w : world E) :
  let path := path_join (output_dir self) (name +:+ ".srt") in
  os_open_w path (ext w) = None →
  Forall2 (λ seg body, segment_body seg = Ok body) pre bodies →
  segment_body bad = Raise err →
  generate_subtitle_file self (pre ++ bad :: post) name w
  = (Raise err,
     World (<[path := document bodies]> (files w))
           (log w ++ [(ERROR, "Failed to write subtitle file for " +:+ name
                              +:+ ": " +:+ exn_str err)])
           (ext w)).
Proof.
  intros path Hopen Hpre Hbad. unfold generate_subtitle_file.
  fold path. unfold try_except, mbind, M_bind, bind, open_w at 1.
  cbn [ext]. rewrite Hopen. unfold file_truncate at 1.
  erewrite (write_blocks_stops path pre bodies bad post err Hpre Hbad);
    [|cbn [files]; apply lookup_insert_eq].
  cbn [files log ext]. rewrite insert_insert_eq. reflexivity.
Qed.

Lemma join_all_app (a b : list string) :
  join_all (a ++ b) = join_all a +:+ join_all b.
Proof.
  induction a as [|x a IH]; [done|]. cbn [app join_all foldr].
  fold (join_all (a ++ b)). fold (join_all a). by rewrite IH, append_assoc.
Qed.

(** The document of a longer list begins with the document of the shorter
    one: the blocks that follow are numbered on from where it ended. *)
Lemma document_app (b1 b2 : list string) :
  document (b1 ++ b2)
  = document b1 +:+
    join_all (zip_with String.append
      ((λ k : Z, pretty k +:+ nl)
         <$> seqZ (1 + Z.of_nat (length b1)) (Z.of_nat (length b2)))
      b2).
Proof.
  unfold document, index_lines. rewrite length_app, Nat2Z.inj_add.
  rewrite seqZ_app by lia. rewrite fmap_app.
  rewrite zip_with_app by (rewrite length_fmap, length_seqZ; lia).
  apply join_all_app.
Qed.

(** X8: when the file cannot be opened, [generate_subtitle_file] logs one
    error that names the output and raises the same exception again, and
    no file is created or changed. When a time of some segment cannot be
    formatted, the file has already been created and keeps the blocks of
    the segments before that one: a truncated document is left behind,
    one error is logged and the exception of [format_time] is raised
    again. *)
Theorem generate_subtitle_file_failures :
  (∀ (segments : list (segment F)) (name : string) (w : world E) (err : exn),
     os_open_w (path_join (output_dir self) (name +:+ ".srt")) (ext w)
     = Some err →
     generate_subtitle_file self segments name w
     = (Raise err,
        World (files w)
              (log w ++ [(ERROR, "Failed to write subtitle file for " +:+ name
                                 +:+ ": " +:+ exn_str err)])
              (ext w))) ∧
  (∀ (pre : list (segment F)) (bodies : list string) (bad : segment F)
     (post : list (segment F)) (err : exn) (name : string) (w : world E),
     os_open_w (path_join (output_dir self) (name +:+ ".srt")) (ext w) = None →
     Forall2 (λ seg body, segment_body seg = Ok body) pre bodies →
     segment_body bad = Raise err →
     generate_subtitle_file self (pre ++ bad :: post) name w
     = (Raise err,
        World (<[path_join (output_dir self) (name +:+ ".srt")
                 := document bodies]> (files w))
              (log w ++ [(ERROR, "Failed to write subtitle file for " +:+ name
                                 +:+ ": " +:+ exn_str err)])
              (ext w))).
Proof.
  split.
  - intros segments name w err Hopen.
    by rewrite (generate_subtitle_file_raises_on_open self _ _ _ _ Hopen).
  - intros pre bodies bad post err name w Hopen Hpre Hbad.
    by apply generate_subtitle_file_stops.
Qed.

(** X9: a successful call replaces whatever the file held before (it does
    not append to it), leaves every other file as it was, adds one record
    to the log and returns the path. *)
Theorem generate_subtitle_file_overwrites (segments : list (segment F))
    (bodies : list string) (name : string) (w : world E) (old : string) :
  let path := path_join (output_dir self) (name +:+ ".srt") in
  files w !! path = Some old →
  os_open_w path (ext w) = None →
  Forall2 (λ seg body, segment_body seg = Ok body) segments bodies →
  ∃ w' : world E,
    generate_subtitle_file self segments name w = (Ok path, w') ∧
    files w' !! path = Some (document bodies) ∧
    (∀ p : string, p ≠ path → files w' !! p = files w !! p) ∧
    log w' = log w ++ [(INFO, "Subtitle file generated: " +:+ path)] ∧
    ext w' = ext w.
Proof.
  intros path _ Hopen Hbodies. eexists. split.
  - by apply (generate_subtitle_file_writes self segments bodies).
  - cbn [files log ext]. split_and!; [|intros p Hp|done..].
    + apply lookup_insert_eq.
    + by rewrite lookup_insert_ne.
Qed.

(** X10: more segments at the end of the sequence add blocks at the end of
    the file and change nothing before them: the document of
    [segments ++ more] is the document of [segments] followed by the
    blocks of [more], numbered from [length segments + 1] on. *)
Theorem generate_subtitle_file_app (segments more : list (segment F))
    (bodies bodies' : list string) (name : string) (w : world E) :
  let path := path_join (output_dir self) (name +:+ ".srt") in
  os_open_w path (ext w) = None →
  Forall2 (λ seg body, segment_body seg = Ok body) segments bodies →
  Forall2 (λ seg body, segment_body seg = Ok body) more bodies' →
  ∃ w1 w2 : world E,
    generate_subtitle_file self segments name w = (Ok path, w1) ∧
    generate_subtitle_file self (segments ++ more) name w = (Ok path, w2) ∧
    files w1 !! path = Some (document bodies) ∧
    files w2 !! path
    = Some (document bodies +:+
            join_all (zip_with String.append
              ((λ k : Z, pretty k +:+ nl)
                 <$> seqZ (1 + Z.of_nat (length segments))
                          (Z.of_nat (length more)))
              bodies')).
Proof.
  intros path Hopen Hb Hb'. eexists _, _. split_and!.
  - by apply (generate_subtitle_file_writes self segments bodies).
  - apply (generate_subtitle_file_writes self _ (bodies ++ bodies')); [done|].
    by apply Forall2_app.
  - cbn [files]. apply lookup_insert_eq.
  - cbn [files]. rewrite lookup_insert_eq, document_app.
    by rewrite (Forall2_length _ _ _ Hb), (Forall2_length _ _ _ Hb').
Qed.

End WriterFurther.

Lemma generate_subtitle_file_failures_witness :
  generate_subtitle_file (H0 := Faulty.platform) Faulty.self
    [Segment (Fin 0) (Fin 1) "Hi"] "b" Demo.start
  = (Raise (OSError "[Errno 13] Permission denied"),
     World ∅
       [(ERROR, "Failed to write subtitle file for b: [Errno 13] Permission denied"%string)]
       0%nat) ∧
  generate_subtitle_file (H0 := Demo.platform) Demo.self
    ([Segment (Fin 0) (Fin 1) "Hi"] ++ Segment (Fin 1) NaN "lost"
       :: [Segment (Fin 2) (Fin 3) "never"]) "b" Demo.start
  = (Raise (ValueError "cannot convert float NaN to integer"),
     World {["out/b.srt"%string :=
              document ["00:00:00,000 --> 00:00:01,000" +:+ nl +:+ "Hi" +:+ nl +:+ nl]]}
       [(ERROR, "Failed to write subtitle file for b: cannot convert float NaN to integer"%string)]
       0%nat).
Proof.
  split.
  - exact (proj1 (generate_subtitle_file_failures (H0 := Faulty.platform)
             Faulty.self)
             [Segment (Fin 0) (Fin 1) "Hi"] "b"%string Demo.start
             (OSError "[Errno 13] Permission denied") eq_refl).
  - assert (Hb : Forall2 (λ seg body, segment_body seg = Ok body)
                   [Segment (Fin 0) (Fin 1) "Hi"]
                   ["00:00:00,000 --> 00:00:01,000" +:+ nl +:+ "Hi" +:+ nl +:+ nl]).
    { repeat constructor. }
    exact (proj2 (generate_subtitle_file_failures (H0 := Demo.platform)
             Demo.self)
             [Segment (Fin 0) (Fin 1) "Hi"] _ (Segment (Fin 1) NaN "lost")
             [Segment (Fin 2) (Fin 3) "never"]
             (ValueError "cannot convert float NaN to integer")
             "b"%string Demo.start eq_refl Hb eq_refl).
Defined.

Lemma generate_subtitle_file_overwrites_witness :
  ∃ w' : world nat,
    generate_subtitle_file (H0 := Demo.platform) Demo.self
      (transcript_of <$> Demo.heard) "b"
      (World {["out/b.srt"%string := "old text"%string]} [] 0%nat)
    = (Ok "out/b.srt"%string, w') ∧
    files w' !! "out/b.srt"%string = Some (document Demo.bodies) ∧
    (∀ p : string, p ≠ "out/b.srt"%string →
       files w' !! p
       = ({["out/b.srt"%string := "old text"%string]} : gmap string string) !! p) ∧
    log w' = [(INFO, "Subtitle file generated: out/b.srt"%string)] ∧
    ext w' = 0%nat.
Proof.
  assert (Hb : Forall2 (λ seg body, segment_body seg = Ok body)
                 (transcript_of <$> Demo.heard) Demo.bodies).
  { repeat constructor. }
  exact (generate_subtitle_file_overwrites (H0 := Demo.platform) Demo.self
           (transcript_of <$> Demo.heard) Demo.bodies "b"
           (World {["out/b.srt"%string := "old text"%string]} [] 0%nat)
           "old text" (lookup_singleton_eq _ _) eq_refl Hb).
Defined.

Lemma generate_subtitle_file_app_witness :
  ∃ w1 w2 : world nat,
    generate_subtitle_file (H0 := Demo.platform) Demo.self
      [Segment (Fin 0) (Fin 1) "Hi"] "b" Demo.start
    = (Ok "out/b.srt"%string, w1) ∧
    generate_subtitle_file (H0 := Demo.platform) Demo.self
      ([Segment (Fin 0) (Fin 1) "Hi"] ++ [Segment (Fin 1) (Fin (5 # 2)) "there"])
      "b" Demo.start
    = (Ok "out/b.srt"%string, w2) ∧
    files w1 !! "out/b.srt"%string
    = Some (document ["00:00:00,000 --> 00:00:01,000" +:+ nl +:+ "Hi" +:+ nl +:+ nl]) ∧
    files w2 !! "out/b.srt"%string
    = Some (document ["00:00:00,000 --> 00:00:01,000" +:+ nl +:+ "Hi" +:+ nl +:+ nl]
            +:+ join_all (zip_with String.append
                  ((λ k : Z, pretty k +:+ nl) <$> seqZ (1 + 1) 1)
                  ["00:00:01,000 --> 00:00:02,500" +:+ nl +:+ "there" +:+ nl +:+ nl])).
Proof.
  assert (Hb : Forall2 (λ seg body, segment_body seg = Ok body)
                 [Segment (Fin 0) (Fin 1) "Hi"]
                 ["00:00:00,000 --> 00:00:01,000" +:+ nl +:+ "Hi" +:+ nl +:+ nl]).
  { repeat constructor. }
  assert (Hb' : Forall2 (λ seg body, segment_body seg = Ok body)
                 [Segment (Fin 1) (Fin (5 # 2)) "there"]
                 ["00:00:01,000 --> 00:00:02,500" +:+ nl +:+ "there" +:+ nl +:+ nl]).
  { repeat constructor. }
  exact (generate_subtitle_file_app (H0 := Demo.platform) Demo.self
           _ _ _ _ "b" Demo.start eq_refl Hb Hb').
Defined.

(** ** Further properties of the stages and of [run] *)

Section RunFurther.
Context {F : Type} `{PyFloat F} {E : Type} `{Platform F E}.
Variable self : pipeline.
Local Abbreviation M := (@Run.M E).
Local Abbreviation wav_of := (wav_of self).
Local Abbreviation srt_of := (srt_of self).

(** *** Which files a computation may change *)

Lemma touches_only_weaken {A} (P Q : string → Prop) (m : M A) :
  (∀ p, P p → Q p) → touches_only P m → touches_only Q m.
Proof.
  intros HPQ Hm w. destruct (Hm w) as [Hout Hkeep]. split; [|done].
  intros p Hp. apply Hout. naive_solver.
Qed.

Lemma touches_only_same {A} (P : string → Prop) (m : M A) :
  (∀ w, files (m w).2 = files w) → touches_only P m.
Proof. intros Hm w. rewrite Hm. done. Qed.

Lemma touches_only_bind {A B} (P : string → Prop) (m : M A) (k : A → M B) :
  touches_only P m → (∀ a, touches_only P (k a)) → touches_only P (m ≫= k).
Proof.
  intros Hm Hk w. unfold mbind, M_bind, bind.
  destruct (Hm w) as [Hout Hkeep].
  destruct (m w) as [[a|e] w1]; [|done].
  destruct (Hk a w1) as [Hout' Hkeep']. cbn [snd] in *. split.
  - intros p Hp. by rewrite Hout', Hout.
  - intros p Hp. by apply Hkeep', Hkeep.
Qed.

Lemma touches_only_try_except {A} (P : string → Prop) (body : M A)
    (handler : exn → M A) :
  touches_only P body → (∀ e, touches_only P (handler e)) →
  touches_only P (try_except body handler).
Proof.
  intros Hb Hh w. unfold try_except.
  destruct (Hb w) as [Hout Hkeep].
  destruct (body w) as [[a|e] w1]; [done|].
  destruct (Hh e w1) as [Hout' Hkeep']. cbn [snd] in *. split.
  - intros p Hp. by rewrite Hout', Hout.
  - intros p Hp. by apply Hkeep', Hkeep.
Qed.

Lemma touches_only_open_w (path : string) :
  touches_only (λ p, p = path) (open_w (E:=E) path).
Proof.
  intros w. unfold open_w. destruct (os_open_w path (ext w)); [done|].
  cbn [file_truncate snd files]. split.
  - intros p Hp. by rewrite lookup_insert_ne.
  - intros p Hp. destruct (decide (path = p)) as [->|Hne].
    + by rewrite lookup_insert_eq.
    + by rewrite lookup_insert_ne.
Qed.

Lemma touches_only_file_write (path chunk : string) :
  touches_only (λ p, p = path) (file_write (E:=E) path chunk).
Proof.
  intros w. cbn [file_write snd files]. split.
  - intros p Hp. by rewrite lookup_alter_ne.
  - intros p Hp. destruct (decide (path = p)) as [->|Hne].
    + rewrite lookup_alter_eq. by apply fmap_is_Some.
    + by rewrite lookup_alter_ne.
Qed.

Lemma touches_only_write_blocks (path : string) (segments : list (segment F))
    (index : Z) :
  touches_only (λ p, p = path) (write_blocks (E:=E) path index segments).
Proof.
  revert index. induction segments as [|seg rest IH]; intros index.
  - by apply touches_only_same.
  - cbn [write_blocks].
    repeat (apply touches_only_bind; [|intros ?]);
      first [ by apply touches_only_same
            | apply touches_only_file_write | apply IH ].
Qed.

Lemma touches_only_generate_subtitle_file (segments : list (segment F))
    (name : string) :
  touches_only (λ p, p = path_join (output_dir self) (name +:+ ".srt"))
    (generate_subtitle_file self segments name).
Proof.
  unfold generate_subtitle_file.
  repeat first
    [ apply touches_only_try_except; [|intros ?]
    | apply touches_only_bind; [|intros ?]
    | apply touches_only_open_w | apply touches_only_write_blocks
    | by apply touches_only_same ].
Qed.

Lemma touches_only_stages (video : string) :
  touches_only (λ p, p = srt_of video)
    (stages self video (base_name_of video)).
Proof.
  unfold stages.
  apply touches_only_bind; [|intros audio].
  { apply touches_only_same. intros w.
    unfold extract_audio, try_except, mbind, M_bind, bind, ffmpeg.
    by destruct (ffmpeg_run _ _ _) as [[?|] ?]. }
  apply touches_only_bind; [|intros segments].
  { apply touches_only_same. intros w.
    unfold transcribe, try_except, mbind, M_bind, bind, model, logger at 1.
    cbn [logged ext files].
    by destruct (model_transcribe _ _) as [[?|?] ?]. }
  apply touches_only_bind; [|intros ?; by apply touches_only_same].
  apply touches_only_generate_subtitle_file.
Qed.

Lemma touches_only_run_loop (videos : list string) :
  touches_only (λ p, ∃ v, v ∈ videos ∧ p = srt_of v) (run_loop self videos).
Proof.
  induction videos as [|video rest IH]; [by apply touches_only_same|].
  cbn [run_loop]. cbv zeta. fold (base_name_of video).
  apply touches_only_bind; [by apply touches_only_same|intros _].
  apply touches_only_bind; [|intros _].
  - apply touches_only_try_except; [|intros ?; by apply touches_only_same].
    eapply touches_only_weaken; [|apply touches_only_stages].
    intros p ->. exists video. split; [by left|done].
  - eapply touches_only_weaken; [|apply IH].
    intros p (v & Hv & ->). exists v. split; [by right|done].
Qed.

(** *** Listings without videos *)

Lemma filter_nil {A} (p : A → bool) (l : list A) :
  (∀ x, x ∈ l → p x = false) → List.filter p l = [].
Proof.
  induction l as [|x l IH]; intros Hall; [done|]. cbn.
  rewrite (Hall x) by by left. apply IH. intros y Hy. apply Hall. by right.
Qed.

Lemma run_listing_fails (w : world E) (err : exn) :
  os_listdir (input_dir self) (ext w) = Raise err →
  run self w
  = (Raise err, logged INFO ("Scanning input directory: " +:+ input_dir self) w).
Proof.
  intros Hls. unfold run, mbind, M_bind, bind, logger at 1, listdir.
  cbn [ext logged]. by rewrite Hls.
Qed.

Lemma run_listed_returns (names : list string) (w : world E) :
  os_listdir (input_dir self) (ext w) = Ok names → (run self w).1 = Ok ().
Proof.
  intros Hls. unfold run, mbind, M_bind, bind, logger at 1, listdir.
  cbn [ext logged]. rewrite Hls.
  destruct (scan_videos self names) as [|v vs]; [done|].
  pose proof (run_loop_returns self (v :: vs)
    (logged INFO ("Scanning input directory: " +:+ input_dir self) w)) as Hr.
  unfold logged in Hr.
  destruct (run_loop self (v :: vs) _) as [[[]|?] ?]; done.
Qed.

Lemma grows_run : grows (run self).
Proof.
  unfold run.
  apply grows_bind; [apply grows_logger|intros _].
  apply grows_bind; [by intros w|intros names].
  destruct (scan_videos self names) as [|v vs]; [apply grows_logger|].
  apply grows_bind; [apply grows_run_loop|intros _]. apply grows_logger.
Qed.

(** X11: of the files the program writes itself, with [open] and [write],
    [run] changes only the subtitle files of the videos it scanned: every
    other path keeps its content, and nothing at all is written when the
    directory cannot be listed. The records sent to the handlers of
    [setup_logging] (the console and the log file) are the log of the
    model, which [run] only extends. *)
Theorem run_writes_only_subtitles (w : world E) :
  (∀ names : list string,
     os_listdir (input_dir self) (ext w) = Ok names →
     ∀ p : string,
       (∀ v : string, v ∈ scan_videos self names → p ≠ srt_of v) →
       files (run self w).2 !! p = files w !! p) ∧
  (∀ err : exn,
     os_listdir (input_dir self) (ext w) = Raise err →
     files (run self w).2 = files w) ∧
  (∃ added : list (level * string), log (run self w).2 = log w ++ added).
Proof.
  split_and!.
  - intros names Hls.
    enough (Hgen : ∀ w' : world E, w' = (run self w).2 →
              ∀ p : string,
                (∀ v : string, v ∈ scan_videos self names → p ≠ srt_of v) →
                files w' !! p = files w !! p)
      by (by apply Hgen).
    intros w' Hw'.
    unfold run, mbind, M_bind, bind, logger at 1, listdir in Hw'.
    cbn [ext logged] in Hw'. rewrite Hls in Hw'.
    destruct (scan_videos self names) as [|v vs] eqn:Hscan.
    { by subst w'. }
    set (w0 := logged INFO ("Scanning input directory: " +:+ input_dir self) w)
      in Hw'.
    destruct (touches_only_run_loop (v :: vs) w0) as [Hout _].
    change (files w0) with (files w) in Hout.
    destruct (run_loop self (v :: vs) w0) as [[[]|?] w1];
      cbn [snd logger logged files] in *; subst w'; cbn [files].
    + intros p Hp. apply Hout. intros (u & Hu & ->). by apply (Hp u).
    + intros p Hp. apply Hout. intros (u & Hu & ->). by apply (Hp u).
  - intros err Hls. by rewrite (run_listing_fails w err Hls).
  - apply grows_run.
Qed.

(** X12: [run] raises exactly when the input directory cannot be listed:
    that exception is not caught, and only the scanning record has been
    logged by then. *)
Theorem run_raises_iff_listing_fails (w : world E) (err : exn) :
  ((run self w).1 = Raise err ↔
   os_listdir (input_dir self) (ext w) = Raise err) ∧
  (os_listdir (input_dir self) (ext w) = Raise err →
   run self w
   = (Raise err,
      logged INFO ("Scanning input directory: " +:+ input_dir self) w)).
Proof.
  split; [|apply run_listing_fails]. split.
  - intros Hr.
    destruct (os_listdir (input_dir self) (ext w)) as [names|e] eqn:Hls.
    + rewrite (run_listed_returns names w Hls) in Hr. done.
    + rewrite (run_listing_fails w e Hls) in Hr. cbn in Hr. congruence.
  - intros Hls. by rewrite (run_listing_fails w err Hls).
Qed.

(** X13: when no listed name ends in a video extension (an empty
    directory among them) [run] logs a warning and returns: no file is
    written and no completion record is logged. *)
Theorem run_without_videos (names : list string) (w : world E) :
  os_listdir (input_dir self) (ext w) = Ok names →
  (∀ f ext : string,
     f ∈ names → ext ∈ video_suffixes → ¬ ends_with_ignoring_case f ext) →
  run self w
  = (Ok (),
     World (files w)
       (log w ++
        [(INFO, "Scanning input directory: " +:+ input_dir self);
         (WARNING, "No video files found in " +:+ input_dir self)])
       (ext w)).
Proof.
  intros Hls Hnone.
  unfold run, mbind, M_bind, bind, logger at 1, listdir. cbn [ext logged].
  rewrite Hls. unfold scan_videos. rewrite filter_nil.
  - cbn. unfold logger, logged. cbn [files log ext]. by rewrite <- app_assoc.
  - intros f Hf. apply not_true_iff_false. intros Hyes.
    apply video_test_spec in Hyes as (ext & Hext & Hend).
    by apply (Hnone f ext).
Qed.

(** X14: with at least one video scanned, [run] returns and its records
    begin with the scanning record and end with the completion record,
    whatever happened to the videos in between. *)
Theorem run_logs_completion (names : list string) (w : world E) :
  os_listdir (input_dir self) (ext w) = Ok names →
  scan_videos self names ≠ [] →
  ∃ (w' : world E) (mid : list (level * string)),
    run self w = (Ok (), w') ∧
    log w'
    = log w ++
      [(INFO, "Scanning input directory: " +:+ input_dir self)] ++ mid ++
      [(INFO, "Processing input directory complete. Outputs saved in: "
              +:+ output_dir self)].
Proof.
  intros Hls Hsome.
  unfold run, mbind, M_bind, bind, logger at 1, listdir. cbn [ext logged].
  rewrite Hls. destruct (scan_videos self names) as [|v vs]; [done|].
  set (w0 := logged INFO ("Scanning input directory: " +:+ input_dir self) w).
  pose proof (run_loop_returns self (v :: vs) w0) as Hr.
  pose proof (grows_run_loop self (v :: vs) w0) as [mid Hmid].
  destruct (run_loop self (v :: vs) w0) as [[[]|?] w1]; [|done].
  cbn [snd] in Hmid. eexists _, mid. split; [done|].
  cbn [logger logged log snd]. rewrite Hmid. unfold w0, logged. cbn [log].
  by rewrite <- !app_assoc.
Qed.

(** X15: a stage that fails has logged one error of its own by the time
    the exception reaches the handler of [run], after the records of the
    stages that succeeded before it. When the extraction, the
    transcription or the opening of the subtitle file fails, the files are
    left as they were. When a time of a segment does not format, the
    subtitle file has been created already and is left with the blocks of
    the segments before that one. *)
Theorem stages_failure_states (video : string) (w : world E) (err : exn)
    (e1 e2 : E) (heard : option (list (raw_segment F))) :
  (ffmpeg_run video (wav_of video) (ext w) = (Some err, e1) →
   stages self video (base_name_of video) w
   = (Raise err,
      World (files w)
        (log w ++
         [(ERROR, "Failed to extract audio from " +:+ video +:+ ": "
                  +:+ exn_str err)])
        e1)) ∧
  (ffmpeg_run video (wav_of video) (ext w) = (None, e1) →
   model_transcribe (wav_of video) e1 = (Raise err, e2) →
   stages self video (base_name_of video) w
   = (Raise err,
      World (files w)
        (log w ++
         [(INFO, "Extracted audio: " +:+ wav_of video);
          (INFO, "Transcribing: " +:+ path_basename (wav_of video));
          (ERROR, "Transcription failed for " +:+ wav_of video +:+ ": "
                  +:+ exn_str err)])
        e2)) ∧
  (ffmpeg_run video (wav_of video) (ext w) = (None, e1) →
   model_transcribe (wav_of video) e1 = (Ok heard, e2) →
   os_open_w (srt_of video) e2 = Some err →
   stages self video (base_name_of video) w
   = (Raise err,
      World (files w)
        (log w ++
         [(INFO, "Extracted audio: " +:+ wav_of video);
          (INFO, "Transcribing: " +:+ path_basename (wav_of video));
          (INFO, "Transcription complete: " +:+ path_basename (wav_of video));
          (ERROR, "Failed to write subtitle file for " +:+ base_name_of video
                  +:+ ": " +:+ exn_str err)])
        e2)) ∧
  (∀ (pre : list (segment F)) (bodies : list string) (bad : segment F)
     (post : list (segment F)),
     ffmpeg_run video (wav_of video) (ext w) = (None, e1) →
     model_transcribe (wav_of video) e1 = (Ok heard, e2) →
     os_open_w (srt_of video) e2 = None →
     transcript_of <$> default [] heard = pre ++ bad :: post →
     Forall2 (λ seg body, segment_body seg = Ok body) pre bodies →
     segment_body bad = Raise err →
     stages self video (base_name_of video) w
     = (Raise err,
        World (<[srt_of video := document bodies]> (files w))
          (log w ++
           [(INFO, "Extracted audio: " +:+ wav_of video);
            (INFO, "Transcribing: " +:+ path_basename (wav_of video));
            (INFO, "Transcription complete: " +:+ path_basename (wav_of video));
            (ERROR, "Failed to write subtitle file for " +:+ base_name_of video
                    +:+ ": " +:+ exn_str err)])
          e2)).
Proof.
  split_and!.
  - intros Hx. unfold stages, mbind, M_bind, bind.
    by rewrite (extract_audio_raises self _ _ _ _ Hx).
  - intros Hx Ht. unfold stages, mbind, M_bind, bind.
    rewrite (extract_audio_returns self _ _ _ Hx).
    rewrite (transcribe_raises (wav_of video)
      (logged INFO _ (with_ext e1 w)) err e2 Ht).
    unfold logged, with_ext. cbn [files log ext]. by rewrite <- !app_assoc.
  - intros Hx Ht Ho. unfold stages, mbind, M_bind, bind.
    rewrite (extract_audio_returns self _ _ _ Hx).
    rewrite (transcribe_returns (wav_of video)
      (logged INFO _ (with_ext e1 w)) heard e2 Ht).
    rewrite (generate_subtitle_file_raises_on_open self _ (base_name_of video)
      (logged INFO _ (with_ext e2 _)) err Ho).
    unfold logged, with_ext. cbn [files log ext]. by rewrite <- !app_assoc.
  - intros pre bodies bad post Hx Ht Ho Hsplit Hpre Hbad.
    unfold stages, mbind, M_bind, bind.
    rewrite (extract_audio_returns self _ _ _ Hx).
    rewrite (transcribe_returns (wav_of video)
      (logged INFO _ (with_ext e1 w)) heard e2 Ht).
    rewrite Hsplit.
    rewrite (generate_subtitle_file_stops self pre bodies bad post err
      (base_name_of video) (logged INFO _ (with_ext e2 _)) Ho Hpre Hbad).
    unfold logged, with_ext. cbn [files log ext]. by rewrite <- !app_assoc.
Qed.

(** X16: a transcription result without the key ["segments"], or with an
    empty list under it, is no error: the three stages succeed and the
    video gets an empty subtitle file. *)
Theorem stages_without_segments (video : string) (w : world E) (e1 e2 : E)
    (heard : option (list (raw_segment F))) :
  heard = None ∨ heard = Some [] →
  ffmpeg_run video (wav_of video) (ext w) = (None, e1) →
  model_transcribe (wav_of video) e1 = (Ok heard, e2) →
  os_open_w (srt_of video) e2 = None →
  stages self video (base_name_of video) w
  = (Ok (),
     World (<[srt_of video := ""%string]> (files w))
       (log w ++
        [(INFO, "Extracted audio: " +:+ wav_of video);
         (INFO, "Transcribing: " +:+ path_basename (wav_of video));
         (INFO, "Transcription complete: " +:+ path_basename (wav_of video));
         (INFO, "Subtitle file generated: " +:+ srt_of video)])
       e2).
Proof.
  intros Hnone Hx Ht Ho.
  apply (stages_return self video w e1 e2 heard []); [done..|].
  by destruct Hnone as [-> | ->].
Qed.

(** X17: the names of the output files come from the base name of the
    video alone, so two videos that differ only in directory or extension
    share them: when both are processed with success the subtitle file
    holds the document of the later one and that of the earlier is lost. *)
Theorem run_loop_same_base_name (A B : string) (w : world E)
    (e1 e2 e3 e4 : E) (heardA heardB : option (list (raw_segment F)))
    (bodiesA bodiesB : list string) :
  base_name_of A = base_name_of B →
  ffmpeg_run A (wav_of A) (ext w) = (None, e1) →
  model_transcribe (wav_of A) e1 = (Ok heardA, e2) →
  os_open_w (srt_of A) e2 = None →
  Forall2 (λ seg body, segment_body seg = Ok body)
          (transcript_of <$> default [] heardA) bodiesA →
  ffmpeg_run B (wav_of B) e2 = (None, e3) →
  model_transcribe (wav_of B) e3 = (Ok heardB, e4) →
  os_open_w (srt_of B) e4 = None →
  Forall2 (λ seg body, segment_body seg = Ok body)
          (transcript_of <$> default [] heardB) bodiesB →
  wav_of A = wav_of B ∧ srt_of A = srt_of B ∧
  ∃ w' : world E,
    run_loop self [A; B] w = (Ok (), w') ∧
    files w' = <[srt_of B := document bodiesB]> (files w).
Proof.
  intros Hbase HxA HtA HoA HbA HxB HtB HoB HbB.
  assert (Hwav : wav_of A = wav_of B).
  { change (path_join (output_dir self) (base_name_of A +:+ ".wav")
            = path_join (output_dir self) (base_name_of B +:+ ".wav")).
    by rewrite Hbase. }
  assert (Hsrt : srt_of A = srt_of B).
  { change (path_join (output_dir self) (base_name_of A +:+ ".srt")
            = path_join (output_dir self) (base_name_of B +:+ ".srt")).
    by rewrite Hbase. }
  split; [done|]. split; [done|]. eexists. split.
  - erewrite run_loop_after_success;
      [|by apply (stages_return self A _ e1 e2 heardA bodiesA)].
    erewrite run_loop_after_success;
      [|by apply (stages_return self B _ e3 e4 heardB bodiesB)].
    reflexivity.
  - cbn [files logged]. by rewrite Hsrt, insert_insert_eq.
Qed.

End RunFurther.

Lemma run_writes_only_subtitles_witness :
  (∀ p : string,
     (∀ v : string,
        v ∈ scan_videos (H0 := Demo.platform) Demo.self
              ["a.mp4"; "notes.txt"; "b.MOV"]%string →
        p ≠ srt_of (H := Demo.platform) Demo.self v) →
     files (run (H0 := Demo.platform) Demo.self Demo.start).2 !! p
     = files Demo.start !! p) ∧
  (∃ added : list (level * string),
     log (run (H0 := Demo.platform) Demo.self Demo.start).2
     = log Demo.start ++ added).
Proof.
  split.
  - exact (proj1 (run_writes_only_subtitles (H0 := Demo.platform) Demo.self
                    Demo.start) ["a.mp4"; "notes.txt"; "b.MOV"]%string eq_refl).
  - exact (proj2 (proj2 (run_writes_only_subtitles (H0 := Demo.platform)
                           Demo.self Demo.start))).
Defined.

Lemma run_raises_iff_listing_fails_witness :
  run (H0 := Faulty.platform) (Pipeline "missing" "out") Demo.start
  = (Raise (OSError "[Errno 2] No such file or directory"),
     World ∅ [(INFO, "Scanning input directory: missing"%string)] 0%nat).
Proof.
  exact (proj2 (run_raises_iff_listing_fails (H0 := Faulty.platform)
           (Pipeline "missing" "out") Demo.start
           (OSError "[Errno 2] No such file or directory")) eq_refl).
Defined.

Lemma run_without_videos_witness :
  run (H0 := Faulty.platform) (Pipeline "docs" "out") Demo.start
  = (Ok (),
     World ∅
       [(INFO, "Scanning input directory: docs"%string);
        (WARNING, "No video files found in docs"%string)]
       0%nat).
Proof.
  assert (Hnone : ∀ f ext : string,
            f ∈ ["notes.txt"; "clip.mp3"]%string → ext ∈ video_suffixes →
            ¬ ends_with_ignoring_case f ext).
  { intros f ext Hf Hext Hend.
    assert (Hyes : endswith_any (lower f) video_suffixes = true)
      by (apply video_test_spec; eauto).
    apply list_elem_of_In in Hf. cbn in Hf.
    destruct Hf as [<-|[<-|[]]]; vm_compute in Hyes; discriminate. }
  exact (run_without_videos (H0 := Faulty.platform) (Pipeline "docs" "out")
           ["notes.txt"; "clip.mp3"]%string Demo.start eq_refl Hnone).
Defined.

Lemma run_logs_completion_witness :
  ∃ (w' : world nat) (mid : list (level * string)),
    run (H0 := Demo.platform) Demo.self Demo.start = (Ok (), w') ∧
    log w'
    = [] ++ [(INFO, "Scanning input directory: in"%string)] ++ mid ++
      [(INFO, "Processing input directory complete. Outputs saved in: out"%string)].
Proof.
  assert (Hsome : scan_videos (H0 := Demo.platform) Demo.self
                    ["a.mp4"; "notes.txt"; "b.MOV"]%string ≠ []).
  { vm_compute. discriminate. }
  exact (run_logs_completion (H0 := Demo.platform) Demo.self
           ["a.mp4"; "notes.txt"; "b.MOV"]%string Demo.start eq_refl Hsome).
Defined.

Lemma stages_failure_states_witness :
  stages (H0 := Demo.platform) Demo.self "in/a.mp4" "a" Demo.start
  = (Raise (ExternalError "ffmpeg error (see stderr output for detail)"),
     World ∅
       [(ERROR, "Failed to extract audio from in/a.mp4: ffmpeg error (see stderr output for detail)"%string)]
       1%nat) ∧
  stages (H0 := Faulty.platform) Faulty.self "in/a.mp4" "a" Demo.start
  = (Raise (ExternalError "model failure"),
     World ∅
       [(INFO, "Extracted audio: out/a.wav"%string);
        (INFO, "Transcribing: a.wav"%string);
        (ERROR, "Transcription failed for out/a.wav: model failure"%string)]
       1%nat) ∧
  stages (H0 := Faulty.platform) Faulty.self "in/b.mkv" "b" Demo.start
  = (Raise (OSError "[Errno 13] Permission denied"),
     World ∅
       [(INFO, "Extracted audio: out/b.wav"%string);
        (INFO, "Transcribing: b.wav"%string);
        (INFO, "Transcription complete: b.wav"%string);
        (ERROR, "Failed to write subtitle file for b: [Errno 13] Permission denied"%string)]
       1%nat) ∧
  stages (H0 := Endless.platform) Demo.self "in/e.mp4" "e" Demo.start
  = (Raise (OverflowError "cannot convert float infinity to integer"),
     World {["out/e.srt"%string :=
              document ["00:00:00,000 --> 00:00:01,000" +:+ nl +:+ "Hi" +:+ nl +:+ nl]]}
       [(INFO, "Extracted audio: out/e.wav"%string);
        (INFO, "Transcribing: e.wav"%string);
        (INFO, "Transcription complete: e.wav"%string);
        (ERROR, "Failed to write subtitle file for e: cannot convert float infinity to integer"%string)]
       1%nat).
Proof.
  split_and!.
  - exact (proj1 (stages_failure_states (H0 := Demo.platform) Demo.self
             "in/a.mp4" Demo.start
             (ExternalError "ffmpeg error (see stderr output for detail)")
             1%nat 1%nat None) eq_refl).
  - exact (proj1 (proj2 (stages_failure_states (H0 := Faulty.platform)
             Faulty.self "in/a.mp4" Demo.start
             (ExternalError "model failure") 1%nat 1%nat None))
             eq_refl eq_refl).
  - exact (proj1 (proj2 (proj2 (stages_failure_states (H0 := Faulty.platform)
             Faulty.self "in/b.mkv" Demo.start
             (OSError "[Errno 13] Permission denied") 1%nat 1%nat
             (Some [RawSegment 0 (Fin 0) (Fin (inject_Z 1)) "c"]))))
             eq_refl eq_refl eq_refl).
  - assert (Hb : Forall2 (λ seg body, segment_body seg = Ok body)
                   [Segment (B64.whole 0) (B64.whole 1) "Hi"]
                   ["00:00:00,000 --> 00:00:01,000" +:+ nl +:+ "Hi" +:+ nl +:+ nl]).
    { repeat constructor. }
    exact (proj2 (proj2 (proj2 (stages_failure_states (H0 := Endless.platform)
             Demo.self "in/e.mp4" Demo.start
             (OverflowError "cannot convert float infinity to integer")
             1%nat 1%nat (Some Endless.heard))))
             [Segment (B64.whole 0) (B64.whole 1) "Hi"] _
             (Segment (B64.whole 1) (S754_infinity false) "lost")
             [Segment (B64.whole 2) (B64.whole 3) "never"]
             eq_refl eq_refl eq_refl eq_refl Hb eq_refl).
Defined.

Lemma stages_without_segments_witness :
  stages (H0 := Faulty.platform) Faulty.self "in/d.mp4" "d" Demo.start
  = (Ok (),
     World {["out/d.srt"%string := ""%string]}
       [(INFO, "Extracted audio: out/d.wav"%string);
        (INFO, "Transcribing: d.wav"%string);
        (INFO, "Transcription complete: d.wav"%string);
        (INFO, "Subtitle file generated: out/d.srt"%string)]
       1%nat).
Proof.
  exact (stages_without_segments (H0 := Faulty.platform) Faulty.self
           "in/d.mp4" Demo.start 1%nat 1%nat None
           (or_introl eq_refl) eq_refl eq_refl eq_refl).
Defined.

Lemma run_loop_same_base_name_witness :
  wav_of (H := Faulty.platform) Faulty.self "in/c.avi"
  = wav_of (H := Faulty.platform) Faulty.self "in/c.mov" ∧
  srt_of (H := Faulty.platform) Faulty.self "in/c.avi"
  = srt_of (H := Faulty.platform) Faulty.self "in/c.mov" ∧
  ∃ w' : world nat,
    run_loop (H0 := Faulty.platform) Faulty.self ["in/c.avi"; "in/c.mov"]
      Demo.start
    = (Ok (), w') ∧
    files w'
    = <[srt_of (H := Faulty.platform) Faulty.self "in/c.mov" :=
        document ["00:00:00,000 --> 00:00:02,000" +:+ nl +:+ "c" +:+ nl +:+ nl]]>
        (files Demo.start).
Proof.
  assert (HbA : Forall2 (λ seg body, segment_body seg = Ok body)
                  (transcript_of <$>
                     default [] (Some [RawSegment 0 (Fin 0) (Fin (inject_Z 1)) "c"]))
                  ["00:00:00,000 --> 00:00:01,000" +:+ nl +:+ "c" +:+ nl +:+ nl]).
  { repeat constructor. }
  assert (HbB : Forall2 (λ seg body, segment_body seg = Ok body)
                  (transcript_of <$>
                     default [] (Some [RawSegment 0 (Fin 0) (Fin (inject_Z 2)) "c"]))
                  ["00:00:00,000 --> 00:00:02,000" +:+ nl +:+ "c" +:+ nl +:+ nl]).
  { repeat constructor. }
  exact (run_loop_same_base_name (H0 := Faulty.platform) Faulty.self
           "in/c.avi" "in/c.mov" Demo.start 1%nat 1%nat 2%nat 2%nat
           _ _ _ _ eq_refl eq_refl eq_refl eq_refl HbA eq_refl eq_refl eq_refl
           HbB).
Defined.
